(** * PhishBlock: the stake-backed report registry, the staking ledger and
    the evidence validator, embedded in Rocq.

    Sources: [contracts/ReputationSystem.sol] (which holds the contracts
    [ReputationSystem], [PhishBlockRegistry] and [StakeBasedReportRegistry])
    and [contracts/EvidenceValidator.sol].

    Conventions of the embedding:
    - addresses, [uint256] values, ids and timestamps are [Z];
    - Solidity [mapping]s are stdpp [gmap]s, read with the storage default
      (zero, [false], the first enum constant) when the key is absent;
    - a transaction is a function [State -> option State]: [None] is a
      revert, which rolls back every effect of the call;
    - [require b] is Solidity's [require];
    - the ETH (or token) sent along a call moves from the caller's wallet to
      the contract before the body runs, and back on revert. *)

From stdpp Require Import base gmap strings list.
From Stdlib Require Import ZArith Lia.

Open Scope Z_scope.

(** Solidity's [require]: continue when [b] holds, revert otherwise. *)
Definition require (b : bool) : option unit := if b then Some () else None.

(** [bytes(s).length > 0] *)
Definition nonempty (s : string) : bool := (0 <? String.length s)%nat.

(** The sum of [f v] over the values [v] of a finite map. *)
Definition map_sumZ `{Countable K} {A} (f : A -> Z) (m : gmap K A) : Z :=
  map_fold (fun _ v acc => f v + acc) 0 m.

(** The transaction context: [msg.sender], [msg.value], [block.timestamp]. *)
Record Msg := mkMsg { sender : Z; value : Z; now : Z }.

(** * StakeBasedReportRegistry *)
Module Registry.

Definition REPORT_STAKE : Z := 10 ^ 16.          (* 0.01 ether *)
Definition VOTING_STAKE : Z := 5 * 10 ^ 15.      (* 0.005 ether *)
Definition VALIDATOR_REWARD : Z := 10 ^ 15.      (* 0.001 ether *)
Definition REPORTER_REWARD : Z := 5 * 10 ^ 15.   (* 0.005 ether *)
Definition MIN_VALIDATORS : Z := 3.
Definition MAX_VALIDATORS : Z := 5.
Definition VOTING_PERIOD : Z := 7 * 86400.       (* 7 days *)

Inductive ReportStatus := Pending | Validated | Rejected | Expired.
(** [VoteType.None] is [VNone]: [None] is taken by [option]. *)
Inductive VoteType := VNone | Valid | Invalid.

#[global] Instance ReportStatus_eq_dec : EqDecision ReportStatus.
Proof. solve_decision. Defined.
#[global] Instance VoteType_eq_dec : EqDecision VoteType.
Proof. solve_decision. Defined.

Record Report := mkReport {
  id : Z;
  reportType : string;
  targetValue : string;
  description : string;
  reportHash : string;
  reporter : Z;
  stakeAmount : Z;
  timestamp : Z;
  votingDeadline : Z;
  status : ReportStatus;
  validVotes : Z;
  invalidVotes : Z;
  votes : gmap Z VoteType;
  validatorStakes : gmap Z Z;
  validators : list Z
}.

(** The zero-initialised storage slot of [reports[id]]. *)
Definition empty_report : Report :=
  mkReport 0 "" "" "" "" 0 0 0 0 Pending 0 0 ∅ ∅ [].

Record Validator := mkValidator {
  vid : Z;
  validatorAddress : Z;
  reputation : Z;
  totalValidations : Z;
  correctValidations : Z;
  isActive : bool;
  registrationTime : Z
}.

Definition empty_validator : Validator := mkValidator 0 0 0 0 0 false 0.

(** Contract storage, plus the ETH balances of the outside accounts and the
    log of the outgoing [payable(..).transfer(..)] calls. The write-only
    arrays [userReports] and [validatorReports] are left out. *)
Record State := mkState {
  reports : gmap Z Report;
  validatorRecords : gmap Z Validator;   (* the contract's [validators] *)
  reportIds : Z;
  validatorIds : Z;
  owner : Z;
  balance : Z;                           (* [address(this).balance] *)
  wallets : gmap Z Z;
  transfers : list (Z * Z)
}.

Definition get_report (s : State) (rid : Z) : Report :=
  default empty_report (reports s !! rid).
Definition get_validator (s : State) (a : Z) : Validator :=
  default empty_validator (validatorRecords s !! a).
Definition wallet_of (s : State) (a : Z) : Z := default 0 (wallets s !! a).

Definition vote_of (r : Report) (v : Z) : VoteType := default VNone (votes r !! v).
Definition stake_of (r : Report) (v : Z) : Z := default 0 (validatorStakes r !! v).

Definition set_report (s : State) (rid : Z) (r : Report) : State :=
  mkState (<[rid := r]> (reports s)) (validatorRecords s) (reportIds s)
    (validatorIds s) (owner s) (balance s) (wallets s) (transfers s).
Definition set_validator (s : State) (a : Z) (v : Validator) : State :=
  mkState (reports s) (<[a := v]> (validatorRecords s)) (reportIds s)
    (validatorIds s) (owner s) (balance s) (wallets s) (transfers s).
Definition set_reportIds (s : State) (n : Z) : State :=
  mkState (reports s) (validatorRecords s) n
    (validatorIds s) (owner s) (balance s) (wallets s) (transfers s).
Definition set_validatorIds (s : State) (n : Z) : State :=
  mkState (reports s) (validatorRecords s) (reportIds s)
    n (owner s) (balance s) (wallets s) (transfers s).

Definition with_status (r : Report) (st : ReportStatus) : Report :=
  mkReport (id r) (reportType r) (targetValue r) (description r) (reportHash r)
    (reporter r) (stakeAmount r) (timestamp r) (votingDeadline r) st
    (validVotes r) (invalidVotes r) (votes r) (validatorStakes r) (validators r).

(** [payable(to).transfer(amt)]: reverts when the contract holds less. *)
Definition transfer_to (to amt : Z) (s : State) : option State :=
  require (amt <=? balance s) ;;
  Some (mkState (reports s) (validatorRecords s) (reportIds s) (validatorIds s)
          (owner s) (balance s - amt) (<[to := wallet_of s to + amt]> (wallets s))
          (transfers s ++ [(to, amt)])).

(** [msg.value] moves from the caller to the contract. *)
Definition pay_in (m : Msg) (s : State) : option State :=
  require ((0 <=? value m) && (value m <=? wallet_of s (sender m))) ;;
  Some (mkState (reports s) (validatorRecords s) (reportIds s) (validatorIds s)
          (owner s) (balance s + value m)
          (<[sender m := wallet_of s (sender m) - value m]> (wallets s))
          (transfers s)).

(** [registerValidator] (non-payable). *)
Definition registerValidator (m : Msg) (s : State) : option State :=
  require (value m =? 0) ;;
  require (negb (isActive (get_validator s (sender m)))) ;;
  let n := validatorIds s + 1 in
  Some (set_validator (set_validatorIds s n) (sender m)
          (mkValidator n (sender m) 100 0 0 true (now m))).

(** [submitReportWithStake]: the fields are written into the storage slot
    [reports[reportId]]; its mappings and array are left as they were. *)
Definition submitReportWithStake (m : Msg) (s : State)
    (rtype target descr rhash : string) : option State :=
  require (value m =? REPORT_STAKE) ;;
  require (nonempty rtype) ;;
  require (nonempty target) ;;
  require (nonempty descr) ;;
  let rid := reportIds s + 1 in
  let old := get_report s rid in
  let r := mkReport rid rtype target descr rhash (sender m) (value m) (now m)
             (now m + VOTING_PERIOD) Pending 0 0
             (votes old) (validatorStakes old) (validators old) in
  Some (set_report (set_reportIds s rid) rid r).

(** The loops of [_distributeValidatorRewards] and [_redistributeStake]:
    one transfer per validator, in the order of [report.validators]. *)
Fixpoint pay_each (amt : Z -> Z) (vs : list Z) (s : State) : option State :=
  match vs with
  | [] => Some s
  | v :: vs' => s1 ← transfer_to v (amt v) s; pay_each amt vs' s1
  end.

Definition validator_payout (r : Report) (v : Z) : Z :=
  if bool_decide (vote_of r v = Valid) then stake_of r v + VALIDATOR_REWARD
  else stake_of r v.

Definition _distributeValidatorRewards (rid : Z) (s : State) : option State :=
  let r := get_report s rid in
  pay_each (validator_payout r) (validators r) s.

Definition count_votes (t : VoteType) (r : Report) : Z :=
  Z.of_nat (length (filter (fun v => vote_of r v = t) (validators r))).

Definition redistribute_payout (r : Report) (per : Z) (v : Z) : Z :=
  if bool_decide (vote_of r v = Invalid) then stake_of r v + per
  else stake_of r v.

Definition _redistributeStake (rid : Z) (s : State) : option State :=
  let r := get_report s rid in
  let correctValidators := count_votes Invalid r in
  if 0 <? correctValidators then
    pay_each (redistribute_payout r (stakeAmount r / correctValidators))
      (validators r) s
  else Some s.

Definition vote_correct (r : Report) (v : Z) : bool :=
  bool_decide (status r = Validated /\ vote_of r v = Valid) ||
  bool_decide (status r = Rejected /\ vote_of r v = Invalid).

Definition bump_validator (correct : bool) (val : Validator) : Validator :=
  if correct then
    mkValidator (vid val) (validatorAddress val) (reputation val + 1)
      (totalValidations val + 1) (correctValidations val + 1)
      (isActive val) (registrationTime val)
  else
    mkValidator (vid val) (validatorAddress val)
      (if 1 <? reputation val then reputation val - 1 else 1)
      (totalValidations val + 1) (correctValidations val)
      (isActive val) (registrationTime val).

Fixpoint update_each (r : Report) (vs : list Z) (s : State) : State :=
  match vs with
  | [] => s
  | v :: vs' =>
      update_each r vs'
        (set_validator s v (bump_validator (vote_correct r v) (get_validator s v)))
  end.

Definition _updateValidatorReputation (rid : Z) (s : State) : State :=
  let r := get_report s rid in update_each r (validators r) s.

Definition _finalizeReport (rid : Z) (s : State) : option State :=
  let r := get_report s rid in
  require (MIN_VALIDATORS <=? Z.of_nat (length (validators r))) ;;
  if invalidVotes r <? validVotes r then
    let s1 := set_report s rid (with_status r Validated) in
    s2 ← transfer_to (reporter r) (stakeAmount r + REPORTER_REWARD) s1;
    s3 ← _distributeValidatorRewards rid s2;
    Some (_updateValidatorReputation rid s3)
  else
    let s1 := set_report s rid (with_status r Rejected) in
    s2 ← _redistributeStake rid s1;
    Some (_updateValidatorReputation rid s2).

(** The body of [voteOnReport] after its checks: add the validator to
    [report.validators] unless already there, record vote and stake, count. *)
Definition cast_vote (r : Report) (voter stake : Z) (isValid : bool) : Report :=
  let vs := if existsb (Z.eqb voter) (validators r) then validators r
            else validators r ++ [voter] in
  mkReport (id r) (reportType r) (targetValue r) (description r)
    (reportHash r) (reporter r) (stakeAmount r) (timestamp r)
    (votingDeadline r) (status r)
    (if isValid then validVotes r + 1 else validVotes r)
    (if isValid then invalidVotes r else invalidVotes r + 1)
    (<[voter := if isValid then Valid else Invalid]> (votes r))
    (<[voter := stake]> (validatorStakes r)) vs.

(** [voteOnReport], with its modifiers [onlyActiveValidator],
    [reportExists] and [votingOpen]. *)
Definition voteOnReport (m : Msg) (s : State) (rid : Z) (isValid : bool)
    : option State :=
  require (isActive (get_validator s (sender m))) ;;
  require (rid <=? reportIds s) ;;
  let r := get_report s rid in
  require (now m <=? votingDeadline r) ;;
  require (bool_decide (status r = Pending)) ;;
  require (value m =? VOTING_STAKE) ;;
  require (bool_decide (vote_of r (sender m) = VNone)) ;;
  let r1 := cast_vote r (sender m) (value m) isValid in
  let s1 := set_report s rid r1 in
  if MIN_VALIDATORS <=? Z.of_nat (length (validators r1)) then _finalizeReport rid s1
  else Some s1.

(** [emergencyWithdraw] (only owner). *)
Definition emergencyWithdraw (m : Msg) (s : State) : option State :=
  require (value m =? 0) ;;
  require (sender m =? owner s) ;;
  transfer_to (owner s) (balance s) s.

(** The external entry points that change state. *)
Inductive Op :=
  | RegisterValidator
  | SubmitReportWithStake (rtype target descr rhash : string)
  | VoteOnReport (rid : Z) (isValid : bool)
  | Receive
  | EmergencyWithdraw.

Definition exec (op : Op) (m : Msg) (s : State) : option State :=
  s1 ← pay_in m s;
  match op with
  | RegisterValidator => registerValidator m s1
  | SubmitReportWithStake rt tv d rh => submitReportWithStake m s1 rt tv d rh
  | VoteOnReport rid b => voteOnReport m s1 rid b
  | Receive => Some s1
  | EmergencyWithdraw => emergencyWithdraw m s1
  end.

(** The freshly deployed contract, with the outside accounts' balances. *)
Definition init (o : Z) (w : gmap Z Z) : State :=
  mkState ∅ ∅ 0 0 o 0 w [].

Inductive reachable : State -> Prop :=
  | reachable_init o w : reachable (init o w)
  | reachable_step s op m s' :
      reachable s -> exec op m s = Some s' -> reachable s'.

(** A sequence of calls, each on the state the previous one left. *)
Definition run (ops : list (Op * Msg)) (s : State) : option State :=
  foldl (fun acc om => s1 ← acc; exec om.1 om.2 s1) (Some s) ops.

(** Sums over the registry: outside balances, and the stakes held for
    reports that are still [Pending]. *)
Definition wallets_total (s : State) : Z := map_sumZ (fun x => x) (wallets s).
Definition locked_total (s : State) : Z :=
  map_sumZ (fun r => if bool_decide (status r = Pending)
                     then stakeAmount r + map_sumZ (fun x => x) (validatorStakes r) else 0)
    (reports s).

Definition same_reports (s s' : State) : Prop :=
  reports s' = reports s /\ reportIds s' = reportIds s.

(** ETH held outside plus ETH held by the contract. *)
Definition eth_total (s : State) : Z := wallets_total s + balance s.

(** The transfers [_finalizeReport] makes for a report, in order. *)
Definition settlement (r : Report) : list (Z * Z) :=
  if invalidVotes r <? validVotes r then
    (reporter r, stakeAmount r + REPORTER_REWARD)
      :: map (fun v => (v, validator_payout r v)) (validators r)
  else if 0 <? count_votes Invalid r then
    map (fun v => (v, redistribute_payout r (stakeAmount r / count_votes Invalid r) v))
      (validators r)
  else [].

(** The status [_finalizeReport] gives a report. *)
Definition outcome (r : Report) : ReportStatus :=
  if invalidVotes r <? validVotes r then Validated else Rejected.

(** The bookkeeping of a report's votes: each validator is listed once, the
    listed validators are exactly those holding a vote, and the counters
    agree with the votes. *)
Definition tally_core (r : Report) : Prop :=
  NoDup (validators r) /\
  (forall v, v ∈ validators r <-> vote_of r v <> VNone) /\
  validVotes r = count_votes Valid r /\ invalidVotes r = count_votes Invalid r.

(** What holds of every report slot of a reachable registry. *)
Definition report_ok (r : Report) : Prop :=
  tally_core r /\ (length (validators r) <= 3)%nat /\
  (status r = Pending -> (length (validators r) < 3)%nat) /\ status r <> Expired.

Definition registry_ok (s : State) : Prop :=
  (forall rid, reportIds s < rid -> reports s !! rid = None) /\
  (forall rid, report_ok (get_report s rid)).

(** The counters of a validator record: no more correct validations than
    validations, none negative, and an active validator's reputation at
    least 1. *)
Definition val_ok (v : Validator) : Prop :=
  0 <= correctValidations v <= totalValidations v /\
  (isActive v = true -> 1 <= reputation v).

End Registry.

(** * ReputationSystem: the token staking ledger and reputation profiles *)
Module RepSys.

Definition MIN_STAKE_AMOUNT : Z := 100 * 10 ^ 18.
Definition MAX_STAKE_PERIOD : Z := 365 * 86400.
Definition MIN_STAKE_PERIOD : Z := 7 * 86400.
Definition SLASHING_PENALTY : Z := 10.
Definition REWARD_CLAIM_COOLDOWN : Z := 86400.
Definition MAX_STAKES_PER_USER : Z := 10.
Definition UINT256_MAX : Z := 2 ^ 256 - 1.
Definition INT256_MIN : Z := - 2 ^ 255.

Inductive StakeType := Report | Vote | Validator.
Inductive ReputationTier := Bronze | Silver | Gold | Platinum | Diamond.

Record Stake := mkStake {
  amount : Z;
  stake_timestamp : Z;                  (* [Stake.timestamp] *)
  lockPeriod : Z;
  stakeType : StakeType;
  active : bool;
  reputationMultiplier : Z
}.

Definition empty_stake : Stake := mkStake 0 0 0 Report false 0.

Record ReputationProfile := mkProfile {
  baseReputation : Z;
  stakedReputation : Z;
  totalReputation : Z;
  tier : ReputationTier;
  lastUpdate : Z;
  reportsSubmitted : Z;
  votesCast : Z;
  correctVotes : Z;
  falseReports : Z;
  slashingCount : Z
}.

Definition empty_profile : ReputationProfile :=
  mkProfile 0 0 0 Bronze 0 0 0 0 0 0.

(** [RewardPool] without its [tierMultipliers] mapping, which is only
    written by the constructor. *)
Record RewardPool := mkPool {
  totalRewards : Z;
  distributedRewards : Z;
  lastDistribution : Z;
  distributionInterval : Z
}.

(** Contract storage, plus the staking token's balances: [tokens] for the
    outside accounts and [held] for this contract. *)
Record State := mkState {
  reputationProfiles : gmap Z ReputationProfile;
  userStakes : gmap (Z * Z) Stake;      (* userStakes[user][stakeId] *)
  userStakeCount : gmap Z Z;
  stakeCounter : Z;
  tierThresholds : ReputationTier -> Z;
  stakeTypeMultipliers : StakeType -> Z;
  pendingRewards : gmap Z Z;
  lastRewardClaim : gmap Z Z;
  rewardPool : RewardPool;
  paused : bool;
  owner : Z;
  self : Z;                             (* [address(this)] *)
  tokens : gmap Z Z;
  held : Z
}.

Definition profile_of (s : State) (u : Z) : ReputationProfile :=
  default empty_profile (reputationProfiles s !! u).
Definition stake_of (s : State) (u i : Z) : Stake :=
  default empty_stake (userStakes s !! (u, i)).
Definition count_of (s : State) (u : Z) : Z := default 0 (userStakeCount s !! u).
Definition pending_of (s : State) (u : Z) : Z := default 0 (pendingRewards s !! u).
Definition lastclaim_of (s : State) (u : Z) : Z := default 0 (lastRewardClaim s !! u).
Definition tokens_of (s : State) (u : Z) : Z := default 0 (tokens s !! u).

Definition set_profile (s : State) (u : Z) (p : ReputationProfile) : State :=
  mkState (<[u := p]> (reputationProfiles s)) (userStakes s) (userStakeCount s)
    (stakeCounter s) (tierThresholds s) (stakeTypeMultipliers s)
    (pendingRewards s) (lastRewardClaim s) (rewardPool s) (paused s)
    (owner s) (self s) (tokens s) (held s).
Definition set_stake (s : State) (u i : Z) (st : Stake) : State :=
  mkState (reputationProfiles s) (<[(u, i) := st]> (userStakes s)) (userStakeCount s)
    (stakeCounter s) (tierThresholds s) (stakeTypeMultipliers s)
    (pendingRewards s) (lastRewardClaim s) (rewardPool s) (paused s)
    (owner s) (self s) (tokens s) (held s).
Definition set_count (s : State) (u n : Z) : State :=
  mkState (reputationProfiles s) (userStakes s) (<[u := n]> (userStakeCount s))
    (stakeCounter s) (tierThresholds s) (stakeTypeMultipliers s)
    (pendingRewards s) (lastRewardClaim s) (rewardPool s) (paused s)
    (owner s) (self s) (tokens s) (held s).
Definition set_stakeCounter (s : State) (n : Z) : State :=
  mkState (reputationProfiles s) (userStakes s) (userStakeCount s)
    n (tierThresholds s) (stakeTypeMultipliers s)
    (pendingRewards s) (lastRewardClaim s) (rewardPool s) (paused s)
    (owner s) (self s) (tokens s) (held s).
Definition set_tables (s : State) (th : ReputationTier -> Z)
    (sm : StakeType -> Z) : State :=
  mkState (reputationProfiles s) (userStakes s) (userStakeCount s)
    (stakeCounter s) th sm
    (pendingRewards s) (lastRewardClaim s) (rewardPool s) (paused s)
    (owner s) (self s) (tokens s) (held s).
Definition set_claims (s : State) (pr lc : gmap Z Z) : State :=
  mkState (reputationProfiles s) (userStakes s) (userStakeCount s)
    (stakeCounter s) (tierThresholds s) (stakeTypeMultipliers s)
    pr lc (rewardPool s) (paused s)
    (owner s) (self s) (tokens s) (held s).
Definition set_pool (s : State) (p : RewardPool) : State :=
  mkState (reputationProfiles s) (userStakes s) (userStakeCount s)
    (stakeCounter s) (tierThresholds s) (stakeTypeMultipliers s)
    (pendingRewards s) (lastRewardClaim s) p (paused s)
    (owner s) (self s) (tokens s) (held s).
Definition set_paused (s : State) (b : bool) : State :=
  mkState (reputationProfiles s) (userStakes s) (userStakeCount s)
    (stakeCounter s) (tierThresholds s) (stakeTypeMultipliers s)
    (pendingRewards s) (lastRewardClaim s) (rewardPool s) b
    (owner s) (self s) (tokens s) (held s).
Definition set_tokens (s : State) (t : gmap Z Z) (h : Z) : State :=
  mkState (reputationProfiles s) (userStakes s) (userStakeCount s)
    (stakeCounter s) (tierThresholds s) (stakeTypeMultipliers s)
    (pendingRewards s) (lastRewardClaim s) (rewardPool s) (paused s)
    (owner s) (self s) t h.

Definition add_rewards (p : RewardPool) (x : Z) : RewardPool :=
  mkPool (totalRewards p + x) (distributedRewards p) (lastDistribution p)
    (distributionInterval p).

(** [stakingToken.safeTransferFrom(user, address(this), amt)] (the
    allowance is taken as granted). *)
Definition safeTransferFrom (u amt : Z) (s : State) : option State :=
  require ((0 <=? amt) && (amt <=? tokens_of s u)) ;;
  Some (set_tokens s (<[u := tokens_of s u - amt]> (tokens s)) (held s + amt)).

(** [stakingToken.safeTransfer(u, amt)] *)
Definition safeTransfer (u amt : Z) (s : State) : option State :=
  require ((0 <=? amt) && (amt <=? held s)) ;;
  Some (set_tokens s (<[u := tokens_of s u + amt]> (tokens s)) (held s - amt)).

(** The loop of [_updateStakedReputation]: active amounts of
    [userStakes[user][1..userStakeCount[user]]], summed in order with the
    checked [totalStaked += stake.amount]. *)
Definition staked_loop (s : State) (u : Z) : option Z :=
  foldl (fun acc i => totalStaked ← acc;
           let st := stake_of s u (Z.of_nat i) in
           if active st then
             require (totalStaked + amount st <=? UINT256_MAX) ;;
             Some (totalStaked + amount st)
           else Some totalStaked)
    (Some 0) (seq 1 (Z.to_nat (count_of s u))).

(** [_updateStakedReputation]; [baseReputation + stakedReputation] is a
    checked addition. *)
Definition _updateStakedReputation (u : Z) (s : State) : option State :=
  totalStaked ← staked_loop s u;
  let p := profile_of s u in
  let staked := totalStaked / 10 ^ 18 in
  require (baseReputation p + staked <=? UINT256_MAX) ;;
  Some (set_profile s u
    (mkProfile (baseReputation p) staked (baseReputation p + staked) (tier p)
       (lastUpdate p) (reportsSubmitted p) (votesCast p) (correctVotes p)
       (falseReports p) (slashingCount p))).

Definition _calculateTier (s : State) (total : Z) : ReputationTier :=
  if tierThresholds s Diamond <=? total then Diamond
  else if tierThresholds s Platinum <=? total then Platinum
  else if tierThresholds s Gold <=? total then Gold
  else if tierThresholds s Silver <=? total then Silver
  else Bronze.

Definition onlyOwner (m : Msg) (s : State) : option unit :=
  require (sender m =? owner s).
Definition whenNotPaused (s : State) : option unit := require (negb (paused s)).

(** [depositStake] *)
Definition depositStake (m : Msg) (s : State) (amt lock : Z) (k : StakeType)
    : option State :=
  whenNotPaused s ;;
  require (10 <=? baseReputation (profile_of s (sender m))) ;;
  require (MIN_STAKE_AMOUNT <=? amt) ;;
  require ((MIN_STAKE_PERIOD <=? lock) && (lock <=? MAX_STAKE_PERIOD)) ;;
  require (count_of s (sender m) <? MAX_STAKES_PER_USER) ;;
  s1 ← safeTransferFrom (sender m) amt s;
  let i := stakeCounter s1 + 1 in
  let s2 := set_stake (set_stakeCounter s1 i) (sender m) i
              (mkStake amt (now m) lock k true (stakeTypeMultipliers s1 k)) in
  let s3 := set_count s2 (sender m) (count_of s2 (sender m) + 1) in
  _updateStakedReputation (sender m) s3.

(** The penalty and the amount paid out by [withdrawStake]. *)
Definition withdraw_split (now : Z) (st : Stake) : Z * Z :=
  if now <? stake_timestamp st + lockPeriod st then
    let penalty := amount st * SLASHING_PENALTY / 100 in
    (penalty, amount st - penalty)
  else (0, amount st).

Definition deactivate (st : Stake) : Stake :=
  mkStake (amount st) (stake_timestamp st) (lockPeriod st) (stakeType st) false
    (reputationMultiplier st).

(** [withdrawStake], with [onlyStakeOwner] and [onlyActiveStake]. *)
Definition withdrawStake (m : Msg) (s : State) (i : Z) : option State :=
  whenNotPaused s ;;
  let u := sender m in
  let st := stake_of s u i in
  require (0 <? amount st) ;;
  require (active st) ;;
  let '(penalty, withdrawAmount) := withdraw_split (now m) st in
  require (1 <=? count_of s u) ;;                     (* checked [-= 1] *)
  let s1 := set_count (set_stake s u i (deactivate st)) u (count_of s u - 1) in
  s2 ← _updateStakedReputation u s1;
  s3 ← safeTransfer u withdrawAmount s2;
  Some (if 0 <? penalty then set_pool s3 (add_rewards (rewardPool s3) penalty)
        else s3).

(** [updateReputation]; [change] is an [int256]. *)
Definition updateReputation (m : Msg) (s : State) (u change : Z)
    (isCorrectVote : bool) : option State :=
  require ((sender m =? owner s) || (sender m =? self s)) ;;
  let p0 := profile_of s u in
  let p1 := if baseReputation p0 =? 0 then
              mkProfile 10 (stakedReputation p0) (totalReputation p0) Bronze
                (now m) (reportsSubmitted p0) (votesCast p0) (correctVotes p0)
                (falseReports p0) (slashingCount p0)
            else p0 in
  p2 ← (if 0 <? change then
          require (baseReputation p1 + change <=? UINT256_MAX) ;;
          Some (mkProfile (baseReputation p1 + change) (stakedReputation p1)
                  (totalReputation p1) (tier p1) (lastUpdate p1)
                  (reportsSubmitted p1) (votesCast p1)
                  (if isCorrectVote then correctVotes p1 + 1 else correctVotes p1)
                  (falseReports p1) (slashingCount p1))
        else
          require (negb (change =? INT256_MIN)) ;;    (* checked [-change] *)
          let decrease := - change in
          Some (mkProfile
                  (if decrease <=? baseReputation p1
                   then baseReputation p1 - decrease else 0)
                  (stakedReputation p1) (totalReputation p1) (tier p1)
                  (lastUpdate p1) (reportsSubmitted p1) (votesCast p1)
                  (correctVotes p1)
                  (if isCorrectVote then falseReports p1 else falseReports p1 + 1)
                  (slashingCount p1)));
  s1 ← _updateStakedReputation u (set_profile s u p2);
  let p3 := profile_of s1 u in
  Some (set_profile s1 u
          (mkProfile (baseReputation p3) (stakedReputation p3) (totalReputation p3)
             (_calculateTier s1 (totalReputation p3)) (lastUpdate p3)
             (reportsSubmitted p3) (votesCast p3) (correctVotes p3)
             (falseReports p3) (slashingCount p3))).

(** [slashUser] *)
Definition slashUser (m : Msg) (s : State) (u i : Z) : option State :=
  onlyOwner m s ;;
  let st := stake_of s u i in
  require (0 <? amount st) ;;
  require (active st) ;;
  let slashAmount := amount st * SLASHING_PENALTY / 100 in
  let s1 := set_stake s u i
              (mkStake (amount st - slashAmount) (stake_timestamp st) (lockPeriod st)
                 (stakeType st) (active st) (reputationMultiplier st)) in
  let p := profile_of s1 u in
  let s2 := set_profile s1 u
              (mkProfile (baseReputation p) (stakedReputation p) (totalReputation p)
                 (tier p) (lastUpdate p) (reportsSubmitted p) (votesCast p)
                 (correctVotes p) (falseReports p) (slashingCount p + 1)) in
  s3 ← _updateStakedReputation u s2;
  Some (set_pool s3 (add_rewards (rewardPool s3) slashAmount)).

(** [distributeRewards]: distributes nothing ([totalDistributed = 0]). *)
Definition distributeRewards (m : Msg) (s : State) : option State :=
  onlyOwner m s ;;
  let p := rewardPool s in
  require (lastDistribution p + distributionInterval p <=? now m) ;;
  Some (set_pool s (mkPool (totalRewards p) (distributedRewards p + 0) (now m)
                      (distributionInterval p))).

(** [claimRewards] *)
Definition claimRewards (m : Msg) (s : State) : option State :=
  whenNotPaused s ;;
  let u := sender m in
  require (lastclaim_of s u + REWARD_CLAIM_COOLDOWN <=? now m) ;;
  let rewards := pending_of s u in
  require (0 <? rewards) ;;
  let s1 := set_claims s (<[u := 0]> (pendingRewards s))
              (<[u := now m]> (lastRewardClaim s)) in
  safeTransfer u rewards s1.

Definition pause (m : Msg) (s : State) : option State :=
  onlyOwner m s ;; whenNotPaused s ;; Some (set_paused s true).
Definition unpause (m : Msg) (s : State) : option State :=
  onlyOwner m s ;; require (paused s) ;; Some (set_paused s false).

Definition tier_eqb (a b : ReputationTier) : bool :=
  match a, b with
  | Bronze, Bronze | Silver, Silver | Gold, Gold
  | Platinum, Platinum | Diamond, Diamond => true
  | _, _ => false
  end.
Definition type_eqb (a b : StakeType) : bool :=
  match a, b with
  | Report, Report | Vote, Vote | Validator, Validator => true
  | _, _ => false
  end.

Definition updateTierThreshold (m : Msg) (s : State) (t : ReputationTier) (x : Z)
    : option State :=
  onlyOwner m s ;;
  Some (set_tables s (fun t' => if tier_eqb t t' then x else tierThresholds s t')
          (stakeTypeMultipliers s)).
Definition updateStakeTypeMultiplier (m : Msg) (s : State) (k : StakeType) (x : Z)
    : option State :=
  onlyOwner m s ;;
  Some (set_tables s (tierThresholds s)
          (fun k' => if type_eqb k k' then x else stakeTypeMultipliers s k')).

(** The constructor's tables and the freshly deployed contract. *)
Definition init_thresholds (t : ReputationTier) : Z :=
  match t with
  | Bronze => 0 | Silver => 50 | Gold => 100 | Platinum => 250 | Diamond => 500
  end.
Definition init_type_multipliers (k : StakeType) : Z :=
  match k with Report => 150 | Vote => 120 | Validator => 200 end.
Definition init (o this : Z) (t : gmap Z Z) : State :=
  mkState ∅ ∅ ∅ 0 init_thresholds init_type_multipliers ∅ ∅
    (mkPool 0 0 0 (7 * 86400)) false o this t 0.

Inductive Op :=
  | DepositStake (amt lock : Z) (k : StakeType)
  | WithdrawStake (i : Z)
  | UpdateReputation (u change : Z) (isCorrectVote : bool)
  | SlashUser (u i : Z)
  | DistributeRewards
  | ClaimRewards
  | Pause
  | Unpause
  | UpdateTierThreshold (t : ReputationTier) (x : Z)
  | UpdateTierMultiplier (t : ReputationTier) (x : Z)
  | UpdateStakeTypeMultiplier (k : StakeType) (x : Z).

(** [updateTierMultiplier] writes a table that no modelled operation reads. *)
Definition exec (op : Op) (m : Msg) (s : State) : option State :=
  match op with
  | DepositStake a l k => depositStake m s a l k
  | WithdrawStake i => withdrawStake m s i
  | UpdateReputation u c b => updateReputation m s u c b
  | SlashUser u i => slashUser m s u i
  | DistributeRewards => distributeRewards m s
  | ClaimRewards => claimRewards m s
  | Pause => pause m s
  | Unpause => unpause m s
  | UpdateTierThreshold t x => updateTierThreshold m s t x
  | UpdateTierMultiplier _ _ => onlyOwner m s ;; Some s
  | UpdateStakeTypeMultiplier k x => updateStakeTypeMultiplier m s k x
  end.

(** The value the ledger accounts for: outside token balances, active stakes,
    the reward pool and the rewards accrued but not yet claimed. *)
Definition active_total (s : State) : Z :=
  map_sumZ (fun st => if active st then amount st else 0) (userStakes s).
Definition value_total (s : State) : Z :=
  map_sumZ (fun x => x) (tokens s) + active_total s
  + totalRewards (rewardPool s) + map_sumZ (fun x => x) (pendingRewards s).

Inductive reachable : State -> Prop :=
  | reachable_init o this t : reachable (init o this t)
  | reachable_step s op m s' :
      reachable s -> exec op m s = Some s' -> reachable s'.

(** Stake ids come from the global [stakeCounter]: no slot above it is used. *)
Definition stakes_fresh (s : State) : Prop :=
  forall u j, stakeCounter s < j -> userStakes s !! (u, j) = None.

(** No reward is pending, and each user's stake count is within
    [0, MAX_STAKES_PER_USER]. *)
Definition ledger_ok (s : State) : Prop :=
  (forall u, pending_of s u = 0) /\
  (forall u, 0 <= count_of s u <= MAX_STAKES_PER_USER).

End RepSys.

(** * EvidenceValidator *)
Module Evidence.

Definition MIN_VALIDATION_REPUTATION : Z := 50.
Definition MAX_FILE_SIZE : Z := 10 * 1024 * 1024.
Definition MIN_VALIDATIONS_REQUIRED : Z := 3.
Definition VALIDATION_TIMEOUT : Z := 7 * 86400.
Definition IPFS_HASH_LENGTH : nat := 46.
Definition REPUTATION_REWARD_VALIDATION : Z := 2.
Definition UINT256_MAX : Z := 2 ^ 256 - 1.

Inductive EvidenceStatus := Pending | Validated | Rejected | UnderReview.
Inductive EvidenceType := Screenshot | Document | URL | Wallet | Metadata.
Inductive ValidationLevel := Basic | Standard | Advanced | Expert.

#[global] Instance EvidenceStatus_eq_dec : EqDecision EvidenceStatus.
Proof. solve_decision. Defined.

Record Evidence := mkEvidence {
  evidenceId : Z;
  submitter : Z;
  ipfsHash : string;
  evidenceType : EvidenceType;
  status : EvidenceStatus;
  validationLevel : ValidationLevel;
  timestamp : Z;
  fileSize : Z;
  mimeType : string;
  originalUrl : string;
  description : string;
  exists_ : bool;                        (* [exists] *)
  validators : gmap Z bool;
  validationCount : Z;
  positiveValidations : Z;
  negativeValidations : Z
}.

Definition empty_evidence : Evidence :=
  mkEvidence 0 0 "" Screenshot Pending Basic 0 0 "" "" "" false ∅ 0 0 0.

Record ValidationResult := mkResult {
  validator : Z;
  isValid : bool;
  reason : string;
  result_timestamp : Z;
  level : ValidationLevel
}.

(** Storage used by submission and validation; the IPFS metadata, content
    analysis, pattern and domain tables are administrative side tables. *)
Record State := mkState {
  evidence : gmap Z Evidence;
  validationResults : gmap Z (list ValidationResult);
  validatorReputation : gmap Z Z;
  authorizedValidators : gmap Z bool;
  knownIPFSHashes : gmap string bool;
  allEvidenceIds : list Z;
  paused : bool;
  owner : Z
}.

Definition get_evidence (s : State) (e : Z) : Evidence :=
  default empty_evidence (evidence s !! e).
Definition reputation_of (s : State) (v : Z) : Z :=
  default 0 (validatorReputation s !! v).
Definition authorized (s : State) (v : Z) : bool :=
  default false (authorizedValidators s !! v).
Definition results_of (s : State) (e : Z) : list ValidationResult :=
  default [] (validationResults s !! e).

Definition set_evidence (s : State) (e : Z) (ev : Evidence) : State :=
  mkState (<[e := ev]> (evidence s)) (validationResults s) (validatorReputation s)
    (authorizedValidators s) (knownIPFSHashes s) (allEvidenceIds s) (paused s)
    (owner s).

Definition with_status (ev : Evidence) (st : EvidenceStatus) : Evidence :=
  mkEvidence (evidenceId ev) (submitter ev) (ipfsHash ev) (evidenceType ev) st
    (validationLevel ev) (timestamp ev) (fileSize ev) (mimeType ev)
    (originalUrl ev) (description ev) (exists_ ev) (validators ev)
    (validationCount ev) (positiveValidations ev) (negativeValidations ev).

(** The constructor: the owner is an authorized validator of reputation 100. *)
Definition init (o : Z) : State :=
  mkState ∅ ∅ {[o := 100]} {[o := true]} ∅ [] false o.

(** [authorizeValidator] (only owner). *)
Definition authorizeValidator (m : Msg) (s : State) (v rep : Z) : option State :=
  require (sender m =? owner s) ;;
  require (negb (v =? 0)) ;;
  require (negb (authorized s v)) ;;
  Some (mkState (evidence s) (validationResults s)
          (<[v := rep]> (validatorReputation s))
          (<[v := true]> (authorizedValidators s)) (knownIPFSHashes s)
          (allEvidenceIds s) (paused s) (owner s)).

(** [submitEvidence]; [eid] is the [keccak256] id the contract computes
    from the call. *)
Definition submitEvidence (m : Msg) (s : State) (eid : Z) (h : string)
    (t : EvidenceType) (size : Z) (mime url descr : string) : option State :=
  require (negb (paused s)) ;;
  require (String.length h =? IPFS_HASH_LENGTH)%nat ;;
  require (size <=? MAX_FILE_SIZE) ;;
  require (0 <? size) ;;
  require (nonempty mime) ;;
  require (nonempty descr) ;;
  require (negb (default false (knownIPFSHashes s !! h))) ;;
  let old := get_evidence s eid in
  let ev := mkEvidence eid (sender m) h t Pending Basic (now m) size mime url
              descr true (validators old) 0 0 0 in
  Some (mkState (<[eid := ev]> (evidence s)) (validationResults s)
          (validatorReputation s) (authorizedValidators s)
          (<[h := true]> (knownIPFSHashes s)) (allEvidenceIds s ++ [eid])
          (paused s) (owner s)).

(** [_finalizeValidation] *)
Definition _finalizeValidation (e : Z) (s : State) : State :=
  let ev := get_evidence s e in
  if negativeValidations ev <? positiveValidations ev
  then set_evidence s e (with_status ev Validated)
  else set_evidence s e (with_status ev Rejected).

(** [validateEvidence], with [onlyAuthorizedValidator],
    [onlyExistingEvidence] and [onlyPendingEvidence]. *)
Definition validateEvidence (m : Msg) (s : State) (e : Z) (valid : bool)
    (why : string) (lvl : ValidationLevel) : option State :=
  require (negb (paused s)) ;;
  require (authorized s (sender m)) ;;
  require (MIN_VALIDATION_REPUTATION <=? reputation_of s (sender m)) ;;
  let ev := get_evidence s e in
  require (exists_ ev) ;;
  require (bool_decide (status ev = Pending \/ status ev = UnderReview)) ;;
  require (nonempty why) ;;
  require (negb (default false (validators ev !! sender m))) ;;
  require (now m <=? timestamp ev + VALIDATION_TIMEOUT) ;;
  (* the checked [validatorReputation[msg.sender] += REPUTATION_REWARD_VALIDATION] *)
  require (negb valid || (reputation_of s (sender m) + REPUTATION_REWARD_VALIDATION
                          <=? UINT256_MAX)) ;;
  let ev1 := mkEvidence (evidenceId ev) (submitter ev) (ipfsHash ev)
               (evidenceType ev) (status ev) (validationLevel ev) (timestamp ev)
               (fileSize ev) (mimeType ev) (originalUrl ev) (description ev)
               (exists_ ev) (<[sender m := true]> (validators ev))
               (validationCount ev + 1)
               (if valid then positiveValidations ev + 1 else positiveValidations ev)
               (if valid then negativeValidations ev else negativeValidations ev + 1) in
  let res := mkResult (sender m) valid why (now m) lvl in
  let s1 := mkState (<[e := ev1]> (evidence s))
              (<[e := results_of s e ++ [res]]> (validationResults s))
              (if valid
               then <[sender m := reputation_of s (sender m)
                                  + REPUTATION_REWARD_VALIDATION]>
                      (validatorReputation s)
               else validatorReputation s)
              (authorizedValidators s) (knownIPFSHashes s) (allEvidenceIds s)
              (paused s) (owner s) in
  if MIN_VALIDATIONS_REQUIRED <=? validationCount ev1
  then Some (_finalizeValidation e s1) else Some s1.

(** [emergencyUpdateEvidenceStatus] (only owner). *)
Definition emergencyUpdateEvidenceStatus (m : Msg) (s : State) (e : Z)
    (st : EvidenceStatus) : option State :=
  require (sender m =? owner s) ;;
  let ev := get_evidence s e in
  require (exists_ ev) ;;
  Some (set_evidence s e (with_status ev st)).

End Evidence.

(** * PhishBlockRegistry: the reputation-gated report submission *)
Module PBRegistry.

Definition MIN_REPUTATION_TO_REPORT : Z := 5.
Definition RATE_LIMIT_WINDOW : Z := 3600.
Definition MAX_SUBMISSIONS_PER_WINDOW : Z := 5.

(** The storage read and written by [submitReport]; a report is kept as its
    reporter and targets. *)
Record State := mkState {
  reports : gmap Z (Z * string * string);
  userReputation : gmap Z Z;
  lastSubmissionTime : gmap Z Z;
  submissionCount : gmap Z Z;
  urlBlacklist : gmap string bool;
  walletBlacklist : gmap string bool;
  reportCounter : Z;
  paused : bool
}.

Definition rep_of (s : State) (u : Z) : Z := default 0 (userReputation s !! u).
Definition last_of (s : State) (u : Z) : Z := default 0 (lastSubmissionTime s !! u).
Definition count_of (s : State) (u : Z) : Z := default 0 (submissionCount s !! u).

(** [submitReport], with [whenNotPaused], [onlyValidReporter] and
    [rateLimited]; [rid] is the [keccak256] id the contract computes. *)
Definition submitReport (m : Msg) (s : State) (rid : Z)
    (url wallet descr ipfs : string) : option State :=
  require (negb (paused s)) ;;
  require (MIN_REPUTATION_TO_REPORT <=? rep_of s (sender m)) ;;
  (* [block.timestamp - lastSubmissionTime[msg.sender]] reverts below zero *)
  require (last_of s (sender m) <=? now m) ;;
  let passed := RATE_LIMIT_WINDOW <=? now m - last_of s (sender m) in
  require (passed || (count_of s (sender m) <? MAX_SUBMISSIONS_PER_WINDOW)) ;;
  require (nonempty url || nonempty wallet) ;;
  require (nonempty descr) ;;
  require (nonempty ipfs) ;;
  require (negb (nonempty url) || negb (default false (urlBlacklist s !! url))) ;;
  require (negb (nonempty wallet)
           || negb (default false (walletBlacklist s !! wallet))) ;;
  (* the second evaluation of the window test reads the same storage *)
  let c := if passed then 1 else count_of s (sender m) + 1 in
  Some (mkState (<[rid := (sender m, url, wallet)]> (reports s)) (userReputation s)
          (<[sender m := now m]> (lastSubmissionTime s))
          (<[sender m := c]> (submissionCount s))
          (urlBlacklist s) (walletBlacklist s) (reportCounter s + 1) (paused s)).

End PBRegistry.

(** * PhishBlockRegistry: voting, disputes, report status, blacklists and
    reputation, around the submission of [PBRegistry] *)
Module PhishBlock.

Definition MIN_REPUTATION_TO_VOTE : Z := 10.
Definition VOTE_TIMEOUT : Z := 7 * 86400.
Definition DISPUTE_TIMEOUT : Z := 14 * 86400.
Definition REPUTATION_REWARD_REPORT : Z := 2.
Definition REPUTATION_PENALTY_FALSE_REPORT : Z := 5.
Definition UINT256_MAX : Z := 2 ^ 256 - 1.
Definition INT256_MIN : Z := - 2 ^ 255.
Definition INT256_MAX : Z := 2 ^ 255 - 1.

Inductive ReportStatus := Pending | Verified | Disputed | Resolved.
Inductive EvidenceType := URL | Wallet | Screenshot | Document.

#[global] Instance PBReportStatus_eq_dec : EqDecision ReportStatus.
Proof. solve_decision. Defined.

(** The fields of [Report] that [PBRegistry.State] does not keep: the
    reporter and the targets are in [PBRegistry.reports], and [exists] holds
    exactly for the ids present there. *)
Record Details := mkDetails {
  description : string;
  ipfsHash : string;
  evidenceType : EvidenceType;
  status : ReportStatus;
  timestamp : Z;
  upvotes : Z;
  downvotes : Z;
  disputeCount : Z
}.

Definition empty_details : Details := mkDetails "" "" URL Pending 0 0 0 0.

Record Vote := mkVote {
  hasVoted : bool;
  isUpvote : bool;
  vote_timestamp : Z;                   (* [Vote.timestamp] *)
  reputationWeight : Z
}.

Definition empty_vote : Vote := mkVote false false 0 0.

Record Dispute := mkDispute {
  disputer : Z;
  reason : string;
  dispute_timestamp : Z;                (* [Dispute.timestamp] *)
  resolved : bool
}.

Record State := mkState {
  base : PBRegistry.State;
  details : gmap Z Details;
  votes : gmap Z (gmap Z Vote);         (* votes[reportId][voter] *)
  disputes : gmap Z (list Dispute);
  owner : Z
}.

Definition exists_ (s : State) (rid : Z) : bool :=
  match PBRegistry.reports (base s) !! rid with Some _ => true | None => false end.
Definition reporter_of (s : State) (rid : Z) : Z :=
  match PBRegistry.reports (base s) !! rid with Some (r, _, _) => r | None => 0 end.
Definition details_of (s : State) (rid : Z) : Details :=
  default empty_details (details s !! rid).
Definition votes_of (s : State) (rid : Z) : gmap Z Vote := default ∅ (votes s !! rid).
Definition vote_of (s : State) (rid v : Z) : Vote :=
  default empty_vote (votes_of s rid !! v).
Definition disputes_of (s : State) (rid : Z) : list Dispute :=
  default [] (disputes s !! rid).
Definition rep_of (s : State) (u : Z) : Z := PBRegistry.rep_of (base s) u.
Definition paused (s : State) : bool := PBRegistry.paused (base s).
(** [isUrlBlacklisted] and [isWalletBlacklisted] *)
Definition isUrlBlacklisted (s : State) (url : string) : bool :=
  default false (PBRegistry.urlBlacklist (base s) !! url).
Definition isWalletBlacklisted (s : State) (w : string) : bool :=
  default false (PBRegistry.walletBlacklist (base s) !! w).

Definition set_base (s : State) (b : PBRegistry.State) : State :=
  mkState b (details s) (votes s) (disputes s) (owner s).
Definition set_details (s : State) (rid : Z) (d : Details) : State :=
  mkState (base s) (<[rid := d]> (details s)) (votes s) (disputes s) (owner s).
Definition set_vote (s : State) (rid v : Z) (vt : Vote) : State :=
  mkState (base s) (details s) (<[rid := <[v := vt]> (votes_of s rid)]> (votes s))
    (disputes s) (owner s).

Definition set_reputation (b : PBRegistry.State) (rep : gmap Z Z) : PBRegistry.State :=
  PBRegistry.mkState (PBRegistry.reports b) rep (PBRegistry.lastSubmissionTime b)
    (PBRegistry.submissionCount b) (PBRegistry.urlBlacklist b)
    (PBRegistry.walletBlacklist b) (PBRegistry.reportCounter b) (PBRegistry.paused b).
Definition set_blacklists (b : PBRegistry.State) (urls wallets : gmap string bool)
    : PBRegistry.State :=
  PBRegistry.mkState (PBRegistry.reports b) (PBRegistry.userReputation b)
    (PBRegistry.lastSubmissionTime b) (PBRegistry.submissionCount b) urls wallets
    (PBRegistry.reportCounter b) (PBRegistry.paused b).
Definition set_paused (b : PBRegistry.State) (p : bool) : PBRegistry.State :=
  PBRegistry.mkState (PBRegistry.reports b) (PBRegistry.userReputation b)
    (PBRegistry.lastSubmissionTime b) (PBRegistry.submissionCount b)
    (PBRegistry.urlBlacklist b) (PBRegistry.walletBlacklist b)
    (PBRegistry.reportCounter b) p.

Definition set_rep (s : State) (u r : Z) : State :=
  set_base s (set_reputation (base s) (<[u := r]> (PBRegistry.userReputation (base s)))).

Definition with_tally (d : Details) (up down : Z) : Details :=
  mkDetails (description d) (ipfsHash d) (evidenceType d) (status d) (timestamp d)
    up down (disputeCount d).
Definition with_status (d : Details) (st : ReportStatus) : Details :=
  mkDetails (description d) (ipfsHash d) (evidenceType d) st (timestamp d)
    (upvotes d) (downvotes d) (disputeCount d).
Definition with_disputeCount (d : Details) (n : Z) : Details :=
  mkDetails (description d) (ipfsHash d) (evidenceType d) (status d) (timestamp d)
    (upvotes d) (downvotes d) n.

(** Checked [uint256] addition and subtraction. *)
Definition add256 (a b : Z) : option Z := require (a + b <=? UINT256_MAX) ;; Some (a + b).
Definition sub256 (a b : Z) : option Z := require (b <=? a) ;; Some (a - b).

(** [int256(a) - int256(b)] for [uint256] values: the explicit conversions
    wrap, the subtraction is checked. *)
Definition to_int256 (x : Z) : Z := if x <=? INT256_MAX then x else x - 2 ^ 256.
Definition int256_sub (a b : Z) : option Z :=
  let d := to_int256 a - to_int256 b in
  require ((INT256_MIN <=? d) && (d <=? INT256_MAX)) ;; Some d.

(** [_updateReputation]; [change] is an [int256]. *)
Definition _updateReputation (u change : Z) (s : State) : option State :=
  let currentReputation := rep_of s u in
  r ← (if 0 <? change then add256 currentReputation change
       else
         let decrease := - change in
         Some (if decrease <=? currentReputation
               then currentReputation - decrease else 0));
  Some (set_rep s u r).

(** [submitReport]: the checks and the bookkeeping of
    [PBRegistry.submitReport], and the rest of the [Report] record. *)
Definition submitReport (m : Msg) (s : State) (rid : Z)
    (url wallet descr ipfs : string) (t : EvidenceType) : option State :=
  b ← PBRegistry.submitReport m (base s) rid url wallet descr ipfs;
  Some (mkState b (<[rid := mkDetails descr ipfs t Pending (now m) 0 0 0]> (details s))
          (votes s) (disputes s) (owner s)).

(** [vote], with [whenNotPaused], [onlyValidVoter], [onlyExistingReport]
    and [onlyActiveReport]; the [VoteCast] event computes the score
    [int256(upvotes) - int256(downvotes)]. *)
Definition vote (m : Msg) (s : State) (rid : Z) (isUp : bool) : option State :=
  require (negb (paused s)) ;;
  require (MIN_REPUTATION_TO_VOTE <=? rep_of s (sender m)) ;;
  require (exists_ s rid) ;;
  let d := details_of s rid in
  require (bool_decide (status d = Pending \/ status d = Verified)) ;;
  require (now m <=? timestamp d + VOTE_TIMEOUT) ;;
  let w := rep_of s (sender m) in
  let uv := vote_of s rid (sender m) in
  if hasVoted uv then
    if Bool.eqb (isUpvote uv) isUp then Some s
    else
      d1 ← (if isUpvote uv
            then up ← sub256 (upvotes d) (reputationWeight uv);
                 Some (with_tally d up (downvotes d))
            else dn ← sub256 (downvotes d) (reputationWeight uv);
                 Some (with_tally d (upvotes d) dn));
      d2 ← (if isUp
            then up ← add256 (upvotes d1) w; Some (with_tally d1 up (downvotes d1))
            else dn ← add256 (downvotes d1) w; Some (with_tally d1 (upvotes d1) dn));
      int256_sub (upvotes d2) (downvotes d2) ;;
      Some (set_vote (set_details s rid d2) rid (sender m)
              (mkVote true isUp (vote_timestamp uv) w))
  else
    d1 ← (if isUp
          then up ← add256 (upvotes d) w; Some (with_tally d up (downvotes d))
          else dn ← add256 (downvotes d) w; Some (with_tally d (upvotes d) dn));
    int256_sub (upvotes d1) (downvotes d1) ;;
    Some (set_vote (set_details s rid d1) rid (sender m) (mkVote true isUp (now m) w)).

(** [raiseDispute], with [whenNotPaused], [onlyValidVoter] and
    [onlyExistingReport]. *)
Definition raiseDispute (m : Msg) (s : State) (rid : Z) (why : string)
    : option State :=
  require (negb (paused s)) ;;
  require (MIN_REPUTATION_TO_VOTE <=? rep_of s (sender m)) ;;
  require (exists_ s rid) ;;
  require (nonempty why) ;;
  require (negb (sender m =? reporter_of s rid)) ;;
  let d := details_of s rid in
  require (now m <=? timestamp d + DISPUTE_TIMEOUT) ;;
  n ← add256 (disputeCount d) 1;
  Some (mkState (base s) (<[rid := with_disputeCount d n]> (details s)) (votes s)
          (<[rid := disputes_of s rid ++ [mkDispute (sender m) why (now m) false]]>
             (disputes s))
          (owner s)).

(** [updateReportStatus] (only owner, [onlyExistingReport]). *)
Definition updateReportStatus (m : Msg) (s : State) (rid : Z) (st : ReportStatus)
    : option State :=
  require (sender m =? owner s) ;;
  require (exists_ s rid) ;;
  let s1 := set_details s rid (with_status (details_of s rid) st) in
  match st with
  | Verified => _updateReputation (reporter_of s1 rid) REPUTATION_REWARD_REPORT s1
  | Disputed =>
      _updateReputation (reporter_of s1 rid) (- REPUTATION_PENALTY_FALSE_REPORT) s1
  | _ => Some s1
  end.

(** [urlBlacklist[target] = b] or [walletBlacklist[target] = b]. *)
Definition set_listed (s : State) (target : string) (isUrl b : bool) : State :=
  let bs := base s in
  set_base s (if isUrl
              then set_blacklists bs (<[target := b]> (PBRegistry.urlBlacklist bs))
                     (PBRegistry.walletBlacklist bs)
              else set_blacklists bs (PBRegistry.urlBlacklist bs)
                     (<[target := b]> (PBRegistry.walletBlacklist bs))).

(** [addToBlacklist] and [removeFromBlacklist] (only owner). *)
Definition addToBlacklist (m : Msg) (s : State) (target : string) (isUrl : bool)
    : option State :=
  require (sender m =? owner s) ;;
  require (nonempty target) ;;
  Some (set_listed s target isUrl true).
Definition removeFromBlacklist (m : Msg) (s : State) (target : string) (isUrl : bool)
    : option State :=
  require (sender m =? owner s) ;;
  require (nonempty target) ;;
  Some (set_listed s target isUrl false).

(** [pause] and [unpause] (only owner; OpenZeppelin's [_pause] requires the
    contract not paused, [_unpause] requires it paused). *)
Definition pause (m : Msg) (s : State) : option State :=
  require (sender m =? owner s) ;;
  require (negb (paused s)) ;;
  Some (set_base s (set_paused (base s) true)).
Definition unpause (m : Msg) (s : State) : option State :=
  require (sender m =? owner s) ;;
  require (paused s) ;;
  Some (set_base s (set_paused (base s) false)).

(** [emergencyUpdateReputation] (only owner); its event computes
    [int256(newReputation) - int256(oldReputation)]. *)
Definition emergencyUpdateReputation (m : Msg) (s : State) (u r : Z) : option State :=
  require (sender m =? owner s) ;;
  int256_sub r (rep_of s u) ;;
  Some (set_rep s u r).

(** The constructor: the owner starts with reputation 100. *)
Definition init (o : Z) : State :=
  mkState (PBRegistry.mkState ∅ {[o := 100]} ∅ ∅ ∅ ∅ 0 false) ∅ ∅ ∅ o.

Inductive Op :=
  | SubmitReport (rid : Z) (url wallet descr ipfs : string) (t : EvidenceType)
  | Vote_ (rid : Z) (isUp : bool)                 (* [vote] *)
  | RaiseDispute (rid : Z) (why : string)
  | UpdateReportStatus (rid : Z) (st : ReportStatus)
  | AddToBlacklist (target : string) (isUrl : bool)
  | RemoveFromBlacklist (target : string) (isUrl : bool)
  | Pause
  | Unpause
  | EmergencyUpdateReputation (u r : Z).

(** No entry point is payable: a call that sends ETH reverts. *)
Definition exec (op : Op) (m : Msg) (s : State) : option State :=
  require (value m =? 0) ;;
  match op with
  | SubmitReport rid url w d h t => submitReport m s rid url w d h t
  | Vote_ rid b => vote m s rid b
  | RaiseDispute rid why => raiseDispute m s rid why
  | UpdateReportStatus rid st => updateReportStatus m s rid st
  | AddToBlacklist x b => addToBlacklist m s x b
  | RemoveFromBlacklist x b => removeFromBlacklist m s x b
  | Pause => pause m s
  | Unpause => unpause m s
  | EmergencyUpdateReputation u r => emergencyUpdateReputation m s u r
  end.

(** A submission's [keccak256] id names no report yet: the hash is taken to
    be collision-free. *)
Definition fresh_id (op : Op) (s : State) : Prop :=
  match op with
  | SubmitReport rid _ _ _ _ _ => PBRegistry.reports (base s) !! rid = None
  | _ => True
  end.

Inductive reachable : State -> Prop :=
  | reachable_init o : reachable (init o)
  | reachable_step s op m s' :
      reachable s -> fresh_id op s -> exec op m s = Some s' -> reachable s'.

(** The score a vote contributes to one side of a report: its weight when it
    is a cast vote on that side. *)
Definition weight_on (up : bool) (vt : Vote) : Z :=
  if hasVoted vt && Bool.eqb (isUpvote vt) up then reputationWeight vt else 0.

(** What every reachable registry keeps: the slots of an id that names no
    report are untouched, and each report's counters agree with its votes
    and its disputes. *)
Definition pb_ok (s : State) : Prop :=
  (forall rid, exists_ s rid = false ->
     details s !! rid = None /\ votes s !! rid = None /\ disputes s !! rid = None) /\
  (forall rid,
     upvotes (details_of s rid) = map_sumZ (weight_on true) (votes_of s rid) /\
     downvotes (details_of s rid) = map_sumZ (weight_on false) (votes_of s rid) /\
     disputeCount (details_of s rid) = Z.of_nat (length (disputes_of s rid))).

(** A sequence of calls, each on the state the previous one left. *)
Definition run (ops : list (Op * Msg)) (s : State) : option State :=
  foldl (fun acc om => s1 ← acc; exec om.1 om.2 s1) (Some s) ops.

(** The [block.timestamp]s of the calls to [submitReport] made by [u] in
    [ops], in order. *)
Fixpoint submit_times (u : Z) (ops : list (Op * Msg)) : list Z :=
  match ops with
  | [] => []
  | (SubmitReport _ _ _ _ _ _, m) :: ops' =>
      if sender m =? u then now m :: submit_times u ops' else submit_times u ops'
  | _ :: ops' => submit_times u ops'
  end.

(** The rate-limit bookkeeping of [u]: the time of its last submission and
    its submission count in the current window. *)
Definition last_u (s : State) (u : Z) : Z := PBRegistry.last_of (base s) u.
Definition count_u (s : State) (u : Z) : Z := PBRegistry.count_of (base s) u.

(** Any six consecutive entries of [ts] span at least the window. *)
Definition spaced (ts : list Z) : Prop :=
  forall i a b, ts !! i = Some a -> ts !! (i + 5)%nat = Some b ->
    PBRegistry.RATE_LIMIT_WINDOW <= b - a.

(** The submission times [hist] of [u] against the rate-limit storage: all
    of them at or before the last one, the submissions inside the current
    window counted, and any six of them a window apart. *)
Definition rate_inv (s : State) (u : Z) (hist : list Z) : Prop :=
  0 <= count_u s u /\
  (forall a, a ∈ hist -> a <= last_u s u) /\
  (forall i a, hist !! i = Some a -> last_u s u - a < PBRegistry.RATE_LIMIT_WINDOW ->
     Z.of_nat (length hist) - Z.of_nat i <= count_u s u) /\
  spaced hist.

End PhishBlock.

(** * EvidenceValidator: the validator list and the administrative tables
    around the submission and validation of [Evidence] *)
Module EvidenceAdmin.

Record IPFSMetadata := mkMetadata {
  hash : string;
  size : Z;
  meta_mimeType : string;               (* [IPFSMetadata.mimeType] *)
  encoding : string;
  meta_timestamp : Z;                   (* [IPFSMetadata.timestamp] *)
  verified : bool
}.

Definition empty_metadata : IPFSMetadata := mkMetadata "" 0 "" "" 0 false.

Record ContentAnalysis := mkAnalysis {
  isPhishing : bool;
  isMalicious : bool;
  isSuspicious : bool;
  confidenceScore : Z;
  detectedPatterns : list string;
  riskFactors : list string
}.

Definition empty_analysis : ContentAnalysis := mkAnalysis false false false 0 [] [].

(** The storage of [Evidence.State] and the rest of the contract's. *)
Record State := mkState {
  core : Evidence.State;
  ipfsMetadata : gmap Z IPFSMetadata;
  contentAnalysis : gmap Z ContentAnalysis;
  maliciousPatterns : gmap string bool;
  suspiciousDomains : gmap string bool;
  validatorList : list Z
}.

Definition set_core (s : State) (c : Evidence.State) : State :=
  mkState c (ipfsMetadata s) (contentAnalysis s) (maliciousPatterns s)
    (suspiciousDomains s) (validatorList s).

Definition owner (s : State) : Z := Evidence.owner (core s).
Definition evidence_exists (s : State) (e : Z) : bool :=
  Evidence.exists_ (Evidence.get_evidence (core s) e).

(** [validatorReputation[v] = r] and [authorizedValidators[v] = a]. *)
Definition set_validator (c : Evidence.State) (v r : Z) (a : bool) : Evidence.State :=
  Evidence.mkState (Evidence.evidence c) (Evidence.validationResults c)
    (<[v := r]> (Evidence.validatorReputation c))
    (<[v := a]> (Evidence.authorizedValidators c)) (Evidence.knownIPFSHashes c)
    (Evidence.allEvidenceIds c) (Evidence.paused c) (Evidence.owner c).
Definition set_reputation (c : Evidence.State) (v r : Z) : Evidence.State :=
  Evidence.mkState (Evidence.evidence c) (Evidence.validationResults c)
    (<[v := r]> (Evidence.validatorReputation c))
    (Evidence.authorizedValidators c) (Evidence.knownIPFSHashes c)
    (Evidence.allEvidenceIds c) (Evidence.paused c) (Evidence.owner c).
Definition set_paused (c : Evidence.State) (p : bool) : Evidence.State :=
  Evidence.mkState (Evidence.evidence c) (Evidence.validationResults c)
    (Evidence.validatorReputation c) (Evidence.authorizedValidators c)
    (Evidence.knownIPFSHashes c) (Evidence.allEvidenceIds c) p (Evidence.owner c).

(** [submitEvidence]: [Evidence.submitEvidence] and the [ipfsMetadata]
    record it stores. *)
Definition submitEvidence (m : Msg) (s : State) (eid : Z) (h : string)
    (t : Evidence.EvidenceType) (sz : Z) (mime url descr : string) : option State :=
  c ← Evidence.submitEvidence m (core s) eid h t sz mime url descr;
  Some (mkState c (<[eid := mkMetadata h sz mime "base58" (now m) false]> (ipfsMetadata s))
          (contentAnalysis s) (maliciousPatterns s) (suspiciousDomains s)
          (validatorList s)).

Definition validateEvidence (m : Msg) (s : State) (e : Z) (valid : bool)
    (why : string) (lvl : Evidence.ValidationLevel) : option State :=
  c ← Evidence.validateEvidence m (core s) e valid why lvl;
  Some (set_core s c).

(** [authorizeValidator]: [Evidence.authorizeValidator] and
    [validatorList.push(validator)]. *)
Definition authorizeValidator (m : Msg) (s : State) (v rep : Z) : option State :=
  c ← Evidence.authorizeValidator m (core s) v rep;
  Some (mkState c (ipfsMetadata s) (contentAnalysis s) (maliciousPatterns s)
          (suspiciousDomains s) (validatorList s ++ [v])).

(** The loop of [deauthorizeValidator]: the first entry equal to [v] is
    overwritten with the last entry, then the last entry is popped. *)
Definition remove_validator (v : Z) (l : list Z) : list Z :=
  match list_find (fun x => x = v) l with
  | Some (i, _) => take (length l - 1) (<[i := default 0 (last l)]> l)
  | None => l
  end.

(** [deauthorizeValidator] (only owner). *)
Definition deauthorizeValidator (m : Msg) (s : State) (v : Z) : option State :=
  require (sender m =? owner s) ;;
  require (Evidence.authorized (core s) v) ;;
  Some (mkState (set_validator (core s) v 0 false) (ipfsMetadata s)
          (contentAnalysis s) (maliciousPatterns s) (suspiciousDomains s)
          (remove_validator v (validatorList s))).

(** [updateIPFSMetadata] (only owner, [onlyExistingEvidence]). *)
Definition updateIPFSMetadata (m : Msg) (s : State) (e : Z) (b : bool) : option State :=
  require (sender m =? owner s) ;;
  require (evidence_exists s e) ;;
  let md := default empty_metadata (ipfsMetadata s !! e) in
  Some (mkState (core s)
          (<[e := mkMetadata (hash md) (size md) (meta_mimeType md) (encoding md)
                    (meta_timestamp md) b]> (ipfsMetadata s))
          (contentAnalysis s) (maliciousPatterns s) (suspiciousDomains s)
          (validatorList s)).

(** [updateContentAnalysis] (only owner, [onlyExistingEvidence]): the
    flags and the score are overwritten, the two loops push the given
    patterns and risk factors onto the stored arrays. *)
Definition updateContentAnalysis (m : Msg) (s : State) (e : Z)
    (ph mal sus : bool) (score : Z) (pats risks : list string) : option State :=
  require (sender m =? owner s) ;;
  require (evidence_exists s e) ;;
  require (score <=? 100) ;;
  let a := default empty_analysis (contentAnalysis s !! e) in
  Some (mkState (core s) (ipfsMetadata s)
          (<[e := mkAnalysis ph mal sus score (detectedPatterns a ++ pats)
                    (riskFactors a ++ risks)]> (contentAnalysis s))
          (maliciousPatterns s) (suspiciousDomains s) (validatorList s)).

(** [addMaliciousPattern] and [addSuspiciousDomain] (only owner). *)
Definition addMaliciousPattern (m : Msg) (s : State) (p : string) (act : bool)
    : option State :=
  require (sender m =? owner s) ;;
  require (nonempty p) ;;
  Some (mkState (core s) (ipfsMetadata s) (contentAnalysis s)
          (<[p := act]> (maliciousPatterns s)) (suspiciousDomains s) (validatorList s)).
Definition addSuspiciousDomain (m : Msg) (s : State) (d : string) (act : bool)
    : option State :=
  require (sender m =? owner s) ;;
  require (nonempty d) ;;
  Some (mkState (core s) (ipfsMetadata s) (contentAnalysis s) (maliciousPatterns s)
          (<[d := act]> (suspiciousDomains s)) (validatorList s)).

(** [pause] and [unpause] (only owner). *)
Definition pause (m : Msg) (s : State) : option State :=
  require (sender m =? owner s) ;;
  require (negb (Evidence.paused (core s))) ;;
  Some (set_core s (set_paused (core s) true)).
Definition unpause (m : Msg) (s : State) : option State :=
  require (sender m =? owner s) ;;
  require (Evidence.paused (core s)) ;;
  Some (set_core s (set_paused (core s) false)).

(** [emergencyUpdateValidatorReputation] (only owner). *)
Definition emergencyUpdateValidatorReputation (m : Msg) (s : State) (v r : Z)
    : option State :=
  require (sender m =? owner s) ;;
  Some (set_core s (set_reputation (core s) v r)).

Definition emergencyUpdateEvidenceStatus (m : Msg) (s : State) (e : Z)
    (st : Evidence.EvidenceStatus) : option State :=
  c ← Evidence.emergencyUpdateEvidenceStatus m (core s) e st;
  Some (set_core s c).

(** [getEvidenceIdByIndex]: [None] is the revert "Index out of bounds". *)
Definition getEvidenceIdByIndex (s : State) (i : nat) : option Z :=
  require (i <? length (Evidence.allEvidenceIds (core s)))%nat ;;
  Evidence.allEvidenceIds (core s) !! i.

(** The constructor: the owner is the one listed validator, and five
    malicious patterns are set. *)
Definition init (o : Z) : State :=
  mkState (Evidence.init o) ∅ ∅
    (list_to_map [("phishing", true); ("scam", true); ("fake", true);
                  ("steal", true); ("hack", true)]) ∅ [o].

Inductive Op :=
  | SubmitEvidence (eid : Z) (h : string) (t : Evidence.EvidenceType) (sz : Z)
      (mime url descr : string)
  | ValidateEvidence (e : Z) (valid : bool) (why : string)
      (lvl : Evidence.ValidationLevel)
  | UpdateIPFSMetadata (e : Z) (b : bool)
  | UpdateContentAnalysis (e : Z) (ph mal sus : bool) (score : Z)
      (pats risks : list string)
  | AuthorizeValidator (v rep : Z)
  | DeauthorizeValidator (v : Z)
  | AddMaliciousPattern (p : string) (act : bool)
  | AddSuspiciousDomain (d : string) (act : bool)
  | Pause
  | Unpause
  | EmergencyUpdateValidatorReputation (v r : Z)
  | EmergencyUpdateEvidenceStatus (e : Z) (st : Evidence.EvidenceStatus).

(** No entry point is payable: a call that sends ETH reverts. *)
Definition exec (op : Op) (m : Msg) (s : State) : option State :=
  require (value m =? 0) ;;
  match op with
  | SubmitEvidence eid h t sz mime url d => submitEvidence m s eid h t sz mime url d
  | ValidateEvidence e b why lvl => validateEvidence m s e b why lvl
  | UpdateIPFSMetadata e b => updateIPFSMetadata m s e b
  | UpdateContentAnalysis e ph mal sus sc ps rs =>
      updateContentAnalysis m s e ph mal sus sc ps rs
  | AuthorizeValidator v r => authorizeValidator m s v r
  | DeauthorizeValidator v => deauthorizeValidator m s v
  | AddMaliciousPattern p a => addMaliciousPattern m s p a
  | AddSuspiciousDomain d a => addSuspiciousDomain m s d a
  | Pause => pause m s
  | Unpause => unpause m s
  | EmergencyUpdateValidatorReputation v r => emergencyUpdateValidatorReputation m s v r
  | EmergencyUpdateEvidenceStatus e st => emergencyUpdateEvidenceStatus m s e st
  end.

(** A submission's [keccak256] id names no evidence yet: the hash is taken
    to be collision-free. *)
Definition fresh_id (op : Op) (s : State) : Prop :=
  match op with
  | SubmitEvidence eid _ _ _ _ _ _ => Evidence.evidence (core s) !! eid = None
  | _ => True
  end.

Inductive reachable : State -> Prop :=
  | reachable_init o : reachable (init o)
  | reachable_step s op m s' :
      reachable s -> fresh_id op s -> exec op m s = Some s' -> reachable s'.

(** A sequence of calls, each on the state the previous one left. *)
Definition run (ops : list (Op * Msg)) (s : State) : option State :=
  foldl (fun acc om => s1 ← acc; exec om.1 om.2 s1) (Some s) ops.

(** The validator list names each authorized validator once, and no one
    else. *)
Definition validators_listed (s : State) : Prop :=
  NoDup (validatorList s) /\
  (forall v, v ∈ validatorList s <-> Evidence.authorized (core s) v = true).

(** The bookkeeping of one evidence against its stored validation results:
    each validator has at most one result, the [validators] flags mark
    exactly the validators with a result, and the three counters count the
    results, the positive ones and the negative ones. *)
Definition results_ok (ev : Evidence.Evidence) (rs : list Evidence.ValidationResult)
    : Prop :=
  NoDup (map Evidence.validator rs) /\
  (forall v, default false (Evidence.validators ev !! v) = true
             <-> v ∈ map Evidence.validator rs) /\
  Evidence.validationCount ev = Z.of_nat (length rs) /\
  Evidence.positiveValidations ev
    = Z.of_nat (length (filter (fun r => Evidence.isValid r = true) rs)) /\
  Evidence.negativeValidations ev
    = Z.of_nat (length (filter (fun r => Evidence.isValid r = false) rs)).

Definition evidence_ok (s : State) : Prop :=
  forall e, results_ok (Evidence.get_evidence (core s) e)
              (Evidence.results_of (core s) e).

(** [knownIPFSHashes[h]] *)
Definition known (s : State) (h : string) : bool :=
  default false (Evidence.knownIPFSHashes (core s) !! h).

(** The two statuses [_finalizeValidation] gives. *)
Definition final (st : Evidence.EvidenceStatus) : bool :=
  match st with Evidence.Validated | Evidence.Rejected => true | _ => false end.

(** The results bookkeeping of every evidence, and no stored results for an
    id that names no evidence. *)
Definition core_ok (c : Evidence.State) : Prop :=
  (forall e, results_ok (Evidence.get_evidence c e) (Evidence.results_of c e)) /\
  (forall e, Evidence.evidence c !! e = None -> Evidence.validationResults c !! e = None).

End EvidenceAdmin.

(** * ReputationSystem: the order of the tiers *)
Module RepSysTier.

(** The position of a tier in the declaration of [ReputationTier]. *)
Definition tier_rank (t : RepSys.ReputationTier) : nat :=
  match t with
  | RepSys.Bronze => 0 | RepSys.Silver => 1 | RepSys.Gold => 2
  | RepSys.Platinum => 3 | RepSys.Diamond => 4
  end%nat.

End RepSysTier.

(** * Concrete runs used by the witnesses and counterexamples *)
Module Scenarios.

Definition ETHER : Z := 10 ^ 18.

(** The registry: owner 1, reporter 10, validators 21, 22 and 23. *)
Definition w0 : gmap Z Z :=
  list_to_map [(1, ETHER); (10, ETHER); (21, ETHER); (22, ETHER); (23, ETHER)].

Definition reg_init : Registry.State := Registry.init 1 w0.

Definition reg_setup : list (Registry.Op * Msg) :=
  [(Registry.RegisterValidator, mkMsg 21 0 1);
   (Registry.RegisterValidator, mkMsg 22 0 1);
   (Registry.RegisterValidator, mkMsg 23 0 1);
   (Registry.SubmitReportWithStake "phishing_url" "http://phish.example"
      "fake wallet login" "h1", mkMsg 10 Registry.REPORT_STAKE 2)].

Definition vote (v : Z) (b : bool) : Registry.Op * Msg :=
  (Registry.VoteOnReport 1 b, mkMsg v Registry.VOTING_STAKE 3).

Definition reg_state (o : option Registry.State) : Registry.State :=
  default reg_init o.

(** Scenario A: the owner funds the contract, then valid, valid, invalid. *)
Definition sA_pre : Registry.State :=
  reg_state (Registry.run (reg_setup ++
    [(Registry.Receive, mkMsg 1 (ETHER / 10) 2); vote 21 true; vote 22 true])
    reg_init).
Definition sA : Registry.State :=
  reg_state (Registry.exec (vote 23 false).1 (vote 23 false).2 sA_pre).

(** Scenario B: invalid, invalid, valid. *)
Definition sB_pre : Registry.State :=
  reg_state (Registry.run (reg_setup ++ [vote 21 false; vote 22 false]) reg_init).
Definition sB : Registry.State :=
  reg_state (Registry.exec (vote 23 true).1 (vote 23 true).2 sB_pre).

(** Three invalid votes: the stake does not split evenly three ways. *)
Definition s3 : Registry.State :=
  reg_state (Registry.exec (vote 23 false).1 (vote 23 false).2 sB_pre).

(** A funded registry whose report 1 holds four votes, two each way, as
    storage handed to [_finalizeReport]. *)
Definition funded : Registry.State :=
  reg_state (Registry.run (reg_setup ++
    [(Registry.Receive, mkMsg 1 (ETHER / 10) 2)]) reg_init).
Definition tie_report : Registry.Report :=
  let r := Registry.get_report funded 1 in
  Registry.mkReport (Registry.id r) (Registry.reportType r)
    (Registry.targetValue r) (Registry.description r) (Registry.reportHash r)
    (Registry.reporter r) (Registry.stakeAmount r) (Registry.timestamp r)
    (Registry.votingDeadline r) Registry.Pending 2 2
    (list_to_map [(21, Registry.Valid); (22, Registry.Valid);
                  (23, Registry.Invalid); (24, Registry.Invalid)])
    (list_to_map [(21, Registry.VOTING_STAKE); (22, Registry.VOTING_STAKE);
                  (23, Registry.VOTING_STAKE); (24, Registry.VOTING_STAKE)])
    [21; 22; 23; 24].
Definition reg_tie : Registry.State := Registry.set_report funded 1 tie_report.

(** Two pending reports by account 10; three valid votes settle report 1
    with no extra funding, paying its rewards out of report 2's stake. *)
Definition two_reports : Registry.State :=
  reg_state (Registry.run (reg_setup ++
    [(Registry.SubmitReportWithStake "phishing_url" "http://phish2.example"
        "fake airdrop" "h2", mkMsg 10 Registry.REPORT_STAKE 2);
     vote 21 true; vote 22 true; vote 23 true]) reg_init).

(** The evidence validator: owner 1 authorizes 2, 3, 4 and 5 with
    reputation 100; account 9 submits evidence 7. *)
Definition ev_hash : string := "QmYwAPJzv5CZsnA625s3Xf2nemtYgPpHdWEz79ojWnPbdG".

Definition ev_state (o : option Evidence.State) : Evidence.State :=
  default (Evidence.init 1) o.

Definition ev_open : Evidence.State :=
  ev_state (
    s ← Evidence.authorizeValidator (mkMsg 1 0 1) (Evidence.init 1) 2 100;
    s ← Evidence.authorizeValidator (mkMsg 1 0 1) s 3 100;
    s ← Evidence.authorizeValidator (mkMsg 1 0 1) s 4 100;
    s ← Evidence.authorizeValidator (mkMsg 1 0 1) s 5 100;
    Evidence.submitEvidence (mkMsg 9 0 2) s 7 ev_hash Evidence.Screenshot 1000
      "image/png" "http://phish.example" "fake login page").

Definition ev_vote (v : Z) (b : bool) (s : Evidence.State) : Evidence.State :=
  ev_state (Evidence.validateEvidence (mkMsg v 0 3) s 7 b "checked"
              Evidence.Standard).

(** Negative, negative, then positive. *)
Definition evC_pre : Evidence.State := ev_vote 3 false (ev_vote 2 false ev_open).
Definition evC : Evidence.State := ev_vote 4 true evC_pre.

(** Positive, positive, negative finalizes; the owner sets the item back to
    [Pending]; a fourth, negative, verdict makes it two against two. *)
Definition evT_pre : Evidence.State :=
  ev_state (Evidence.emergencyUpdateEvidenceStatus (mkMsg 1 0 3)
    (ev_vote 4 false (ev_vote 3 true (ev_vote 2 true ev_open))) 7
    Evidence.Pending).
Definition evT : Evidence.State := ev_vote 5 false evT_pre.

(** The reputation ledger: owner 1, contract address 2; account 5 holds
    1000 tokens. The owner raises 5's reputation, then 5 stakes 100 tokens
    for seven days at time 1000. *)
Definition rs_init : RepSys.State :=
  RepSys.init 1 2 (list_to_map [(5, 1000 * ETHER)]).
Definition rs_state (o : option RepSys.State) : RepSys.State := default rs_init o.
Definition rs_rep : RepSys.State :=
  rs_state (RepSys.updateReputation (mkMsg 1 0 500) rs_init 5 10 true).
Definition rs_staked : RepSys.State :=
  rs_state (RepSys.depositStake (mkMsg 5 0 1000) rs_rep (100 * ETHER)
              RepSys.MIN_STAKE_PERIOD RepSys.Report).
(** The owner raises 5's base reputation to [2^255 + 9], then 5 stakes
    100 tokens at time 1000. *)
Definition rs_big : RepSys.State :=
  rs_state (s1 ← RepSys.updateReputation (mkMsg 1 0 500) rs_init 5 (2 ^ 255 - 1) true;
            RepSys.depositStake (mkMsg 5 0 1000) s1 (100 * ETHER)
              RepSys.MIN_STAKE_PERIOD RepSys.Report).
(** Withdrawal one second before the lock period ends. *)
Definition rs_early : Z := 1000 + RepSys.MIN_STAKE_PERIOD - 1.
Definition rs_withdrawn : RepSys.State :=
  rs_state (RepSys.withdrawStake (mkMsg 5 0 rs_early) rs_staked 1).

(** PhishBlockRegistry, owner 1: report 1 submitted at time 100, then
    upvoted by the owner at time 200. *)
Definition pb_init : PhishBlock.State := PhishBlock.init 1.
Definition pb_state (o : option PhishBlock.State) : PhishBlock.State := default pb_init o.
Definition pb_submit (rid t : Z) : PhishBlock.Op * Msg :=
  (PhishBlock.SubmitReport rid "http://phish.example" "" "fake login page" "QmReport"
     PhishBlock.URL, mkMsg 1 0 t).
Definition pb_sub : PhishBlock.State :=
  pb_state (PhishBlock.exec (pb_submit 1 100).1 (pb_submit 1 100).2 pb_init).
Definition pb_voted : PhishBlock.State :=
  pb_state (PhishBlock.exec (PhishBlock.Vote_ 1 true) (mkMsg 1 0 200) pb_sub).
(** Six submissions by the owner: five inside one window, the sixth one a
    window after the fifth. *)
Definition pb_six : list (PhishBlock.Op * Msg) :=
  [pb_submit 1 100; pb_submit 2 200; pb_submit 3 300; pb_submit 4 400;
   pb_submit 5 500; pb_submit 6 4100].
Definition pb_six_end : PhishBlock.State := pb_state (PhishBlock.run pb_six pb_init).
(** The owner blacklists the URL of [pb_submit]. *)
Definition pb_listed : PhishBlock.State :=
  pb_state (PhishBlock.addToBlacklist (mkMsg 1 0 50) pb_init "http://phish.example" true).

(** The owner marks report 1 [Verified] at time 400. *)
Definition pb_verified : PhishBlock.State :=
  pb_state (PhishBlock.updateReportStatus (mkMsg 1 0 400) pb_sub 1 PhishBlock.Verified).

(** EvidenceValidator with its administrative tables, owner 1: validators 2
    and 3 are authorized, account 9 submits evidence 7, then 1, 2 and 3
    validate it (positive, positive, negative). *)
Definition ea_init : EvidenceAdmin.State := EvidenceAdmin.init 1.
Definition ea_state (o : option EvidenceAdmin.State) : EvidenceAdmin.State :=
  default ea_init o.
Definition ea_auth (v : Z) : EvidenceAdmin.Op * Msg :=
  (EvidenceAdmin.AuthorizeValidator v 100, mkMsg 1 0 1).
Definition ea_submit : EvidenceAdmin.Op * Msg :=
  (EvidenceAdmin.SubmitEvidence 7 ev_hash Evidence.Screenshot 1000 "image/png"
     "http://phish.example" "fake login page", mkMsg 9 0 2).
Definition ea_validate (v : Z) (b : bool) : EvidenceAdmin.Op * Msg :=
  (EvidenceAdmin.ValidateEvidence 7 b "checked" Evidence.Standard, mkMsg v 0 3).
Definition ea_votes : list (EvidenceAdmin.Op * Msg) :=
  [ea_validate 1 true; ea_validate 2 true; ea_validate 3 false].
Definition ea_run (ops : list (EvidenceAdmin.Op * Msg)) : EvidenceAdmin.State :=
  ea_state (EvidenceAdmin.run ops ea_init).
Definition ea_two : EvidenceAdmin.State := ea_run [ea_auth 2; ea_auth 3].
Definition ea_sub : EvidenceAdmin.State := ea_run [ea_auth 2; ea_auth 3; ea_submit].
Definition ea_fin : EvidenceAdmin.State :=
  ea_run ([ea_auth 2; ea_auth 3; ea_submit] ++ ea_votes).
(** The owner deauthorizes 2: the list [1; 2; 3] becomes [1; 3]. *)
Definition ea_deauth : EvidenceAdmin.State :=
  ea_state (EvidenceAdmin.exec (EvidenceAdmin.DeauthorizeValidator 2) (mkMsg 1 0 4) ea_sub).

(** The owner sets the [verified] flag of evidence 7 after it is finalized. *)
Definition ea_meta : EvidenceAdmin.State :=
  ea_state (EvidenceAdmin.exec (EvidenceAdmin.UpdateIPFSMetadata 7 true) (mkMsg 1 0 5) ea_fin).

(** The reputation ledger with accounts 5 and 6 holding tokens: both get
    reputation 10, 5 stakes first (stake id 1), then 6 (stake id 2). *)
Definition rs2_init : RepSys.State :=
  RepSys.init 1 2 (list_to_map [(5, 1000 * ETHER); (6, 1000 * ETHER)]).
Definition rs2_state (o : option RepSys.State) : RepSys.State := default rs2_init o.
Definition rs2_a : RepSys.State :=
  rs2_state (
    s ← RepSys.updateReputation (mkMsg 1 0 500) rs2_init 5 10 true;
    s ← RepSys.updateReputation (mkMsg 1 0 500) s 6 10 true;
    RepSys.depositStake (mkMsg 5 0 1000) s (100 * ETHER) RepSys.MIN_STAKE_PERIOD
      RepSys.Report).
Definition rs2_b : RepSys.State :=
  rs2_state (RepSys.depositStake (mkMsg 6 0 1100) rs2_a (100 * ETHER)
               RepSys.MIN_STAKE_PERIOD RepSys.Report).
(** The ledger paused by its owner. *)
Definition rs_paused : RepSys.State := rs_state (RepSys.pause (mkMsg 1 0 600) rs_init).

End Scenarios.

(** * Proofs *)

(** ** Sums over finite maps *)

Lemma map_sumZ_insert `{Countable K} {A} (f : A -> Z) (d : A) (m : gmap K A)
    (k : K) (y : A) :
  f d = 0 ->
  map_sumZ f (<[k := y]> m) = map_sumZ f m - f (default d (m !! k)) + f y.
Proof.
  intros Hd. unfold map_sumZ.
  destruct (m !! k) as [x|] eqn:Hk; simpl.
  - rewrite <- (insert_delete_eq m k y).
    rewrite map_fold_insert_L; [| intros; lia | apply lookup_delete_eq].
    assert (Hm : map_fold (fun _ v acc => f v + acc) 0 m
                 = f x + map_fold (fun _ v acc => f v + acc) 0 (delete k m)).
    { rewrite <- (insert_delete_id m k x Hk) at 1.
      rewrite map_fold_insert_L; [reflexivity | intros; lia | apply lookup_delete_eq]. }
    rewrite Hm. lia.
  - rewrite map_fold_insert_L; [lia | intros; lia | exact Hk].
Qed.

Lemma map_sumZ_insert_id `{Countable K} (m : gmap K Z) (k : K) (y : Z) :
  map_sumZ (fun x => x) (<[k := y]> m)
  = map_sumZ (fun x => x) m - default 0 (m !! k) + y.
Proof. apply (map_sumZ_insert (fun x => x) 0); reflexivity. Qed.

(** Taking a [require] or an option-bind apart in a hypothesis. *)
Ltac take H :=
  lazymatch type of H with
  | mbind _ (require ?b) = Some _ =>
      let E := fresh "E" in
      destruct b eqn:E; [simpl in H | discriminate H]
  | mbind _ ?x = Some _ =>
      let E := fresh "E" in
      destruct x eqn:E; [simpl in H | discriminate H]
  | require ?b = Some _ =>
      let E := fresh "E" in
      destruct b eqn:E; [simpl in H | discriminate H]
  end.

(** Settling a side condition on a concrete state by evaluation. *)
Ltac concrete :=
  first [ vm_compute; reflexivity
        | apply Z.leb_le; vm_compute; reflexivity
        | apply Z.ltb_lt; vm_compute; reflexivity
        | vm_compute; discriminate ].

(** [take] on every hypothesis it applies to, and [Some] equations
    substituted. *)
Ltac takes :=
  repeat match goal with
  | H : mbind _ _ = Some _ |- _ => take H
  | H : require _ = Some _ |- _ => take H
  | H : Some _ = Some _ |- _ => injection H as H; subst
  end.

(** ** StakeBasedReportRegistry: the effects of the building blocks *)
Module RegistryFacts.
Import Registry.

Lemma transfer_to_spec to amt s s' :
  transfer_to to amt s = Some s' ->
  same_reports s s' /\ transfers s' = transfers s ++ [(to, amt)] /\
  eth_total s' = eth_total s.
Proof.
  unfold transfer_to. intros H. take H. injection H as <-.
  unfold same_reports, eth_total, wallets_total; simpl.
  rewrite map_sumZ_insert_id. unfold wallet_of. repeat split; lia.
Qed.

Lemma pay_each_spec amt vs s s' :
  pay_each amt vs s = Some s' ->
  same_reports s s' /\ transfers s' = transfers s ++ map (fun v => (v, amt v)) vs /\
  eth_total s' = eth_total s.
Proof.
  revert s. induction vs as [|v vs IH]; intros s H; simpl in H.
  - injection H as <-. rewrite app_nil_r. repeat split; reflexivity.
  - take H. apply transfer_to_spec in E as (Hs1 & Ht1 & He1).
    apply IH in H as (Hs2 & Ht2 & He2).
    destruct Hs1 as [Hr1 Hi1], Hs2 as [Hr2 Hi2].
    repeat split; try congruence.
    rewrite Ht2, Ht1, <- app_assoc. reflexivity.
Qed.

Lemma update_each_spec r vs s :
  let s' := update_each r vs s in
  same_reports s s' /\ transfers s' = transfers s /\ eth_total s' = eth_total s.
Proof.
  revert s. induction vs as [|v vs IH]; intros s; simpl.
  - repeat split; reflexivity.
  - destruct (IH (set_validator s v (bump_validator (vote_correct r v)
                                       (get_validator s v))))
      as [[Hr Hi] [Ht He]].
    repeat split; rewrite ?Hr, ?Hi, ?Ht, ?He; reflexivity.
Qed.

Lemma get_report_set s rid r : get_report (set_report s rid r) rid = r.
Proof. unfold get_report, set_report; simpl. by rewrite lookup_insert_eq. Qed.

Lemma get_report_set_ne s rid rid' r :
  rid <> rid' -> get_report (set_report s rid r) rid' = get_report s rid'.
Proof. intros. unfold get_report, set_report; simpl. by rewrite lookup_insert_ne. Qed.

Lemma get_report_same s s' rid :
  same_reports s s' -> get_report s' rid = get_report s rid.
Proof. intros [Hr _]. unfold get_report. by rewrite Hr. Qed.

Lemma eth_total_set_report s rid r : eth_total (set_report s rid r) = eth_total s.
Proof. reflexivity. Qed.

Lemma pay_in_spec m s s' :
  pay_in m s = Some s' ->
  same_reports s s' /\ transfers s' = transfers s /\ eth_total s' = eth_total s /\
  validatorRecords s' = validatorRecords s.
Proof.
  unfold pay_in. intros H. take H. injection H as <-.
  unfold same_reports, eth_total, wallets_total; simpl.
  rewrite map_sumZ_insert_id. unfold wallet_of. repeat split; lia.
Qed.

(** The payouts of a finalization, in transfer order. *)

Lemma finalize_spec rid s s' :
  _finalizeReport rid s = Some s' ->
  let r := get_report s rid in
  (3 <= length (validators r))%nat /\
  reports s' = <[rid := with_status r (outcome r)]> (reports s) /\
  reportIds s' = reportIds s /\
  transfers s' = transfers s ++ settlement (with_status r (outcome r)) /\
  eth_total s' = eth_total s.
Proof.
  unfold _finalizeReport, outcome, settlement. intros H. take H.
  assert (Hlen : (3 <= length (validators (get_report s rid)))%nat)
    by (apply Z.leb_le in E; unfold MIN_VALIDATORS in E; lia).
  simpl.
  destruct (invalidVotes (get_report s rid) <? validVotes (get_report s rid)) eqn:Ev.
  - take H. apply transfer_to_spec in E0 as (Hs1 & Ht1 & He1).
    take H. unfold _distributeValidatorRewards in E0.
    rewrite (get_report_same _ _ _ Hs1), get_report_set in E0.
    apply pay_each_spec in E0 as (Hs2 & Ht2 & He2).
    injection H as <-. unfold _updateValidatorReputation.
    destruct (update_each_spec
                (get_report s1 rid) (validators (get_report s1 rid)) s1)
      as [[Hr3 Hi3] [Ht3 He3]].
    destruct Hs1 as [Hr1 Hi1], Hs2 as [Hr2 Hi2].
    simpl in Ht1.
    simpl.
    repeat split.
    + exact Hlen.
    + rewrite Hr3, Hr2, Hr1. reflexivity.
    + rewrite Hi3, Hi2, Hi1. reflexivity.
    + rewrite Ht3, Ht2, Ht1, <- app_assoc. reflexivity.
    + rewrite He3, He2, He1. reflexivity.
  - take H. unfold _redistributeStake in E0.
    rewrite get_report_set in E0. simpl in E0.
    injection H as <-. unfold _updateValidatorReputation.
    destruct (update_each_spec
                (get_report s0 rid) (validators (get_report s0 rid)) s0)
      as [[Hr3 Hi3] [Ht3 He3]].
    simpl.
    destruct (0 <? count_votes Invalid (with_status (get_report s rid) Rejected)) eqn:Ek.
    + apply pay_each_spec in E0 as ([Hr2 Hi2] & Ht2 & He2).
      repeat split.
      * exact Hlen.
      * rewrite Hr3, Hr2. reflexivity.
      * rewrite Hi3, Hi2. reflexivity.
      * rewrite Ht3, Ht2. reflexivity.
      * rewrite He3, He2. reflexivity.
    + injection E0 as <-.
      repeat split.
      * exact Hlen.
      * rewrite Hr3. reflexivity.
      * rewrite Hi3. reflexivity.
      * rewrite Ht3, app_nil_r. reflexivity.
      * rewrite He3. reflexivity.
Qed.

End RegistryFacts.

Module RegistryVote.
Import Registry RegistryFacts.

Lemma vote_spec m s rid b s' :
  voteOnReport m s rid b = Some s' ->
  let r := get_report s rid in
  let r1 := cast_vote r (sender m) (value m) b in
  status r = Pending /\ now m <= votingDeadline r /\ rid <= reportIds s /\
  vote_of r (sender m) = VNone /\
  ((length (validators r1) < 3)%nat /\ s' = set_report s rid r1 \/
   (3 <= length (validators r1))%nat /\ _finalizeReport rid (set_report s rid r1) = Some s').
Proof.
  unfold voteOnReport. intros H. cbv zeta.
  take H. take H. take H. take H. take H. take H.
  apply bool_decide_eq_true in E2, E4.
  apply Z.leb_le in E0, E1.
  repeat split; try assumption.
  destruct (MIN_VALIDATORS <=? _) eqn:Eq.
  - right. apply Z.leb_le in Eq. unfold MIN_VALIDATORS in Eq. split; [simpl; lia | exact H].
  - left. apply Z.leb_gt in Eq. unfold MIN_VALIDATORS in Eq.
    injection H as <-. split; [simpl; lia | reflexivity].
Qed.

Lemma exec_vote m s rid b s' :
  exec (VoteOnReport rid b) m s = Some s' ->
  exists s0, pay_in m s = Some s0 /\ voteOnReport m s0 rid b = Some s'.
Proof. unfold exec. intros H. take H. eauto. Qed.

(** A vote that leaves the report non-[Pending] went through
    [_finalizeReport]: the report now carries [outcome] of its tally, and the
    transfers of the call are exactly [settlement] of it. *)
Lemma vote_finalized m s rid b s' :
  exec (VoteOnReport rid b) m s = Some s' ->
  status (get_report s' rid) <> Pending ->
  exists r1, get_report s' rid = with_status r1 (outcome r1) /\
    (3 <= length (validators r1))%nat /\
    transfers s' = transfers s ++ settlement (get_report s' rid).
Proof.
  intros H Hst. apply exec_vote in H as (s0 & Hp & Hv).
  apply pay_in_spec in Hp as (_ & Ht0 & _).
  apply vote_spec in Hv as (Hpend & _ & _ & _ & Hcase).
  destruct Hcase as [[_ ->] | [Hlen Hf]].
  - rewrite get_report_set in Hst. simpl in Hst. congruence.
  - apply finalize_spec in Hf as (_ & Hr & _ & Ht & _).
    rewrite get_report_set in Hr, Ht.
    assert (Hg : get_report s' rid
                 = with_status (cast_vote (get_report s0 rid) (sender m) (value m) b)
                     (outcome (cast_vote (get_report s0 rid) (sender m) (value m) b))).
    { unfold get_report at 1. rewrite Hr. by rewrite lookup_insert_eq. }
    eexists. split; [exact Hg | split; [exact Hlen |]].
    rewrite Ht, Hg. simpl. rewrite Ht0. reflexivity.
Qed.

Lemma outcome_with_status r st : outcome (with_status r st) = outcome r.
Proof. reflexivity. Qed.

End RegistryVote.

(** ** EvidenceValidator: the effect of one validation *)
Module RegistryInv.
Import Registry RegistryFacts RegistryVote.

Lemma filter_ext_in {A} (P Q : A -> Prop) `{forall x, Decision (P x)}
    `{forall x, Decision (Q x)} (l : list A) :
  (forall x, x ∈ l -> (P x <-> Q x)) -> filter P l = filter Q l.
Proof.
  induction l as [|x l IH]; intros Hx; [reflexivity |].
  rewrite !filter_cons.
  assert (IH' : filter P l = filter Q l)
    by (apply IH; intros y Hy; apply Hx; rewrite elem_of_cons; auto).
  pose proof (Hx x (list_elem_of_here x l)) as Hpq.
  destruct (decide (P x)), (decide (Q x)); rewrite IH'; tauto.
Qed.

Lemma count_split r :
  (forall v, v ∈ validators r -> vote_of r v <> VNone) ->
  count_votes Valid r + count_votes Invalid r = Z.of_nat (length (validators r)).
Proof.
  unfold count_votes. generalize (validators r) as l.
  induction l as [|x l IH]; intros Hl; [reflexivity |].
  rewrite !filter_cons.
  assert (IH' := IH (fun v Hv => Hl v (proj2 (elem_of_cons l v x) (or_intror Hv)))).
  pose proof (Hl x (list_elem_of_here x l)) as Hx.
  destruct (vote_of r x) eqn:E; [congruence | |];
    repeat (case_decide; try congruence); simpl length; lia.
Qed.

(** A freshly written report: [Pending], no validator, no vote. *)
Lemma report_ok_fresh a b c d e f g h i st :
  report_ok (mkReport a b c d e f g h i Pending 0 0 ∅ st []).
Proof.
  unfold report_ok, tally_core, count_votes, vote_of; simpl.
  repeat split; try discriminate; try lia.
  - apply NoDup_nil_2.
  - intros Hv. by apply elem_of_nil in Hv.
  - intros Hv. exfalso. apply Hv. rewrite lookup_empty. reflexivity.
Qed.

Lemma report_ok_empty : report_ok empty_report.
Proof. apply report_ok_fresh. Qed.

Lemma vote_of_cast r v st b x :
  vote_of (cast_vote r v st b) x
  = if decide (x = v) then (if b then Valid else Invalid) else vote_of r x.
Proof.
  unfold vote_of, cast_vote; simpl. destruct (decide (x = v)) as [-> | Hne].
  - rewrite lookup_insert_eq. destruct b; reflexivity.
  - rewrite lookup_insert_ne by congruence. reflexivity.
Qed.

Lemma cast_core r v st b :
  tally_core r -> vote_of r v = VNone ->
  tally_core (cast_vote r v st b) /\
  validators (cast_vote r v st b) = validators r ++ [v].
Proof.
  intros (Hnd & Hmem & Hv & Hi) Hvn.
  assert (Hnin : v ∉ validators r) by (rewrite Hmem; tauto).
  assert (Hex : existsb (Z.eqb v) (validators r) = false).
  { destruct (existsb _ _) eqn:E; [| reflexivity].
    apply existsb_exists in E as [x [Hx Hxv]]. apply Z.eqb_eq in Hxv. subst x.
    exfalso. apply Hnin. by apply list_elem_of_In. }
  assert (Hvs : validators (cast_vote r v st b) = validators r ++ [v])
    by (unfold cast_vote; simpl; rewrite Hex; reflexivity).
  assert (Hc : forall t, count_votes t (cast_vote r v st b)
                         = count_votes t r
                           + (if bool_decide ((if b then Valid else Invalid) = t)
                              then 1 else 0)).
  { intros t. unfold count_votes. rewrite Hvs, filter_app, length_app.
    rewrite (filter_ext_in (fun x => vote_of (cast_vote r v st b) x = t)
               (fun x => vote_of r x = t)).
    2:{ intros x Hx. rewrite vote_of_cast. destruct (decide (x = v)); [subst; tauto | tauto]. }
    rewrite filter_cons, filter_nil, vote_of_cast.
    destruct (decide (v = v)); [| congruence].
    case_decide; case_bool_decide; try tauto; simpl length; lia. }
  split; [| exact Hvs].
  unfold tally_core. rewrite Hvs. split; [| split; [| split]].
  - apply NoDup_app. repeat split; [exact Hnd | | apply NoDup_singleton].
    intros x Hx Hx'. apply list_elem_of_singleton in Hx'. subst. contradiction.
  - intros x. rewrite vote_of_cast, elem_of_app, list_elem_of_singleton.
    destruct (decide (x = v)) as [-> | Hne].
    + split; [intros _; destruct b; discriminate | intros _; right; reflexivity].
    + rewrite Hmem. split; [intros [H1 | H1]; [exact H1 | congruence] | auto].
  - rewrite Hc. unfold cast_vote; simpl. destruct b; case_bool_decide; try congruence; lia.
  - rewrite Hc. unfold cast_vote; simpl. destruct b; case_bool_decide; try congruence; lia.
Qed.

Lemma registry_ok_update s s' rid r :
  registry_ok s -> rid <= reportIds s -> report_ok r ->
  reports s' = <[rid := r]> (reports s) -> reportIds s' = reportIds s ->
  registry_ok s'.
Proof.
  intros [Hf Ho] Hle Hr Hrs Hid. split.
  - intros rid' Hlt. rewrite Hrs, lookup_insert_ne by lia. apply Hf. lia.
  - intros rid'. unfold get_report. rewrite Hrs.
    destruct (decide (rid = rid')) as [<- | Hne].
    + rewrite lookup_insert_eq. exact Hr.
    + rewrite lookup_insert_ne by exact Hne. apply Ho.
Qed.

Lemma registry_ok_same s s' : registry_ok s -> same_reports s s' -> registry_ok s'.
Proof.
  intros [Hf Ho] [Hr Hi]. split; intros rid.
  - rewrite Hi, Hr. apply Hf.
  - unfold get_report. rewrite Hr. apply Ho.
Qed.

Lemma register_same m s s' : registerValidator m s = Some s' -> same_reports s s'.
Proof. unfold registerValidator. intros H. take H. take H. injection H as <-. split; reflexivity. Qed.

Lemma submit_spec m s rt tv d h s' :
  submitReportWithStake m s rt tv d h = Some s' ->
  let n := reportIds s + 1 in
  let old := get_report s n in
  reportIds s' = n /\
  reports s' = <[n := mkReport n rt tv d h (sender m) (value m) (now m)
                        (now m + VOTING_PERIOD) Pending 0 0
                        (votes old) (validatorStakes old) (validators old)]> (reports s).
Proof.
  unfold submitReportWithStake. intros H. take H. take H. take H. take H.
  injection H as <-. split; reflexivity.
Qed.

Lemma emergency_same m s s' : emergencyWithdraw m s = Some s' -> same_reports s s'.
Proof.
  unfold emergencyWithdraw. intros H. take H. take H.
  apply transfer_to_spec in H as [Hs _]. exact Hs.
Qed.

Lemma exec_ok op m s s' : registry_ok s -> exec op m s = Some s' -> registry_ok s'.
Proof.
  intros Hok H. unfold exec in H. take H.
  apply pay_in_spec in E as (Hs0 & _). apply (registry_ok_same _ _ Hok) in Hs0.
  clear Hok. destruct op as [| rt tv d h | rid b | |].
  - apply register_same in H. eapply registry_ok_same; eauto.
  - apply submit_spec in H as [Hi Hr]. pose proof Hs0 as [Hf Ho]. split.
    + intros rid Hlt. rewrite Hr, lookup_insert_ne by lia. apply Hf. lia.
    + intros rid. unfold get_report at 1. rewrite Hr.
      destruct (decide (reportIds s0 + 1 = rid)) as [<- | Hne].
      * rewrite lookup_insert_eq. simpl.
        assert (Hold : get_report s0 (reportIds s0 + 1) = empty_report)
          by (unfold get_report; rewrite Hf by lia; reflexivity).
        rewrite Hold. apply report_ok_fresh.
      * rewrite lookup_insert_ne by exact Hne. apply Ho.
  - apply vote_spec in H as (Hp & _ & Hle & Hvn & Hcase). cbv zeta in Hcase.
    pose proof Hs0 as [Hf Ho].
    destruct (Ho rid) as (Hcore & Hlen & Hpl & _).
    destruct (cast_core _ (sender m) (value m) b Hcore Hvn) as [Hcore' Hvs].
    specialize (Hpl Hp).
    destruct Hcase as [[Hl1 ->] | [Hl1 Hfin]].
    + eapply registry_ok_update; [exact Hs0 | exact Hle | | reflexivity | reflexivity].
      split; [exact Hcore' |]. split; [lia |]. split; [intros _; exact Hl1 |].
      simpl. rewrite Hp. discriminate.
    + apply finalize_spec in Hfin as (_ & Hr & Hi & _).
      rewrite get_report_set in Hr. simpl in Hr. rewrite insert_insert_eq in Hr.
      eapply registry_ok_update; [exact Hs0 | exact Hle | | exact Hr | exact Hi].
      split; [exact Hcore' |]. split.
      * assert (H3 : (length (validators (cast_vote (get_report s0 rid) (sender m)
                                               (value m) b)) <= 3)%nat)
          by (rewrite Hvs, length_app; simpl; lia).
        exact H3.
      * unfold outcome. destruct (_ <? _); simpl; split; discriminate.
  - injection H as <-. exact Hs0.
  - apply emergency_same in H. eapply registry_ok_same; eauto.
Qed.

Lemma reachable_ok s : reachable s -> registry_ok s.
Proof.
  induction 1 as [o w | s op m s' _ IH Hx].
  - split; intros rid.
    + intros _. apply lookup_empty.
    + apply report_ok_empty.
  - eapply exec_ok; eauto.
Qed.

Lemma vote_other m s rid rid' b s' :
  voteOnReport m s rid' b = Some s' -> rid' <> rid ->
  get_report s' rid = get_report s rid.
Proof.
  intros H Hne. apply vote_spec in H as (_ & _ & _ & _ & Hcase). cbv zeta in Hcase.
  destruct Hcase as [[_ ->] | [_ Hfin]].
  - by apply get_report_set_ne.
  - apply finalize_spec in Hfin as (_ & Hr & _). unfold get_report at 1.
    rewrite Hr, lookup_insert_ne by exact Hne. simpl.
    rewrite lookup_insert_ne by exact Hne. reflexivity.
Qed.

(** A [Pending] report stays [Pending] under every call made after its
    voting deadline. *)
Lemma pending_stays m s op s' rid :
  exec op m s = Some s' ->
  status (get_report s rid) = Pending -> votingDeadline (get_report s rid) < now m ->
  status (get_report s' rid) = Pending.
Proof.
  intros H Hp Hd. unfold exec in H. take H.
  apply pay_in_spec in E as (Hs0 & _).
  rewrite <- (get_report_same _ _ rid Hs0) in Hp, Hd.
  destruct op as [| rt tv d h | rid' b | |].
  - apply register_same in H. by rewrite (get_report_same _ _ rid H).
  - apply submit_spec in H as [_ Hr]. unfold get_report at 1. rewrite Hr.
    destruct (decide (reportIds s0 + 1 = rid)) as [<- | Hne].
    + rewrite lookup_insert_eq. reflexivity.
    + rewrite lookup_insert_ne by exact Hne. exact Hp.
  - destruct (decide (rid' = rid)) as [-> | Hne].
    + apply vote_spec in H as (_ & Hle & _). lia.
    + rewrite (vote_other _ _ _ _ _ _ H Hne). exact Hp.
  - injection H as <-. exact Hp.
  - apply emergency_same in H. by rewrite (get_report_same _ _ rid H).
Qed.

(** Every call moves ETH between the outside accounts and the contract. *)
Lemma exec_eth op m s s' : exec op m s = Some s' -> eth_total s' = eth_total s.
Proof.
  intros H. unfold exec in H. take H.
  apply pay_in_spec in E as (_ & _ & He & _). rewrite <- He.
  destruct op as [| rt tv d h | rid b | |].
  - unfold registerValidator in H. take H. take H. injection H as <-. reflexivity.
  - unfold submitReportWithStake in H. take H. take H. take H. take H.
    injection H as <-. reflexivity.
  - apply vote_spec in H as (_ & _ & _ & _ & Hcase). cbv zeta in Hcase.
    destruct Hcase as [[_ ->] | [_ Hfin]]; [reflexivity |].
    apply finalize_spec in Hfin as (_ & _ & _ & _ & He'). exact He'.
  - injection H as <-. reflexivity.
  - unfold emergencyWithdraw in H. take H. take H.
    apply transfer_to_spec in H as (_ & _ & He'). exact He'.
Qed.

Lemma run_reachable ops s s' : reachable s -> run ops s = Some s' -> reachable s'.
Proof.
  unfold run. revert s s'. induction ops as [| [op m] ops IH] using rev_ind;
    intros s s' Hs H; simpl in H.
  - injection H as <-. exact Hs.
  - rewrite foldl_app in H. simpl in H.
    destruct (foldl _ (Some s) ops) as [s1 |] eqn:E; [| discriminate].
    simpl in H. eapply reachable_step; [| exact H]. eapply IH; eauto.
Qed.

End RegistryInv.

Module EvidenceFacts.
Import Evidence.

Lemma get_evidence_insert s e ev : get_evidence (set_evidence s e ev) e = ev.
Proof. unfold get_evidence, set_evidence; simpl. by rewrite lookup_insert_eq. Qed.

Lemma get_evidence_mk E a b c d f g h e x :
  get_evidence (mkState (<[e:=x]> E) a b c d f g h) e = x.
Proof. unfold get_evidence; simpl. by rewrite lookup_insert_eq. Qed.

Lemma validate_spec m s e v why lvl s' :
  validateEvidence m s e v why lvl = Some s' ->
  let ev := get_evidence s e in
  let ev' := get_evidence s' e in
  validationCount ev' = validationCount ev + 1 /\
  positiveValidations ev' = (if v then positiveValidations ev + 1
                             else positiveValidations ev) /\
  negativeValidations ev' = (if v then negativeValidations ev
                             else negativeValidations ev + 1) /\
  status ev' = (if MIN_VALIDATIONS_REQUIRED <=? validationCount ev + 1
                then (if negativeValidations ev' <? positiveValidations ev'
                      then Validated else Rejected)
                else status ev) /\
  validatorReputation s' =
    (if v then <[sender m := reputation_of s (sender m) + REPUTATION_REWARD_VALIDATION]>
                 (validatorReputation s)
     else validatorReputation s).
Proof.
  unfold validateEvidence. intros H. cbv zeta.
  take H. take H. take H. take H. take H. take H. take H. take H. take H.
  destruct (MIN_VALIDATIONS_REQUIRED <=? _) eqn:Eq;
    injection H as <-; unfold _finalizeValidation.
  - set (s1 := mkState _ _ _ _ _ _ _ _).
    assert (Hg : get_evidence s1 e =
      mkEvidence (evidenceId (get_evidence s e)) (submitter (get_evidence s e))
        (ipfsHash (get_evidence s e)) (evidenceType (get_evidence s e))
        (status (get_evidence s e)) (validationLevel (get_evidence s e))
        (timestamp (get_evidence s e)) (fileSize (get_evidence s e))
        (mimeType (get_evidence s e)) (originalUrl (get_evidence s e))
        (description (get_evidence s e)) true
        (<[sender m := true]> (validators (get_evidence s e)))
        (validationCount (get_evidence s e) + 1)
        (if v then positiveValidations (get_evidence s e) + 1
         else positiveValidations (get_evidence s e))
        (if v then negativeValidations (get_evidence s e)
         else negativeValidations (get_evidence s e) + 1)).
    { unfold s1, get_evidence at 1; simpl. by rewrite lookup_insert_eq. }
    rewrite Hg.
    destruct (_ <? _) eqn:Ec; rewrite get_evidence_insert; simpl;
      simpl in Ec; rewrite ?Ec; repeat split; reflexivity.
  - rewrite get_evidence_mk. simpl. simpl in Eq. rewrite ?Eq. repeat split; reflexivity.
Qed.

End EvidenceFacts.

Module RepSysFacts.
Import RepSys.

Lemma profile_of_set s u p : profile_of (set_profile s u p) u = p.
Proof. unfold profile_of, set_profile; simpl. by rewrite lookup_insert_eq. Qed.

Lemma update_staked_spec u s s' :
  _updateStakedReputation u s = Some s' ->
  baseReputation (profile_of s' u) = baseReputation (profile_of s u) /\
  userStakes s' = userStakes s /\ tokens s' = tokens s /\ held s' = held s /\
  rewardPool s' = rewardPool s /\ pendingRewards s' = pendingRewards s /\
  stakeCounter s' = stakeCounter s /\ paused s' = paused s /\
  owner s' = owner s /\ self s' = self s /\ userStakeCount s' = userStakeCount s /\
  tierThresholds s' = tierThresholds s.
Proof.
  unfold _updateStakedReputation. intros H. takes.
  rewrite profile_of_set. simpl. repeat split.
Qed.

(** [_updateStakedReputation] after a write of the user's profile reverts
    exactly when the loop overflows or the new base plus the staked
    reputation does. *)
Lemma update_staked_set_none u s p :
  _updateStakedReputation u (set_profile s u p) = None <->
  match staked_loop s u with
  | None => True
  | Some t => UINT256_MAX < baseReputation p + t / 10 ^ 18
  end.
Proof.
  unfold _updateStakedReputation.
  change (staked_loop (set_profile s u p) u) with (staked_loop s u).
  destruct (staked_loop s u) as [t|]; simpl; [|tauto].
  rewrite profile_of_set.
  destruct (_ <=? _) eqn:E; simpl.
  - apply Z.leb_le in E. split; [discriminate | lia].
  - apply Z.leb_gt in E. tauto.
Qed.

Lemma bind_some_none {A B} (o : option A) (f : A -> B) :
  (x ← o; Some (f x)) = None <-> o = None.
Proof. destruct o; simpl; split; congruence. Qed.

Lemma safeTransfer_spec u amt s s' :
  safeTransfer u amt s = Some s' ->
  0 <= amt /\
  s' = set_tokens s (<[u := tokens_of s u + amt]> (tokens s)) (held s - amt).
Proof.
  unfold safeTransfer. intros H. take H. injection H as <-.
  apply andb_true_iff in E as [E _]. apply Z.leb_le in E. auto.
Qed.

(** [updateReputation] on the base reputation of the account it adjusts. *)
Lemma updateReputation_base m s u change b s' :
  updateReputation m s u change b = Some s' ->
  ((sender m =? owner s) || (sender m =? self s)) = true /\
  let b0 := baseReputation (profile_of s u) in
  let b1 := if b0 =? 0 then 10 else b0 in
  baseReputation (profile_of s' u)
  = (if 0 <? change then b1 + change
     else if - change <=? b1 then b1 + change else 0).
Proof.
  unfold updateReputation. intros H. take H. split; [reflexivity |].
  cbv zeta. take H. take H. injection H as <-.
  rewrite profile_of_set. simpl.
  apply update_staked_spec in E1 as [-> _]. rewrite profile_of_set.
  destruct (0 <? change) eqn:Ec.
  - destruct (baseReputation (profile_of s u) =? 0);
      take E0; injection E0 as <-; reflexivity.
  - take E0. injection E0 as <-. simpl.
    destruct (baseReputation (profile_of s u) =? 0); simpl;
      destruct (_ <=? _); lia.
Qed.

Lemma withdraw_split_nonneg t st :
  0 <= amount st -> 0 <= (withdraw_split t st).1.
Proof.
  intros Ha. unfold withdraw_split. destruct (_ <? _); simpl; [| lia].
  apply Z.div_pos; unfold SLASHING_PENALTY; lia.
Qed.

(** [withdrawStake] on the ledger. *)
Lemma withdraw_spec m s i s' :
  withdrawStake m s i = Some s' ->
  let u := sender m in
  let st := stake_of s u i in
  let '(penalty, withdrawAmount) := withdraw_split (now m) st in
  active st = true /\ 0 < amount st /\ 0 <= penalty /\
  userStakes s' = <[(u, i) := deactivate st]> (userStakes s) /\
  tokens s' = <[u := tokens_of s u + withdrawAmount]> (tokens s) /\
  held s' = held s - withdrawAmount /\ 0 <= withdrawAmount /\
  totalRewards (rewardPool s') = totalRewards (rewardPool s) + penalty /\
  pendingRewards s' = pendingRewards s /\ stakeCounter s' = stakeCounter s.
Proof.
  unfold withdrawStake. intros H. take H. take H. take H. cbv zeta.
  pose proof (withdraw_split_nonneg (now m) (stake_of s (sender m) i)) as Hp.
  destruct (withdraw_split (now m) (stake_of s (sender m) i)) as [pen amt] eqn:Ew.
  simpl in Hp. apply Z.ltb_lt in E0. specialize (Hp ltac:(lia)).
  take H. take H. take H. apply safeTransfer_spec in E4 as [Ha ->].
  destruct (update_staked_spec _ _ _ E3) as (_ & Hs & Ht & Hh & Hr & Hq & Hc & _).
  destruct (0 <? pen) eqn:Ep; injection H as <-; simpl;
    rewrite ?Hs, ?Ht, ?Hh, ?Hr, ?Hq, ?Hc; simpl;
    unfold tokens_of at 1; rewrite ?Ht; simpl.
  - repeat split; auto; lia.
  - apply Z.ltb_ge in Ep. repeat split; auto; lia.
Qed.

Lemma value_total_eq s s' :
  tokens s' = tokens s -> userStakes s' = userStakes s ->
  totalRewards (rewardPool s') = totalRewards (rewardPool s) ->
  pendingRewards s' = pendingRewards s -> value_total s' = value_total s.
Proof. intros Ht Hs Hr Hp. unfold value_total, active_total. by rewrite Ht, Hs, Hr, Hp. Qed.

Lemma active_total_insert s s' k st :
  userStakes s' = <[k := st]> (userStakes s) ->
  active_total s' = active_total s
    - (if active (default empty_stake (userStakes s !! k))
       then amount (default empty_stake (userStakes s !! k)) else 0)
    + (if active st then amount st else 0).
Proof.
  intros H. unfold active_total. rewrite H.
  apply (map_sumZ_insert (fun st => if active st then amount st else 0) empty_stake).
  reflexivity.
Qed.

Lemma fresh_insert s s' k st :
  stakes_fresh s -> userStakes s !! k <> None ->
  userStakes s' = <[k := st]> (userStakes s) -> stakeCounter s' = stakeCounter s ->
  stakes_fresh s'.
Proof.
  intros Hf Hk Hs Hc u j Hj. rewrite Hs, Hc in *.
  destruct (decide (k = (u, j))) as [-> | Hne].
  - exfalso. apply Hk, Hf. exact Hj.
  - rewrite lookup_insert_ne by exact Hne. by apply Hf.
Qed.

Lemma active_stake_present s u i :
  active (stake_of s u i) = true -> userStakes s !! (u, i) <> None.
Proof. unfold stake_of. intros H E. rewrite E in H. discriminate. Qed.

Lemma withdraw_split_sum t st :
  (withdraw_split t st).1 + (withdraw_split t st).2 = amount st.
Proof. unfold withdraw_split. destruct (_ <? _); simpl; lia. Qed.

Lemma deposit_spec m s amt lock k s' :
  depositStake m s amt lock k = Some s' ->
  userStakes s' = <[(sender m, stakeCounter s + 1) :=
                     mkStake amt (now m) lock k true (stakeTypeMultipliers s k)]>
                    (userStakes s) /\
  tokens s' = <[sender m := tokens_of s (sender m) - amt]> (tokens s) /\
  rewardPool s' = rewardPool s /\ pendingRewards s' = pendingRewards s /\
  stakeCounter s' = stakeCounter s + 1.
Proof.
  unfold depositStake. intros H. take H. take H. take H. take H. take H. take H.
  unfold safeTransferFrom in E4. take E4. injection E4 as <-.
  destruct (update_staked_spec _ _ _ H) as (_ & Hs & Ht & _ & Hr & Hp & Hc & _).
  rewrite Hs, Ht, Hr, Hp, Hc. simpl. repeat split.
Qed.

Lemma slash_spec m s u i s' :
  slashUser m s u i = Some s' ->
  let st := stake_of s u i in
  active st = true /\
  userStakes s' = <[(u, i) := mkStake (amount st - amount st * SLASHING_PENALTY / 100)
                                (stake_timestamp st) (lockPeriod st) (stakeType st)
                                (active st) (reputationMultiplier st)]> (userStakes s) /\
  tokens s' = tokens s /\
  totalRewards (rewardPool s') = totalRewards (rewardPool s) + amount st * SLASHING_PENALTY / 100 /\
  pendingRewards s' = pendingRewards s /\ stakeCounter s' = stakeCounter s.
Proof.
  unfold slashUser. intros H. take H. take H. take H. take H. injection H as <-. cbv zeta.
  destruct (update_staked_spec _ _ _ E2) as (_ & Hs & Ht & _ & Hr & Hp & Hc & _).
  simpl. rewrite Hs, Ht, Hr, Hp, Hc. simpl. repeat split; assumption.
Qed.

Lemma claim_spec m s s' :
  claimRewards m s = Some s' ->
  tokens s' = <[sender m := tokens_of s (sender m) + pending_of s (sender m)]> (tokens s) /\
  pendingRewards s' = <[sender m := 0]> (pendingRewards s) /\
  userStakes s' = userStakes s /\ rewardPool s' = rewardPool s /\
  stakeCounter s' = stakeCounter s.
Proof.
  unfold claimRewards. intros H. take H. take H. take H.
  apply safeTransfer_spec in H as [_ ->]. simpl. repeat split.
Qed.

Lemma updateReputation_ledger m s u c b s' :
  updateReputation m s u c b = Some s' ->
  tokens s' = tokens s /\ userStakes s' = userStakes s /\ rewardPool s' = rewardPool s /\
  pendingRewards s' = pendingRewards s /\ stakeCounter s' = stakeCounter s.
Proof.
  unfold updateReputation. intros H. take H. take H. take H. injection H as <-.
  destruct (update_staked_spec _ _ _ E1) as (_ & Hs & Ht & _ & Hr & Hp & Hc & _).
  simpl. rewrite Hs, Ht, Hr, Hp, Hc. simpl. repeat split.
Qed.

Lemma ledger_same s s' :
  tokens s' = tokens s -> userStakes s' = userStakes s ->
  totalRewards (rewardPool s') = totalRewards (rewardPool s) ->
  pendingRewards s' = pendingRewards s -> stakeCounter s' = stakeCounter s ->
  stakes_fresh s -> value_total s' = value_total s /\ stakes_fresh s'.
Proof.
  intros Ht Hs Hr Hp Hc Hf. split.
  - apply value_total_eq; congruence.
  - intros u j Hj. rewrite Hs. apply Hf. congruence.
Qed.

(** Each call of the ledger keeps [value_total] and the freshness of stake
    ids. *)
Lemma exec_conserves op m s s' :
  stakes_fresh s -> exec op m s = Some s' ->
  value_total s' = value_total s /\ stakes_fresh s'.
Proof.
  intros Hf H. destruct op as [amt lock k | i | u c b | u i | | | | | t x | t x | k x];
    simpl in H.
  - apply deposit_spec in H as (Hs & Ht & Hr & Hp & Hc). split.
    + unfold value_total. rewrite Ht, Hr, Hp, map_sumZ_insert_id.
      rewrite (active_total_insert s s' _ _ Hs), Hf by lia. simpl.
      unfold tokens_of. lia.
    + intros u j Hj. rewrite Hs, lookup_insert_ne by (intros E; injection E; lia).
      apply Hf. lia.
  - pose proof (withdraw_spec _ _ _ _ H) as Hw. cbv zeta in Hw.
    pose proof (withdraw_split_sum (now m) (stake_of s (sender m) i)) as Hsum.
    destruct (withdraw_split (now m) (stake_of s (sender m) i)) as [pen amt] eqn:Ew.
    simpl in Hsum.
    destruct Hw as (Ha & _ & _ & Hs & Ht & _ & _ & Hr & Hp & Hc). split.
    + unfold value_total. rewrite Ht, Hr, Hp, map_sumZ_insert_id.
      rewrite (active_total_insert s s' _ _ Hs). fold (stake_of s (sender m) i).
      rewrite Ha. simpl. unfold tokens_of. lia.
    + eapply fresh_insert; [exact Hf | | exact Hs | exact Hc].
      by apply active_stake_present.
  - apply updateReputation_ledger in H as (Ht & Hs & Hr & Hp & Hc).
    apply ledger_same; try congruence. exact Hf.
  - apply slash_spec in H as (Ha & Hs & Ht & Hr & Hp & Hc). split.
    + unfold value_total. rewrite Ht, Hr, Hp.
      rewrite (active_total_insert s s' _ _ Hs). fold (stake_of s u i).
      rewrite Ha. simpl. lia.
    + eapply fresh_insert; [exact Hf | | exact Hs | exact Hc].
      by apply active_stake_present.
  - unfold distributeRewards in H. take H. take H. injection H as <-.
    by apply ledger_same.
  - apply claim_spec in H as (Ht & Hp & Hs & Hr & Hc). split.
    + unfold value_total, active_total. rewrite Ht, Hp, Hs, Hr, !map_sumZ_insert_id.
      unfold tokens_of, pending_of. lia.
    + intros u j Hj. rewrite Hs. apply Hf. congruence.
  - unfold pause in H. take H. take H. injection H as <-. by apply ledger_same.
  - unfold unpause in H. take H. take H. injection H as <-. by apply ledger_same.
  - unfold updateTierThreshold in H. take H. injection H as <-. by apply ledger_same.
  - take H. injection H as <-. by apply ledger_same.
  - unfold updateStakeTypeMultiplier in H. take H. injection H as <-. by apply ledger_same.
Qed.

Lemma reachable_fresh s : reachable s -> stakes_fresh s.
Proof.
  induction 1 as [o this t | s op m s' _ IH Hx].
  - intros u j _. apply lookup_empty.
  - eapply exec_conserves; eauto.
Qed.

End RepSysFacts.

(** ** PhishBlockRegistry: the vote and dispute counters *)
Module PhishBlockFacts.
Import PhishBlock.

Lemma pb_set_base s b :
  PBRegistry.reports b = PBRegistry.reports (base s) -> pb_ok s -> pb_ok (set_base s b).
Proof.
  intros Hr [H1 H2]. split; [| exact H2].
  intros rid. unfold exists_; simpl. rewrite Hr. apply H1.
Qed.

Lemma update_rep_ok u c s s' :
  _updateReputation u c s = Some s' -> pb_ok s -> pb_ok s'.
Proof.
  unfold _updateReputation. intros H. take H. injection H as <-.
  apply pb_set_base. reflexivity.
Qed.

Lemma set_details_ok s rid d :
  exists_ s rid = true -> pb_ok s ->
  upvotes d = upvotes (details_of s rid) ->
  downvotes d = downvotes (details_of s rid) ->
  disputeCount d = disputeCount (details_of s rid) ->
  pb_ok (set_details s rid d).
Proof.
  intros He [H1 H2] Hu Hd Hc. split.
  - intros r Hr. unfold exists_ in *; simpl in Hr.
    destruct (decide (r = rid)) as [->|Hne]; [congruence|].
    simpl. rewrite lookup_insert_ne by congruence. apply H1. exact Hr.
  - intros r. unfold details_of, votes_of, disputes_of; simpl.
    destruct (decide (r = rid)) as [->|Hne].
    + rewrite lookup_insert_eq. simpl. rewrite Hu, Hd, Hc. apply H2.
    + rewrite lookup_insert_ne by congruence. apply H2.
Qed.

Lemma set_vote_ok s rid v d' nv :
  exists_ s rid = true -> pb_ok s ->
  upvotes d' = upvotes (details_of s rid) - weight_on true (vote_of s rid v)
               + weight_on true nv ->
  downvotes d' = downvotes (details_of s rid) - weight_on false (vote_of s rid v)
                 + weight_on false nv ->
  disputeCount d' = disputeCount (details_of s rid) ->
  pb_ok (set_vote (set_details s rid d') rid v nv).
Proof.
  intros He [H1 H2] Hu Hd Hc. split.
  - intros r Hr. unfold exists_ in *; simpl in Hr.
    destruct (decide (r = rid)) as [->|Hne]; [congruence|].
    simpl. rewrite !lookup_insert_ne by congruence. apply H1. exact Hr.
  - intros r. unfold details_of, votes_of, disputes_of; simpl.
    destruct (decide (r = rid)) as [->|Hne].
    + rewrite !lookup_insert_eq. simpl.
      destruct (H2 rid) as (Hu0 & Hd0 & Hc0).
      unfold details_of, votes_of, disputes_of in Hu0, Hd0, Hc0.
      unfold vote_of, votes_of, details_of in Hu, Hd, Hc.
      rewrite Hu, Hd, Hc, Hu0, Hd0, Hc0.
      rewrite !(map_sumZ_insert _ empty_vote) by reflexivity.
      repeat split; lia.
    + rewrite !lookup_insert_ne by congruence. apply H2.
Qed.

Lemma vote_ok m s rid b s' : pb_ok s -> vote m s rid b = Some s' -> pb_ok s'.
Proof.
  intros Hok H. unfold vote in H. do 5 take H.
  destruct (hasVoted (vote_of s rid (sender m))) eqn:Ehv.
  - destruct (Bool.eqb (isUpvote (vote_of s rid (sender m))) b) eqn:Eeq.
    { injection H as <-. exact Hok. }
    destruct (isUpvote (vote_of s rid (sender m))) eqn:Eup; destruct b;
      try discriminate Eeq;
      unfold sub256, add256, int256_sub in H; takes;
      apply set_vote_ok; auto; simpl; unfold weight_on; rewrite ?Ehv, ?Eup; simpl; lia.
  - unfold add256, int256_sub in H.
    destruct b; takes;
      apply set_vote_ok; auto; simpl; unfold weight_on; rewrite ?Ehv; simpl; lia.
Qed.

Lemma base_submit_reports m b0 rid url w d h b :
  PBRegistry.submitReport m b0 rid url w d h = Some b ->
  PBRegistry.reports b = <[rid := (sender m, url, w)]> (PBRegistry.reports b0).
Proof. unfold PBRegistry.submitReport. intros H. takes. reflexivity. Qed.

Lemma submit_ok m s rid url w d h t s' :
  pb_ok s -> PBRegistry.reports (base s) !! rid = None ->
  submitReport m s rid url w d h t = Some s' -> pb_ok s'.
Proof.
  intros [H1 H2] Hfresh H. unfold submitReport in H. takes.
  match goal with E : PBRegistry.submitReport _ _ _ _ _ _ _ = Some _ |- _ =>
    apply base_submit_reports in E; rename E into Hb end.
  assert (Hn : exists_ s rid = false) by (unfold exists_; rewrite Hfresh; reflexivity).
  destruct (H1 rid Hn) as (Hd0 & Hv0 & Hp0).
  split.
  - intros r Hr. unfold exists_ in Hr; simpl in Hr. rewrite Hb in Hr.
    destruct (decide (r = rid)) as [->|Hne].
    + rewrite lookup_insert_eq in Hr. discriminate.
    + rewrite lookup_insert_ne in Hr by congruence. simpl.
      rewrite lookup_insert_ne by congruence. apply H1. exact Hr.
  - intros r. unfold details_of, votes_of, disputes_of; simpl.
    destruct (decide (r = rid)) as [->|Hne].
    + rewrite lookup_insert_eq, Hv0, Hp0. simpl.
      unfold map_sumZ. rewrite !map_fold_empty. repeat split.
    + rewrite lookup_insert_ne by congruence. apply H2.
Qed.

Lemma dispute_ok m s rid why s' :
  pb_ok s -> raiseDispute m s rid why = Some s' -> pb_ok s'.
Proof.
  intros [H1 H2] H. unfold raiseDispute, add256 in H. takes.
  split.
  - intros r Hr. unfold exists_ in *; simpl in Hr.
    destruct (decide (r = rid)) as [->|Hne]; [congruence|].
    simpl. rewrite !lookup_insert_ne by congruence. apply H1. exact Hr.
  - intros r. unfold details_of, votes_of, disputes_of; simpl.
    destruct (decide (r = rid)) as [->|Hne].
    + rewrite !lookup_insert_eq. simpl.
      destruct (H2 rid) as (Hu0 & Hd0 & Hc0).
      unfold details_of, votes_of, disputes_of in Hu0, Hd0, Hc0.
      rewrite length_app. simpl. repeat split; [exact Hu0 | exact Hd0 | lia].
    + rewrite !lookup_insert_ne by congruence. apply H2.
Qed.

Lemma status_ok m s rid st s' :
  pb_ok s -> updateReportStatus m s rid st = Some s' -> pb_ok s'.
Proof.
  intros Hok H. unfold updateReportStatus in H. takes.
  assert (Hs1 : pb_ok (set_details s rid (with_status (details_of s rid) st)))
    by (apply set_details_ok; auto).
  destruct st; try (injection H as <-; exact Hs1); eapply update_rep_ok; eauto.
Qed.

Lemma exec_pb_ok op m s s' :
  pb_ok s -> fresh_id op s -> exec op m s = Some s' -> pb_ok s'.
Proof.
  intros Hok Hf H. unfold exec in H. take H.
  destruct op; simpl in Hf.
  - eapply submit_ok; eauto.
  - eapply vote_ok; eauto.
  - eapply dispute_ok; eauto.
  - eapply status_ok; eauto.
  - unfold addToBlacklist in H. takes. apply pb_set_base; [destruct isUrl|]; auto.
  - unfold removeFromBlacklist in H. takes. apply pb_set_base; [destruct isUrl|]; auto.
  - unfold pause in H. takes. apply pb_set_base; auto.
  - unfold unpause in H. takes. apply pb_set_base; auto.
  - unfold emergencyUpdateReputation in H. takes. apply pb_set_base; auto.
Qed.

End PhishBlockFacts.

(** ** PhishBlockRegistry: the rate limit of [submitReport] *)
Module PhishBlockRate.
Import PhishBlock.

Lemma base_submit_counts m b0 rid url w d h b :
  PBRegistry.submitReport m b0 rid url w d h = Some b ->
  let l := PBRegistry.last_of b0 (sender m) in
  let c := PBRegistry.count_of b0 (sender m) in
  l <= now m /\
  (PBRegistry.RATE_LIMIT_WINDOW <= now m - l \/ c < PBRegistry.MAX_SUBMISSIONS_PER_WINDOW) /\
  (forall v, PBRegistry.last_of b v
             = if decide (v = sender m) then now m else PBRegistry.last_of b0 v) /\
  (forall v, PBRegistry.count_of b v
             = if decide (v = sender m)
               then (if PBRegistry.RATE_LIMIT_WINDOW <=? now m - l then 1 else c + 1)
               else PBRegistry.count_of b0 v).
Proof.
  unfold PBRegistry.submitReport. intros H. takes. cbv zeta.
  repeat match goal with E : (_ <=? _) = true |- _ => apply Z.leb_le in E end.
  split; [assumption|]. split.
  { match goal with E : (_ || _) = true |- _ =>
      apply orb_true_iff in E; destruct E as [E|E]; [apply Z.leb_le in E | apply Z.ltb_lt in E] end;
    [left | right]; assumption. }
  split; intros v; unfold PBRegistry.last_of, PBRegistry.count_of; simpl;
    (destruct (decide (v = sender m)) as [->|Hne];
     [rewrite lookup_insert_eq; reflexivity | rewrite lookup_insert_ne by congruence; reflexivity]).
Qed.

Lemma set_rep_counts s v r u :
  last_u (set_rep s v r) u = last_u s u /\ count_u (set_rep s v r) u = count_u s u.
Proof. split; reflexivity. Qed.

Lemma update_rep_counts v c s s' u :
  _updateReputation v c s = Some s' -> last_u s' u = last_u s u /\ count_u s' u = count_u s u.
Proof. unfold _updateReputation. intros H. takes. split; reflexivity. Qed.

Lemma exec_other_counts op m s s' u :
  exec op m s = Some s' ->
  (forall rid url w d h t, op = SubmitReport rid url w d h t -> sender m <> u) ->
  last_u s' u = last_u s u /\ count_u s' u = count_u s u.
Proof.
  intros H Hop. unfold exec in H. take H.
  destruct op as [rid url w d h t | rid b | rid why | rid st | x b | x b | | | v r].
  - specialize (Hop _ _ _ _ _ _ eq_refl).
    unfold submitReport in H. takes.
    match goal with E : PBRegistry.submitReport _ _ _ _ _ _ _ = Some _ |- _ =>
      apply base_submit_counts in E; destruct E as (_ & _ & Hl & Hc) end.
    unfold last_u, count_u; simpl. rewrite Hl, Hc.
    destruct (decide (u = sender m)); [congruence | split; reflexivity].
  - unfold vote in H. takes.
    destruct (hasVoted (vote_of s rid (sender m))).
    + destruct (Bool.eqb (isUpvote (vote_of s rid (sender m))) b).
      * assert (s' = s) as -> by congruence. split; reflexivity.
      * destruct (isUpvote (vote_of s rid (sender m))); destruct b;
          unfold sub256, add256, int256_sub in H; takes; split; reflexivity.
    + destruct b; unfold add256, int256_sub in H; takes; split; reflexivity.
  - unfold raiseDispute in H. takes. split; reflexivity.
  - unfold updateReportStatus in H. takes.
    destruct st; try (injection H as <-; split; reflexivity);
      exact (update_rep_counts _ _ _ _ u H).
  - unfold addToBlacklist, set_listed in H. takes. destruct b; split; reflexivity.
  - unfold removeFromBlacklist, set_listed in H. takes. destruct b; split; reflexivity.
  - unfold pause in H. takes. split; reflexivity.
  - unfold unpause in H. takes. split; reflexivity.
  - unfold emergencyUpdateReputation in H. takes. split; reflexivity.
Qed.

Lemma exec_submit_counts rid url w d h t m s s' :
  exec (SubmitReport rid url w d h t) m s = Some s' ->
  let l := last_u s (sender m) in
  let c := count_u s (sender m) in
  l <= now m /\ last_u s' (sender m) = now m /\
  ((PBRegistry.RATE_LIMIT_WINDOW <= now m - l /\ count_u s' (sender m) = 1) \/
   (now m - l < PBRegistry.RATE_LIMIT_WINDOW /\
    c < PBRegistry.MAX_SUBMISSIONS_PER_WINDOW /\ count_u s' (sender m) = c + 1)).
Proof.
  unfold exec. intros H. take H. unfold submitReport in H. takes.
  match goal with E : PBRegistry.submitReport _ _ _ _ _ _ _ = Some _ |- _ =>
    apply base_submit_counts in E; destruct E as (Hle & Hor & Hl & Hc) end.
  unfold last_u, count_u; simpl. rewrite Hl, Hc.
  destruct (decide (sender m = sender m)) as [_|]; [|congruence].
  split; [exact Hle|]. split; [reflexivity|].
  destruct (PBRegistry.RATE_LIMIT_WINDOW <=? _) eqn:Ew;
    [apply Z.leb_le in Ew | apply Z.leb_gt in Ew]; [left | right]; lia.
Qed.

Lemma rate_inv_submit s s' u hist t :
  rate_inv s u hist ->
  last_u s u <= t -> last_u s' u = t ->
  ((PBRegistry.RATE_LIMIT_WINDOW <= t - last_u s u /\ count_u s' u = 1) \/
   (t - last_u s u < PBRegistry.RATE_LIMIT_WINDOW /\
    count_u s u < PBRegistry.MAX_SUBMISSIONS_PER_WINDOW /\
    count_u s' u = count_u s u + 1)) ->
  rate_inv s' u (hist ++ [t]).
Proof.
  intros (Hc & Hle & Hblk & Hsp) Hlt Hl' Hcase.
  unfold PBRegistry.MAX_SUBMISSIONS_PER_WINDOW in Hcase.
  assert (Hc' : 1 <= count_u s' u <= 5) by lia.
  assert (Hblk' : forall i a, (hist ++ [t]) !! i = Some a ->
            last_u s' u - a < PBRegistry.RATE_LIMIT_WINDOW ->
            Z.of_nat (length (hist ++ [t])) - Z.of_nat i <= count_u s' u).
  { intros i a Ha Hw. rewrite length_app; simpl.
    apply lookup_app_Some in Ha as [Ha | [Hi Ha]].
    - pose proof (lookup_lt_Some _ _ _ Ha) as Hi.
      assert (Hin : a ∈ hist) by (eapply list_elem_of_lookup_2; eauto).
      specialize (Hle a Hin).
      destruct Hcase as [[Hg Hn] | [Hg [Hn Hn']]].
      + lia.
      + assert (last_u s u - a < PBRegistry.RATE_LIMIT_WINDOW) by lia.
        specialize (Hblk i a Ha H). lia.
    - apply list_lookup_singleton_Some in Ha as [Hi0 <-].
      assert (i = length hist) by lia. subst i. lia. }
  split; [lia|]. split; [|split; [exact Hblk'|]].
  - intros a Ha. apply elem_of_app in Ha as [Ha | Ha].
    + specialize (Hle a Ha). lia.
    + apply list_elem_of_singleton in Ha. lia.
  - intros i a b Ha Hb.
    apply lookup_app_Some in Hb as [Hb | [Hi Hb]].
    + pose proof (lookup_lt_Some _ _ _ Hb).
      rewrite lookup_app_l in Ha by lia. eapply Hsp; eauto.
    + apply list_lookup_singleton_Some in Hb as [Hi0 <-].
      pose proof (lookup_lt_Some _ _ _ Ha) as Hia.
      rewrite length_app in Hia; simpl in Hia.
      destruct (Z_lt_le_dec (t - a) PBRegistry.RATE_LIMIT_WINDOW) as [Hw|Hw]; [|exact Hw].
      exfalso. rewrite <- Hl' in Hw. specialize (Hblk' i a Ha Hw).
      rewrite length_app in Hblk'; simpl in Hblk'. lia.
Qed.

Lemma pb_run_none ops : foldl (fun acc om => s1 ← acc; exec om.1 om.2 s1) None ops = None.
Proof. induction ops; simpl; auto. Qed.

Lemma pb_run_cons om ops s :
  run (om :: ops) s = match exec om.1 om.2 s with Some s1 => run ops s1 | None => None end.
Proof.
  unfold run. simpl. destruct (exec om.1 om.2 s); [reflexivity | apply pb_run_none].
Qed.

Lemma run_rate_inv u ops : forall s hist s',
  run ops s = Some s' -> rate_inv s u hist -> rate_inv s' u (hist ++ submit_times u ops).
Proof.
  induction ops as [| [op m] ops IH]; intros s hist s' Hrun Hinv.
  - unfold run in Hrun; simpl in Hrun. injection Hrun as <-. rewrite app_nil_r. exact Hinv.
  - rewrite pb_run_cons in Hrun. simpl in Hrun.
    destruct (exec op m s) as [s1|] eqn:Hx; [|discriminate].
    destruct op as [rid url w d h t | | | | | | | |];
      try (simpl; apply (IH s1); [exact Hrun|];
           destruct (exec_other_counts _ _ _ _ u Hx) as [Hl Hc]; [intros; discriminate|];
           unfold rate_inv in *; rewrite Hl, Hc; exact Hinv).
    simpl. destruct (Z.eqb_spec (sender m) u) as [<- | Hne].
    + rewrite cons_middle, app_assoc. apply (IH s1); [exact Hrun|].
      destruct (exec_submit_counts _ _ _ _ _ _ _ _ _ Hx) as (Hle & Hl & Hcase).
      eapply rate_inv_submit; eauto.
    + apply (IH s1); [exact Hrun|].
      destruct (exec_other_counts _ _ _ _ u Hx) as [Hl Hc].
      { intros ? ? ? ? ? ? Heq. injection Heq. intros. congruence. }
      unfold rate_inv in *; rewrite Hl, Hc; exact Hinv.
Qed.

Lemma reachable_count_nonneg s : reachable s -> forall u, 0 <= count_u s u.
Proof.
  induction 1 as [o | s op m s' _ IH _ Hx]; intros u.
  - unfold count_u, PBRegistry.count_of; simpl. rewrite lookup_empty. simpl. lia.
  - destruct op as [rid url w d h t | | | | | | | |];
      try (destruct (exec_other_counts _ _ _ _ u Hx) as [_ ->]; [intros; discriminate | apply IH]).
    destruct (Z.eq_dec (sender m) u) as [<- | Hne].
    + destruct (exec_submit_counts _ _ _ _ _ _ _ _ _ Hx) as (_ & _ & [[_ ->] | (_ & _ & ->)]);
        [lia | specialize (IH (sender m)); lia].
    + destruct (exec_other_counts _ _ _ _ u Hx) as [_ ->]; [|apply IH].
      intros ? ? ? ? ? ? Heq. injection Heq. intros. congruence.
Qed.

End PhishBlockRate.

(** ** EvidenceValidator: the validator list and the validation results *)
Module EvAdminFacts.
Import EvidenceAdmin.

Lemma remove_validator_perm v l :
  v ∈ l -> exists rest, remove_validator v l ≡ₚ rest /\ l ≡ₚ v :: rest.
Proof.
  intros Hv. unfold remove_validator.
  destruct (list_find (fun x => x = v) l) as [[i y]|] eqn:Hf.
  2: { apply list_find_None in Hf. rewrite Forall_forall in Hf.
       exfalso; exact (Hf v Hv eq_refl). }
  apply list_find_Some in Hf as (Hly & -> & _).
  pose proof (take_drop_middle l i v Hly) as Hl.
  assert (Hi : length (take i l) = i).
  { rewrite length_take. apply lookup_lt_Some in Hly. lia. }
  revert Hl Hi. generalize (take i l) (drop (S i) l). intros a b Hl Hi.
  subst l i. clear Hly.
  induction b as [|z b' _] using rev_ind.
  - exists a. rewrite last_snoc. simpl.
    rewrite list_insert_id by (rewrite lookup_app_r by lia;
                               rewrite Nat.sub_diag; reflexivity).
    rewrite length_app. simpl. replace (length a + 1 - 1)%nat with (length a) by lia.
    rewrite take_app_length. split; [reflexivity|].
    symmetry. apply Permutation_cons_append.
  - exists (a ++ b' ++ [z]).
    replace (a ++ v :: b' ++ [z]) with ((a ++ v :: b') ++ [z])
      by (rewrite <- app_assoc; reflexivity).
    rewrite last_snoc. simpl.
    rewrite <- app_assoc. simpl.
    replace (length a) with (length a + 0)%nat by lia.
    rewrite insert_app_r. simpl.
    rewrite !length_app. simpl. rewrite length_app. simpl.
    replace (a ++ z :: b' ++ [z]) with ((a ++ z :: b') ++ [z])
      by (rewrite <- app_assoc; reflexivity).
    rewrite take_app_length' by (rewrite length_app; simpl; lia). split.
    + apply Permutation_app_head. apply Permutation_cons_append.
    + symmetry. apply Permutation_middle.
Qed.

Lemma remove_validator_absent v l : v ∉ l -> remove_validator v l = l.
Proof.
  intros Hv. unfold remove_validator.
  destruct (list_find (fun x => x = v) l) as [[i y]|] eqn:Hf; [|reflexivity].
  apply list_find_Some in Hf as (Hly & -> & _).
  exfalso. apply Hv. eapply list_elem_of_lookup_2; eauto.
Qed.

Lemma remove_validator_spec v l :
  NoDup l -> NoDup (remove_validator v l) /\
  (forall x, x ∈ remove_validator v l <-> x ∈ l /\ x <> v).
Proof.
  intros Hnd. destruct (decide (v ∈ l)) as [Hv|Hv].
  - destruct (remove_validator_perm v l Hv) as (rest & H1 & H2).
    rewrite H2 in Hnd. apply NoDup_cons in Hnd as [Hvr Hnd].
    split; [by rewrite H1|].
    intros x. rewrite H1, H2, elem_of_cons. split.
    + intros Hx. split; [by right|]. intros ->. contradiction.
    + intros [[->|Hx] Hne]; [contradiction|exact Hx].
  - rewrite remove_validator_absent by exact Hv. split; [exact Hnd|].
    intros x. split; [|tauto]. intros Hx. split; [exact Hx|]. intros ->. contradiction.
Qed.

Lemma ev_submit_auth m c eid h t sz mime url d c' :
  Evidence.submitEvidence m c eid h t sz mime url d = Some c' ->
  Evidence.authorizedValidators c' = Evidence.authorizedValidators c.
Proof. unfold Evidence.submitEvidence. intros H. takes. reflexivity. Qed.

Lemma ev_validate_auth m c e b why lvl c' :
  Evidence.validateEvidence m c e b why lvl = Some c' ->
  Evidence.authorizedValidators c' = Evidence.authorizedValidators c.
Proof.
  unfold Evidence.validateEvidence. intros H. cbv zeta in H. takes.
  destruct (_ <=? _) in H; injection H as <-; [|reflexivity].
  unfold Evidence._finalizeValidation. destruct (_ <? _); reflexivity.
Qed.

Lemma ev_status_auth m c e st c' :
  Evidence.emergencyUpdateEvidenceStatus m c e st = Some c' ->
  Evidence.authorizedValidators c' = Evidence.authorizedValidators c.
Proof. unfold Evidence.emergencyUpdateEvidenceStatus. intros H. takes. reflexivity. Qed.

Lemma exec_validators_listed op m s s' :
  validators_listed s -> exec op m s = Some s' -> validators_listed s'.
Proof.
  unfold validators_listed, Evidence.authorized. intros [Hnd Hin] H.
  unfold exec in H. take H.
  destruct op; simpl in H.
  - unfold submitEvidence in H. takes. simpl.
    erewrite ev_submit_auth by eassumption. auto.
  - unfold validateEvidence in H. takes. simpl.
    erewrite ev_validate_auth by eassumption. auto.
  - unfold updateIPFSMetadata in H. takes. auto.
  - unfold updateContentAnalysis in H. takes. auto.
  - unfold authorizeValidator, Evidence.authorizeValidator in H. takes. simpl.
    unfold Evidence.authorized in *.
    assert (Hv : v ∉ validatorList s).
    { rewrite Hin. destruct (default false _); simpl in *; congruence. }
    split.
    + apply NoDup_app. split; [exact Hnd|]. split; [|apply NoDup_singleton].
      intros x Hx Hx'. apply list_elem_of_singleton in Hx'. subst. contradiction.
    + intros x. rewrite elem_of_app, list_elem_of_singleton.
      destruct (decide (x = v)) as [->|Hne].
      * rewrite lookup_insert_eq. simpl. tauto.
      * rewrite lookup_insert_ne by congruence. rewrite Hin. tauto.
  - unfold deauthorizeValidator in H. takes. simpl.
    destruct (remove_validator_spec v _ Hnd) as [Hnd' Hin']. split; [exact Hnd'|].
    intros x. rewrite Hin'. destruct (decide (x = v)) as [->|Hne].
    + rewrite lookup_insert_eq. simpl. split; [tauto|discriminate].
    + rewrite lookup_insert_ne by congruence. rewrite Hin. tauto.
  - unfold addMaliciousPattern in H. takes. auto.
  - unfold addSuspiciousDomain in H. takes. auto.
  - unfold pause in H. takes. auto.
  - unfold unpause in H. takes. auto.
  - unfold emergencyUpdateValidatorReputation in H. takes. auto.
  - unfold emergencyUpdateEvidenceStatus in H. takes. simpl.
    erewrite ev_status_auth by eassumption. auto.
Qed.

Lemma results_ok_with_status ev st rs :
  results_ok ev rs -> results_ok (Evidence.with_status ev st) rs.
Proof. unfold results_ok. simpl. tauto. Qed.

Lemma set_status_core_ok c e st :
  core_ok c -> core_ok (Evidence.set_evidence c e (Evidence.with_status (Evidence.get_evidence c e) st)).
Proof.
  intros [Hok Hnone]. split.
  - intros e'. unfold Evidence.results_of, Evidence.get_evidence at 1. simpl.
    destruct (decide (e' = e)) as [->|Hne].
    + rewrite lookup_insert_eq. simpl. apply results_ok_with_status, Hok.
    + rewrite lookup_insert_ne by congruence. apply Hok.
  - intros e'. simpl. destruct (decide (e' = e)) as [->|Hne].
    + rewrite lookup_insert_eq. discriminate.
    + rewrite lookup_insert_ne by congruence. apply Hnone.
Qed.

Lemma results_ok_validate ev rs (b : bool) why lvl t v :
  results_ok ev rs -> default false (Evidence.validators ev !! v) = false ->
  results_ok
    (Evidence.mkEvidence (Evidence.evidenceId ev) (Evidence.submitter ev)
       (Evidence.ipfsHash ev) (Evidence.evidenceType ev) (Evidence.status ev)
       (Evidence.validationLevel ev) (Evidence.timestamp ev) (Evidence.fileSize ev)
       (Evidence.mimeType ev) (Evidence.originalUrl ev) (Evidence.description ev)
       (Evidence.exists_ ev) (<[v := true]> (Evidence.validators ev))
       (Evidence.validationCount ev + 1)
       (if b then Evidence.positiveValidations ev + 1 else Evidence.positiveValidations ev)
       (if b then Evidence.negativeValidations ev else Evidence.negativeValidations ev + 1))
    (rs ++ [Evidence.mkResult v b why t lvl]).
Proof.
  intros (Hnd & Hflag & Hc & Hp & Hn) Hv. unfold results_ok. simpl.
  assert (Hnot : v ∉ map Evidence.validator rs).
  { rewrite <- Hflag. rewrite Hv. discriminate. }
  rewrite map_app. simpl. split; [|split; [|split; [|split]]].
  - apply NoDup_app. split; [exact Hnd|]. split; [|apply NoDup_singleton].
    intros x Hx Hx'. apply list_elem_of_singleton in Hx'. subst. contradiction.
  - intros x. rewrite elem_of_app, list_elem_of_singleton.
    destruct (decide (x = v)) as [->|Hne].
    + rewrite lookup_insert_eq. simpl. tauto.
    + rewrite lookup_insert_ne by congruence. rewrite Hflag. tauto.
  - rewrite length_app. simpl. lia.
  - rewrite filter_app, length_app. destruct b; simpl; lia.
  - rewrite filter_app, length_app. destruct b; simpl; lia.
Qed.

Lemma ev_validate_core_ok m c e b why lvl c' :
  core_ok c -> Evidence.validateEvidence m c e b why lvl = Some c' -> core_ok c'.
Proof.
  intros [Hok Hnone] H. unfold Evidence.validateEvidence in H. cbv zeta in H. takes.
  set (s1 := Evidence.mkState _ _ _ _ _ _ _ _) in H.
  assert (Hs1 : core_ok s1).
  { assert (Hex : Evidence.evidence c !! e <> None).
    { intros Hn. unfold Evidence.get_evidence in *. rewrite Hn in *. discriminate. }
    split.
    - intros e'. unfold s1, Evidence.results_of, Evidence.get_evidence at 1. simpl.
      destruct (decide (e' = e)) as [->|Hne].
      + rewrite !lookup_insert_eq. simpl. apply results_ok_validate; [apply Hok|].
        destruct (default false _) eqn:Ef; [simpl in *; congruence|reflexivity].
      + rewrite !lookup_insert_ne by congruence. apply Hok.
    - intros e'. unfold s1. simpl. destruct (decide (e' = e)) as [->|Hne].
      + rewrite lookup_insert_eq. discriminate.
      + rewrite !lookup_insert_ne by congruence. apply Hnone. }
  destruct (_ <=? _) in H; injection H as <-; [|exact Hs1].
  unfold Evidence._finalizeValidation. destruct (_ <? _); apply set_status_core_ok, Hs1.
Qed.

Lemma exec_core_ok op m s s' :
  core_ok (core s) -> fresh_id op s -> exec op m s = Some s' -> core_ok (core s').
Proof.
  intros Hc Hf H. unfold exec in H. take H.
  destruct op; simpl in H.
  - unfold submitEvidence, Evidence.submitEvidence in H. takes. simpl in *.
    destruct Hc as [Hok Hnone]. split.
    + intros e'. unfold Evidence.results_of, Evidence.get_evidence at 1. simpl.
      destruct (decide (e' = eid)) as [->|Hne].
      * rewrite lookup_insert_eq. unfold Evidence.results_of.
        rewrite (Hnone eid Hf). unfold Evidence.get_evidence. rewrite Hf. simpl.
        unfold results_ok. simpl. split; [constructor|]. split; [|lia].
        intros x. rewrite lookup_empty. simpl. split; [discriminate|].
        intros Hx. apply elem_of_nil in Hx. contradiction.
      * rewrite lookup_insert_ne by congruence. apply Hok.
    + intros e'. simpl. destruct (decide (e' = eid)) as [->|Hne].
      * rewrite lookup_insert_eq. discriminate.
      * rewrite lookup_insert_ne by congruence. apply Hnone.
  - unfold validateEvidence in H. takes. simpl. eapply ev_validate_core_ok; eassumption.
  - unfold updateIPFSMetadata in H. takes. exact Hc.
  - unfold updateContentAnalysis in H. takes. exact Hc.
  - unfold authorizeValidator, Evidence.authorizeValidator in H. takes. exact Hc.
  - unfold deauthorizeValidator in H. takes. exact Hc.
  - unfold addMaliciousPattern in H. takes. exact Hc.
  - unfold addSuspiciousDomain in H. takes. exact Hc.
  - unfold pause in H. takes. exact Hc.
  - unfold unpause in H. takes. exact Hc.
  - unfold emergencyUpdateValidatorReputation in H. takes. exact Hc.
  - unfold emergencyUpdateEvidenceStatus, Evidence.emergencyUpdateEvidenceStatus in H.
    takes. simpl. apply set_status_core_ok, Hc.
Qed.

Lemma reachable_core_ok s : reachable s -> core_ok (core s).
Proof.
  induction 1 as [o|s op m s' _ IH Hf H].
  - split; [|reflexivity]. intros e.
    unfold Evidence.results_of, Evidence.get_evidence. simpl. rewrite !lookup_empty. simpl.
    unfold results_ok. simpl. split; [constructor|]. split; [|lia].
    intros x. rewrite lookup_empty. simpl. split; [discriminate|].
    intros Hx. apply elem_of_nil in Hx. contradiction.
  - eapply exec_core_ok; eassumption.
Qed.

Lemma ev_run_none ops : foldl (fun acc om => s1 ← acc; exec om.1 om.2 s1) None ops = None.
Proof. induction ops; simpl; auto. Qed.

Lemma ev_run_cons om ops s :
  run (om :: ops) s = match exec om.1 om.2 s with Some s1 => run ops s1 | None => None end.
Proof.
  unfold run. simpl. destruct (exec om.1 om.2 s); [reflexivity | apply ev_run_none].
Qed.

(** What every call keeps: known hashes stay known, and the id list only
    grows at its end. *)
Lemma exec_keeps op m s s' :
  exec op m s = Some s' ->
  (forall h, known s h = true -> known s' h = true) /\
  exists l, Evidence.allEvidenceIds (core s') = Evidence.allEvidenceIds (core s) ++ l.
Proof.
  intros H. unfold exec in H. take H.
  assert (Hid : forall c, (forall h, default false (Evidence.knownIPFSHashes c !! h) = true ->
                               default false (Evidence.knownIPFSHashes c !! h) = true) /\
                exists l, Evidence.allEvidenceIds c = Evidence.allEvidenceIds c ++ l).
  { intros c. split; [auto|]. exists []. by rewrite app_nil_r. }
  unfold known. destruct op; simpl in H.
  - unfold submitEvidence, Evidence.submitEvidence in H. takes. simpl. split.
    + intros x Hx. destruct (decide (x = h)) as [->|Hne].
      * by rewrite lookup_insert_eq.
      * by rewrite lookup_insert_ne by congruence.
    + eexists; reflexivity.
  - unfold validateEvidence in H.
    destruct (Evidence.validateEvidence _ _ _ _ _ _) as [c|] eqn:H'; [|discriminate].
    simpl in H. injection H as <-. simpl.
    unfold Evidence.validateEvidence in H'. cbv zeta in H'. takes.
    destruct (_ <=? _) in H'; injection H' as <-; simpl; [|exact (Hid (core s))].
    unfold Evidence._finalizeValidation. destruct (_ <? _); exact (Hid (core s)).
  - unfold updateIPFSMetadata in H. takes. exact (Hid (core s)).
  - unfold updateContentAnalysis in H. takes. exact (Hid (core s)).
  - unfold authorizeValidator, Evidence.authorizeValidator in H. takes. exact (Hid (core s)).
  - unfold deauthorizeValidator in H. takes. exact (Hid (core s)).
  - unfold addMaliciousPattern in H. takes. exact (Hid (core s)).
  - unfold addSuspiciousDomain in H. takes. exact (Hid (core s)).
  - unfold pause in H. takes. exact (Hid (core s)).
  - unfold unpause in H. takes. exact (Hid (core s)).
  - unfold emergencyUpdateValidatorReputation in H. takes. exact (Hid (core s)).
  - unfold emergencyUpdateEvidenceStatus, Evidence.emergencyUpdateEvidenceStatus in H.
    takes. exact (Hid (core s)).
Qed.

Lemma run_keeps ops : forall s s',
  run ops s = Some s' ->
  (forall h, known s h = true -> known s' h = true) /\
  exists l, Evidence.allEvidenceIds (core s') = Evidence.allEvidenceIds (core s) ++ l.
Proof.
  induction ops as [|[op m] ops IH]; intros s s' H.
  - unfold run in H. simpl in H. injection H as <-. split; [auto|].
    exists []. by rewrite app_nil_r.
  - rewrite ev_run_cons in H. simpl in H.
    destruct (exec op m s) as [s1|] eqn:Hx; [|discriminate].
    destruct (exec_keeps _ _ _ _ Hx) as [Hk1 [l1 Hl1]].
    destruct (IH _ _ H) as [Hk2 [l2 Hl2]]. split; [auto|].
    exists (l1 ++ l2). by rewrite Hl2, Hl1, app_assoc.
Qed.

End EvAdminFacts.

(** ** ReputationSystem: pending rewards and stake counts *)
Module RepSysMore.
Import RepSys RepSysFacts.

Lemma count_insert (c : gmap Z Z) u n :
  (forall x, 0 <= default 0 (c !! x) <= MAX_STAKES_PER_USER) ->
  0 <= n <= MAX_STAKES_PER_USER ->
  forall x, 0 <= default 0 (<[u := n]> c !! x) <= MAX_STAKES_PER_USER.
Proof.
  intros Hc Hn x. destruct (decide (x = u)) as [->|Hne].
  - by rewrite lookup_insert_eq.
  - rewrite lookup_insert_ne by congruence. apply Hc.
Qed.

Ltac staked_frame :=
  match goal with
  | Hu : _updateStakedReputation _ _ = Some _ |- _ =>
      destruct (update_staked_spec _ _ _ Hu) as (_&_&_&_&_&HQ&_&_&_&_&HK&_); clear Hu
  end.

Lemma exec_ledger_ok op m s s' :
  ledger_ok s -> exec op m s = Some s' -> ledger_ok s'.
Proof.
  unfold ledger_ok, pending_of, count_of. intros [Hp Hc] H.
  destruct op as [amt lock k | i | u c b | u i | | | | | t x | t x | k x];
    simpl in H.
  - unfold depositStake, whenNotPaused, safeTransferFrom in H. takes. staked_frame.
    rewrite HQ, HK. simpl.
    split; [exact Hp|]. apply count_insert; [exact Hc|].
    apply Z.ltb_lt in E3. specialize (Hc (sender m)). change (0 <= count_of s (sender m) + 1 <= MAX_STAKES_PER_USER). unfold count_of in *. lia.
  - unfold withdrawStake, whenNotPaused in H. cbv zeta in H. takes.
    destruct (withdraw_split _ _) as [pen wa]. takes.
    unfold safeTransfer in *. takes. staked_frame.
    destruct (0 <? pen); simpl; rewrite HQ, HK; simpl;
      (split; [exact Hp|]; apply count_insert; [exact Hc|];
       apply Z.leb_le in E2; specialize (Hc (sender m)); unfold count_of in *; simpl; lia).
  - unfold updateReputation in H. cbv zeta in H. takes. staked_frame.
    simpl. rewrite HQ, HK. simpl. auto.
  - unfold slashUser, onlyOwner in H. cbv zeta in H. takes. staked_frame.
    simpl. rewrite HQ, HK. simpl. auto.
  - unfold distributeRewards, onlyOwner in H. cbv zeta in H. takes. simpl. auto.
  - unfold claimRewards, whenNotPaused in H. cbv zeta in H. takes.
    specialize (Hp (sender m)). apply Z.ltb_lt in E1. unfold pending_of in E1. lia.
  - unfold pause, onlyOwner, whenNotPaused in H. takes. simpl. auto.
  - unfold unpause, onlyOwner in H. takes. simpl. auto.
  - unfold updateTierThreshold, onlyOwner in H. takes. simpl. auto.
  - unfold onlyOwner in H. takes. auto.
  - unfold updateStakeTypeMultiplier, onlyOwner in H. takes. simpl. auto.
Qed.

Lemma reachable_ledger_ok s : reachable s -> ledger_ok s.
Proof.
  induction 1 as [o this t | s op m s' _ IH Hx].
  - split; intros u; unfold pending_of, count_of, init; simpl;
      rewrite lookup_empty; simpl; unfold MAX_STAKES_PER_USER; lia.
  - eapply exec_ledger_ok; eassumption.
Qed.

End RepSysMore.

(** ** StakeBasedReportRegistry: the validator records *)
Module RegistryRecords.
Import Registry RegistryFacts.

Section Closed.
(** A property of validator records that [bump_validator] keeps. *)
Variable P : Validator -> Prop.
Hypothesis P_bump : forall c v, P v -> P (bump_validator c v).

Lemma transfer_to_records to amt s s' :
  transfer_to to amt s = Some s' -> validatorRecords s' = validatorRecords s.
Proof. unfold transfer_to. intros H. take H. injection H as <-. reflexivity. Qed.

Lemma pay_each_records amt vs : forall s s',
  pay_each amt vs s = Some s' -> validatorRecords s' = validatorRecords s.
Proof.
  induction vs as [|v vs IH]; intros s s' H; simpl in H.
  - injection H as <-. reflexivity.
  - take H. apply IH in H. apply transfer_to_records in E. congruence.
Qed.

Lemma update_each_pres r vs a : forall s,
  P (get_validator s a) -> P (get_validator (update_each r vs s) a).
Proof.
  induction vs as [|v vs IH]; intros s Ha; simpl; [exact Ha|].
  apply IH. unfold get_validator at 1, set_validator. simpl.
  destruct (decide (a = v)) as [->|Hne].
  - rewrite lookup_insert_eq. simpl. apply P_bump, Ha.
  - rewrite lookup_insert_ne by congruence. exact Ha.
Qed.

Lemma finalize_pres rid s s' a :
  _finalizeReport rid s = Some s' -> P (get_validator s a) -> P (get_validator s' a).
Proof.
  unfold _finalizeReport. intros H Ha. take H. simpl in H.
  destruct (_ <? _).
  - take H. take H. injection H as <-. unfold _updateValidatorReputation.
    apply update_each_pres.
    unfold _distributeValidatorRewards in E1. apply pay_each_records in E1.
    apply transfer_to_records in E0.
    unfold get_validator in *. rewrite E1, E0. exact Ha.
  - take H. injection H as <-. unfold _updateValidatorReputation.
    apply update_each_pres. unfold _redistributeStake in E0. simpl in E0.
    destruct (_ <? _).
    + apply pay_each_records in E0. unfold get_validator in *. rewrite E0. exact Ha.
    + injection E0 as <-. exact Ha.
Qed.

(** Every call but [registerValidator] keeps the property of each record. *)
Lemma exec_pres op m s s' a :
  exec op m s = Some s' -> op <> RegisterValidator ->
  P (get_validator s a) -> P (get_validator s' a).
Proof.
  unfold exec. intros H Hop Ha. take H.
  apply pay_in_spec in E as (_ & _ & _ & Hv).
  assert (Ha0 : P (get_validator s0 a)) by (unfold get_validator; rewrite Hv; exact Ha).
  destruct op; [congruence| | | |].
  - unfold submitReportWithStake in H. take H. take H. take H. take H.
    injection H as <-. exact Ha0.
  - apply RegistryVote.vote_spec in H. cbv zeta in H.
    destruct H as (_ & _ & _ & _ & [[_ ->] | [_ Hf]]).
    + exact Ha0.
    + eapply finalize_pres; [exact Hf|]. exact Ha0.
  - injection H as <-. exact Ha0.
  - unfold emergencyWithdraw in H. take H. take H.
    apply transfer_to_records in H. unfold get_validator; rewrite H. exact Ha0.
Qed.

End Closed.

Lemma val_ok_bump c v : val_ok v -> val_ok (bump_validator c v).
Proof.
  unfold val_ok, bump_validator. intros [H1 H2].
  destruct c; simpl; [split; [lia|]|split; [lia|]]; intros Ha;
    [specialize (H2 Ha); lia|]. destruct (Z.ltb_spec 1 (reputation v)); lia.
Qed.

Lemma registry_run_none ops : foldl (fun acc om => s1 ← acc; exec om.1 om.2 s1) None ops = None.
Proof. induction ops; simpl; auto. Qed.

Lemma registry_run_cons om ops s :
  run (om :: ops) s = match exec om.1 om.2 s with Some s1 => run ops s1 | None => None end.
Proof.
  unfold run. simpl. destruct (exec om.1 om.2 s); [reflexivity | apply registry_run_none].
Qed.

Lemma op_cases op : op = RegisterValidator \/ op <> RegisterValidator.
Proof. destruct op; [left; reflexivity|right; discriminate..]. Qed.

End RegistryRecords.

(** * The claims *)
Import Registry RegistryFacts RegistryVote.

(** C2. Validated-outcome settlement: when the vote that reaches quorum
    finalizes a report with more valid than invalid votes, the report is
    [Validated], and the call transfers, in this order, the report stake
    plus [REPORTER_REWARD] to the submitter, then to every validator its
    voting stake, plus [VALIDATOR_REWARD] for a [Valid] vote and nothing
    more for any other vote. *)
Theorem validated_settlement (m : Msg) (s s' : State) (rid : Z) (b : bool) :
  exec (VoteOnReport rid b) m s = Some s' ->
  status (get_report s' rid) <> Pending ->
  invalidVotes (get_report s' rid) < validVotes (get_report s' rid) ->
  let r := get_report s' rid in
  status r = Validated /\ (3 <= length (validators r))%nat /\
  transfers s' = transfers s ++
    (reporter r, stakeAmount r + REPORTER_REWARD) ::
    map (fun v => (v, if bool_decide (vote_of r v = Valid)
                      then stake_of r v + VALIDATOR_REWARD
                      else stake_of r v))
      (validators r).
Proof.
  intros H Hst Hlt.
  destruct (vote_finalized _ _ _ _ _ H Hst) as (r1 & Hr & Hlen & Ht).
  cbv zeta. rewrite Ht. rewrite Hr in Hlt |- *. simpl in Hlt.
  unfold outcome in *. simpl.
  assert (Hb : (invalidVotes r1 <? validVotes r1) = true) by (apply Z.ltb_lt; exact Hlt).
  rewrite Hb. simpl. repeat split; [exact Hlen |].
  unfold settlement. simpl. rewrite Hb. reflexivity.
Qed.

Lemma validated_settlement_witness :
  let r := get_report Scenarios.sA 1 in
  status r = Validated /\ (3 <= length (validators r))%nat /\
  transfers Scenarios.sA = transfers Scenarios.sA_pre ++
    (reporter r, stakeAmount r + REPORTER_REWARD) ::
    map (fun v => (v, if bool_decide (vote_of r v = Valid)
                      then stake_of r v + VALIDATOR_REWARD
                      else stake_of r v))
      (validators r).
Proof.
  apply (validated_settlement (mkMsg 23 VOTING_STAKE 3) Scenarios.sA_pre
           Scenarios.sA 1 false).
  - vm_compute. reflexivity.
  - vm_compute. discriminate.
  - vm_compute. reflexivity.
Defined.

(** C7. Ties default to rejection: when [_finalizeReport] settles a report
    with as many valid as invalid votes, the report ends [Rejected]; when
    [validateEvidence] records a verdict that brings the evidence item to
    [MIN_VALIDATIONS_REQUIRED] verdicts with as many positive as negative
    ones, the item ends [Rejected]. *)
Theorem tie_rejected (rid : Z) (s s' : State) (m : Msg)
    (es es' : Evidence.State) (e : Z) (v : bool) (why : string)
    (lvl : Evidence.ValidationLevel) :
  (_finalizeReport rid s = Some s' ->
   validVotes (get_report s rid) = invalidVotes (get_report s rid) ->
   status (get_report s' rid) = Rejected) /\
  (Evidence.validateEvidence m es e v why lvl = Some es' ->
   Evidence.MIN_VALIDATIONS_REQUIRED
     <= Evidence.validationCount (Evidence.get_evidence es' e) ->
   Evidence.positiveValidations (Evidence.get_evidence es' e)
     = Evidence.negativeValidations (Evidence.get_evidence es' e) ->
   Evidence.status (Evidence.get_evidence es' e) = Evidence.Rejected).
Proof.
  split.
  - intros H Heq. destruct (finalize_spec _ _ _ H) as (_ & Hr & _).
    unfold get_report at 1. rewrite Hr, lookup_insert_eq. simpl.
    unfold outcome. rewrite Heq, Z.ltb_irrefl. reflexivity.
  - intros H Hc Hp.
    pose proof (EvidenceFacts.validate_spec _ _ _ _ _ _ _ H) as Hv.
    cbv zeta in Hv. destruct Hv as (Hc' & _ & _ & Hs & _).
    rewrite Hs. rewrite Hc' in Hc. apply Z.leb_le in Hc. rewrite Hc.
    rewrite Hp, Z.ltb_irrefl. reflexivity.
Qed.

Lemma tie_rejected_witness :
  status (get_report (Scenarios.reg_state (_finalizeReport 1 Scenarios.reg_tie)) 1)
    = Rejected /\
  Evidence.status (Evidence.get_evidence Scenarios.evT 7) = Evidence.Rejected.
Proof.
  destruct (tie_rejected 1 Scenarios.reg_tie
              (Scenarios.reg_state (_finalizeReport 1 Scenarios.reg_tie))
              (mkMsg 5 0 3) Scenarios.evT_pre Scenarios.evT 7 false "checked"
              Evidence.Standard) as [H1 H2].
  split; [apply H1 | apply H2]; concrete.
Defined.

(** C6, as the contract has it: the counterexample. A validator whose
    positive verdict is outvoted on an item that ends [Rejected] still gains
    [REPUTATION_REWARD_VALIDATION], and validators whose negative verdicts
    match the [Rejected] outcome gain nothing. *)
Lemma evidence_reward_counterexample :
  Evidence.status (Evidence.get_evidence Scenarios.evC 7) = Evidence.Rejected /\
  existsb (fun r => (Evidence.validator r =? 4) && Evidence.isValid r)
    (Evidence.results_of Scenarios.evC 7) = true /\
  Evidence.reputation_of Scenarios.evC 4
    = Evidence.reputation_of Scenarios.ev_open 4
      + Evidence.REPUTATION_REWARD_VALIDATION /\
  existsb (fun r => (Evidence.validator r =? 2) && negb (Evidence.isValid r))
    (Evidence.results_of Scenarios.evC 7) = true /\
  Evidence.reputation_of Scenarios.evC 2 = Evidence.reputation_of Scenarios.ev_open 2.
Proof. vm_compute. repeat split. Qed.

(** C6, amended. The reputation reward is paid when the verdict is cast,
    whatever the final outcome: a call to [validateEvidence] adds
    [REPUTATION_REWARD_VALIDATION] to the caller's reputation when its
    verdict is positive, leaves it unchanged when negative, and changes no
    other account's reputation, also in the call that finalizes the item. *)
Theorem evidence_reward_at_vote (m : Msg) (s s' : Evidence.State) (e : Z)
    (v : bool) (why : string) (lvl : Evidence.ValidationLevel) :
  Evidence.validateEvidence m s e v why lvl = Some s' ->
  Evidence.reputation_of s' (sender m)
    = Evidence.reputation_of s (sender m)
      + (if v then Evidence.REPUTATION_REWARD_VALIDATION else 0) /\
  (forall a, a <> sender m ->
   Evidence.reputation_of s' a = Evidence.reputation_of s a).
Proof.
  intros H.
  pose proof (EvidenceFacts.validate_spec _ _ _ _ _ _ _ H) as Hv.
  cbv zeta in Hv. destruct Hv as (_ & _ & _ & _ & Hr).
  unfold Evidence.reputation_of. rewrite Hr.
  destruct v; split.
  - rewrite lookup_insert_eq. reflexivity.
  - intros a Ha. rewrite lookup_insert_ne by congruence. reflexivity.
  - lia.
  - reflexivity.
Qed.

Lemma evidence_reward_at_vote_witness :
  Evidence.reputation_of Scenarios.evC 4
    = Evidence.reputation_of Scenarios.evC_pre 4
      + Evidence.REPUTATION_REWARD_VALIDATION.
Proof.
  apply (evidence_reward_at_vote (mkMsg 4 0 3) Scenarios.evC_pre Scenarios.evC 7
           true "checked" Evidence.Standard).
  concrete.
Defined.

(** C9, as stated: the counterexample. The owner applies a change of -1 to
    an account whose base reputation is 0; the base reputation becomes 9,
    not 0, because a zero base is first set to 10. *)
Lemma base_floor_counterexample :
  RepSys.baseReputation (RepSys.profile_of Scenarios.rs_init 5) = 0 /\
  option_map (fun s' => RepSys.baseReputation (RepSys.profile_of s' 5))
    (RepSys.updateReputation (mkMsg 1 0 500) Scenarios.rs_init 5 (-1) false)
  = Some 9.
Proof. vm_compute. split; reflexivity. Qed.

(** C9, amended. [updateReputation] first sets a zero base reputation to 10;
    from that base b it sets b + delta for a positive delta, and b - |delta|
    floored at 0 otherwise. It reverts when the caller is neither the owner
    nor the contract itself, when delta is the least [int256], when b + delta
    overflows, and otherwise exactly when [_updateStakedReputation] does:
    the staked-amount loop overflows, or the new base plus the staked
    reputation exceeds [UINT256_MAX]. *)
Theorem adjust_base (m : Msg) (s : RepSys.State) (u change : Z) (b : bool) :
  let b0 := RepSys.baseReputation (RepSys.profile_of s u) in
  let b1 := if b0 =? 0 then 10 else b0 in
  let nb := if 0 <? change then b1 + change
            else if - change <=? b1 then b1 + change else 0 in
  (forall s', RepSys.updateReputation m s u change b = Some s' ->
   RepSys.baseReputation (RepSys.profile_of s' u) = nb) /\
  (sender m <> RepSys.owner s -> sender m <> RepSys.self s ->
   RepSys.updateReputation m s u change b = None) /\
  (change = RepSys.INT256_MIN -> RepSys.updateReputation m s u change b = None) /\
  (0 < change -> RepSys.UINT256_MAX < b1 + change ->
   RepSys.updateReputation m s u change b = None) /\
  ((sender m = RepSys.owner s \/ sender m = RepSys.self s) ->
   RepSys.INT256_MIN < change ->
   (0 < change -> b1 + change <= RepSys.UINT256_MAX) ->
   (RepSys.updateReputation m s u change b = None <->
    match RepSys.staked_loop s u with
    | None => True
    | Some t => RepSys.UINT256_MAX < nb + t / 10 ^ 18
    end)).
Proof.
  cbv zeta. split; [|split; [|split; [|split]]].
  - intros s' H. apply (RepSysFacts.updateReputation_base _ _ _ _ _ _ H).
  - intros Ho Hs. unfold RepSys.updateReputation.
    replace ((sender m =? RepSys.owner s) || (sender m =? RepSys.self s)) with false
      by (symmetry; apply orb_false_iff; split; apply Z.eqb_neq; assumption).
    reflexivity.
  - intros ->. unfold RepSys.updateReputation.
    destruct (_ || _); [|reflexivity]. simpl. reflexivity.
  - intros Hc Hov. unfold RepSys.updateReputation.
    destruct (_ || _); [|reflexivity]. simpl.
    replace (0 <? change) with true by (symmetry; apply Z.ltb_lt; exact Hc).
    destruct (RepSys.baseReputation (RepSys.profile_of s u) =? 0); simpl in *;
      replace (_ <=? RepSys.UINT256_MAX) with false
        by (symmetry; apply Z.leb_gt; exact Hov); reflexivity.
  - intros Hauth Hmin Hmax. unfold RepSys.updateReputation.
    assert (Ha : ((sender m =? RepSys.owner s) || (sender m =? RepSys.self s)) = true).
    { destruct Hauth as [-> | ->]; rewrite Z.eqb_refl; [reflexivity | apply orb_true_r]. }
    rewrite Ha. simpl.
    destruct (0 <? change) eqn:Ec.
    + apply Z.ltb_lt in Ec. specialize (Hmax Ec).
      destruct (RepSys.baseReputation (RepSys.profile_of s u) =? 0); simpl;
        apply Z.leb_le in Hmax; rewrite Hmax; simpl;
        rewrite RepSysFacts.bind_some_none, RepSysFacts.update_staked_set_none;
        reflexivity.
    + assert (Hn : (change =? RepSys.INT256_MIN) = false) by (apply Z.eqb_neq; lia).
      rewrite Hn. simpl.
      rewrite RepSysFacts.bind_some_none, RepSysFacts.update_staked_set_none.
      destruct (RepSys.baseReputation (RepSys.profile_of s u) =? 0); simpl;
        destruct (- change <=? _); destruct (RepSys.staked_loop s u); try reflexivity;
        rewrite Z.sub_opp_r; reflexivity.
Qed.

Lemma adjust_base_witness :
  option_map (fun s' => RepSys.baseReputation (RepSys.profile_of s' 5))
    (RepSys.updateReputation (mkMsg 1 0 500) Scenarios.rs_init 5 (-1) false)
  = Some 9 /\
  RepSys.updateReputation (mkMsg 1 0 1100) Scenarios.rs_big 5 (2 ^ 255 - 10) true = None.
Proof.
  destruct (adjust_base (mkMsg 1 0 500) Scenarios.rs_init 5 (-1) false)
    as (H1 & _ & _ & _ & H5).
  destruct (adjust_base (mkMsg 1 0 1100) Scenarios.rs_big 5 (2 ^ 255 - 10) true)
    as (_ & _ & _ & _ & G5).
  split.
  - destruct (RepSys.updateReputation (mkMsg 1 0 500) Scenarios.rs_init 5 (-1) false)
      as [s'|] eqn:Hs.
    + simpl. f_equal. rewrite (H1 s' eq_refl). concrete.
    + exfalso.
      pose proof (proj1 (H5 (or_introl eq_refl) ltac:(concrete)
                            ltac:(intros Hc; vm_compute in Hc; discriminate)) eq_refl)
        as Hx.
      revert Hx. vm_compute. intros Hx; discriminate Hx.
  - apply G5; [left; reflexivity | concrete | intros _; concrete |].
    vm_compute. reflexivity.
Defined.

(** C8. [withdrawStake] deactivates the stake. Before the lock period ends
    ([now < timestamp + lockPeriod]) it pays the owner
    [amount - amount * SLASHING_PENALTY / 100] (the [SLASHING_PENALTY] = 10
    per cent penalty rounded down) and adds the penalty to the reward pool;
    from the end of the lock period on it pays the whole amount and adds
    nothing. *)
Theorem early_withdrawal_penalty (m : Msg) (s s' : RepSys.State) (i : Z) :
  RepSys.withdrawStake m s i = Some s' ->
  let u := sender m in
  let st := RepSys.stake_of s u i in
  RepSys.active (RepSys.stake_of s' u i) = false /\
  (now m < RepSys.stake_timestamp st + RepSys.lockPeriod st ->
   RepSys.tokens_of s' u
     = RepSys.tokens_of s u + (RepSys.amount st - RepSys.amount st * RepSys.SLASHING_PENALTY / 100) /\
   RepSys.totalRewards (RepSys.rewardPool s')
     = RepSys.totalRewards (RepSys.rewardPool s) + RepSys.amount st * RepSys.SLASHING_PENALTY / 100) /\
  (RepSys.stake_timestamp st + RepSys.lockPeriod st <= now m ->
   RepSys.tokens_of s' u = RepSys.tokens_of s u + RepSys.amount st /\
   RepSys.totalRewards (RepSys.rewardPool s') = RepSys.totalRewards (RepSys.rewardPool s)).
Proof.
  intros H. pose proof (RepSysFacts.withdraw_spec _ _ _ _ H) as Hw. cbv zeta in *.
  unfold RepSys.tokens_of at 1 3, RepSys.stake_of at 1.
  destruct (RepSys.withdraw_split (now m) (RepSys.stake_of s (sender m) i))
    as [pen amt] eqn:Ew.
  destruct Hw as (_ & _ & _ & Hs & Ht & _ & _ & Hr & _).
  rewrite Hs, Ht, Hr, !lookup_insert_eq. simpl.
  unfold RepSys.withdraw_split in Ew.
  split; [reflexivity | split]; intros Hn.
  - apply Z.ltb_lt in Hn. rewrite Hn in Ew. injection Ew as <- <-. auto.
  - apply Z.ltb_ge in Hn. rewrite Hn in Ew. injection Ew as <- <-. split; [reflexivity | lia].
Qed.

Lemma early_withdrawal_penalty_witness :
  let st := RepSys.stake_of Scenarios.rs_staked 5 1 in
  RepSys.active (RepSys.stake_of Scenarios.rs_withdrawn 5 1) = false /\
  RepSys.tokens_of Scenarios.rs_withdrawn 5
    = RepSys.tokens_of Scenarios.rs_staked 5
      + (RepSys.amount st - RepSys.amount st * RepSys.SLASHING_PENALTY / 100) /\
  RepSys.totalRewards (RepSys.rewardPool Scenarios.rs_withdrawn)
    = RepSys.totalRewards (RepSys.rewardPool Scenarios.rs_staked)
      + RepSys.amount st * RepSys.SLASHING_PENALTY / 100.
Proof.
  destruct (early_withdrawal_penalty (mkMsg 5 0 Scenarios.rs_early)
              Scenarios.rs_staked Scenarios.rs_withdrawn 1) as (H1 & H2 & _).
  - concrete.
  - split; [exact H1 | apply H2; concrete].
Defined.

(** C4, as stated: the counterexample. [submitReportWithStake] consults no
    reputation: account 10, whose base reputation in the ledger is 0 and
    which holds no validator record, submits a report and its stake is
    locked. *)
Lemma submit_floor_counterexample :
  RepSys.baseReputation (RepSys.profile_of Scenarios.rs_init 10) = 0 /\
  get_validator Scenarios.reg_init 10 = empty_validator /\
  option_map (fun s' => (status (get_report s' 1), stakeAmount (get_report s' 1),
                         balance s'))
    (exec (SubmitReportWithStake "phishing_url" "http://phish.example"
             "fake wallet login" "h1") (mkMsg 10 REPORT_STAKE 2) Scenarios.reg_init)
  = Some (Pending, REPORT_STAKE, REPORT_STAKE).
Proof. vm_compute. repeat split. Qed.

(** C4, amended. The stake-locking [submitReportWithStake] succeeds exactly
    when the caller can pay, pays [REPORT_STAKE], and gives a non-empty
    report type, target and description: no reputation floor. The floor
    [MIN_REPUTATION_TO_REPORT] guards only [PhishBlockRegistry.submitReport],
    which takes no stake. *)
Theorem report_submission_gates (m : Msg) (s : State) (rt tv d h : string)
    (ps ps' : PBRegistry.State) (prid : Z) (url wallet descr ipfs : string) :
  (is_Some (exec (SubmitReportWithStake rt tv d h) m s) <->
   (0 <= value m <= wallet_of s (sender m) /\ value m = REPORT_STAKE /\
    nonempty rt = true /\ nonempty tv = true /\ nonempty d = true)) /\
  (PBRegistry.submitReport m ps prid url wallet descr ipfs = Some ps' ->
   PBRegistry.MIN_REPUTATION_TO_REPORT <= PBRegistry.rep_of ps (sender m)).
Proof.
  split; [split |].
  - intros [s' H]. unfold exec in H. take H. unfold pay_in in E. take E.
    unfold submitReportWithStake in H. take H. take H. take H. take H.
    apply andb_true_iff in E0 as [Ea Eb]. apply Z.leb_le in Ea, Eb.
    apply Z.eqb_eq in E1. repeat split; auto.
  - intros (Hv & Hw & Hr & Ht & Hd). unfold exec, pay_in, submitReportWithStake.
    assert (B1 : ((0 <=? value m) && (value m <=? wallet_of s (sender m))) = true)
      by (apply andb_true_iff; split; apply Z.leb_le; lia).
    assert (B2 : (value m =? REPORT_STAKE) = true) by (apply Z.eqb_eq; exact Hw).
    rewrite B1. cbn -[nonempty]. rewrite B2, Hr, Ht, Hd. eexists; reflexivity.
  - intros H. unfold PBRegistry.submitReport in H. take H. take H.
    apply Z.leb_le. assumption.
Qed.

Lemma report_submission_gates_witness :
  is_Some (exec (SubmitReportWithStake "phishing_url" "http://phish.example"
                   "fake wallet login" "h1") (mkMsg 10 REPORT_STAKE 2)
             Scenarios.reg_init).
Proof.
  destruct (report_submission_gates (mkMsg 10 REPORT_STAKE 2) Scenarios.reg_init
              "phishing_url" "http://phish.example" "fake wallet login" "h1"
              (PBRegistry.mkState ∅ ∅ ∅ ∅ ∅ ∅ 0 false)
              (PBRegistry.mkState ∅ ∅ ∅ ∅ ∅ ∅ 0 false) 0 "" "" "" "")
    as [[_ H] _].
  apply H. split; [split; concrete |]. split; [reflexivity |]. repeat split.
Defined.

(** C10. In every reachable registry state each report lists at most
    [MIN_VALIDATORS] = 3 validators, below [MAX_VALIDATORS] = 5; a [Pending]
    report lists fewer than 3 (the vote that brings the list to 3 finalizes
    the report in the same call); and every vote on a report that is no
    longer [Pending] reverts. *)
Theorem quorum_size_bound (s : State) (rid : Z) :
  reachable s ->
  let r := get_report s rid in
  Z.of_nat (length (validators r)) <= MIN_VALIDATORS < MAX_VALIDATORS /\
  (status r = Pending -> Z.of_nat (length (validators r)) < MIN_VALIDATORS) /\
  (status r <> Pending -> forall m b, exec (VoteOnReport rid b) m s = None).
Proof.
  intros Hr. destruct (RegistryInv.reachable_ok _ Hr) as [_ Ho].
  destruct (Ho rid) as (_ & Hlen & Hpl & _). cbv zeta.
  unfold MIN_VALIDATORS, MAX_VALIDATORS. split; [lia | split].
  - intros Hp. specialize (Hpl Hp). lia.
  - intros Hnp m b. destruct (exec _ m s) as [s' |] eqn:E; [| reflexivity].
    apply exec_vote in E as (s0 & Hp & Hv). apply vote_spec in Hv as (Hpend & _).
    apply pay_in_spec in Hp as (Hs & _).
    rewrite (get_report_same _ _ rid Hs) in Hpend. contradiction.
Qed.

Lemma quorum_size_bound_witness :
  let r := get_report Scenarios.sA 1 in
  Z.of_nat (length (validators r)) <= MIN_VALIDATORS < MAX_VALIDATORS /\
  (status r = Pending -> Z.of_nat (length (validators r)) < MIN_VALIDATORS) /\
  (status r <> Pending -> forall m b, exec (VoteOnReport 1 b) m Scenarios.sA = None).
Proof.
  apply quorum_size_bound.
  apply (reachable_step Scenarios.sA_pre (Scenarios.vote 23 false).1
           (Scenarios.vote 23 false).2); [| concrete].
  apply (RegistryInv.run_reachable (Scenarios.reg_setup ++
           [(Receive, mkMsg 1 (Scenarios.ETHER / 10) 2);
            Scenarios.vote 21 true; Scenarios.vote 22 true]) Scenarios.reg_init);
    [apply (reachable_init 1 Scenarios.w0) | concrete].
Defined.

(** C5, as stated: the counterexample. Report 1 of [sB_pre] is [Pending]
    with two votes; after its voting deadline a vote on it reverts and a
    call that succeeds leaves it [Pending]: nothing moves it to [Expired]. *)
Lemma lazy_expiry_counterexample :
  let late := votingDeadline (get_report Scenarios.sB_pre 1) + 1 in
  status (get_report Scenarios.sB_pre 1) = Pending /\
  length (validators (get_report Scenarios.sB_pre 1)) = 2%nat /\
  exec (VoteOnReport 1 true) (mkMsg 23 VOTING_STAKE late) Scenarios.sB_pre = None /\
  option_map (fun s' => status (get_report s' 1))
    (exec Receive (mkMsg 1 0 late) Scenarios.sB_pre) = Some Pending.
Proof. vm_compute. repeat split. Qed.

(** C5, amended. No call assigns [Expired]: no report of a reachable state
    is [Expired]. A [Pending] report whose voting deadline has passed stays
    [Pending] under every later call, and every vote on it reverts; there is
    no expiry transition, lazy or otherwise. *)
Theorem no_expiry_transition (s : State) (rid : Z) (m : Msg) :
  reachable s ->
  (forall rid', status (get_report s rid') <> Expired) /\
  (status (get_report s rid) = Pending -> votingDeadline (get_report s rid) < now m ->
   (forall b, exec (VoteOnReport rid b) m s = None) /\
   (forall op s', exec op m s = Some s' -> status (get_report s' rid) = Pending)).
Proof.
  intros Hr. destruct (RegistryInv.reachable_ok _ Hr) as [_ Ho]. split.
  - intros rid'. apply (Ho rid').
  - intros Hp Hd. split.
    + intros b. destruct (exec _ m s) as [s' |] eqn:E; [| reflexivity].
      apply exec_vote in E as (s0 & Hp0 & Hv). apply vote_spec in Hv as (_ & Hle & _).
      apply pay_in_spec in Hp0 as (Hs & _).
      rewrite (get_report_same _ _ rid Hs) in Hle. lia.
    + intros op s' H. eapply RegistryInv.pending_stays; eauto.
Qed.

Lemma no_expiry_transition_witness :
  (forall rid', status (get_report Scenarios.sB_pre rid') <> Expired) /\
  exec (VoteOnReport 1 true)
    (mkMsg 23 VOTING_STAKE (votingDeadline (get_report Scenarios.sB_pre 1) + 1))
    Scenarios.sB_pre = None.
Proof.
  destruct (no_expiry_transition Scenarios.sB_pre 1
              (mkMsg 23 VOTING_STAKE (votingDeadline (get_report Scenarios.sB_pre 1) + 1)))
    as [H1 H2].
  - apply (RegistryInv.run_reachable (Scenarios.reg_setup ++
           [Scenarios.vote 21 false; Scenarios.vote 22 false]) Scenarios.reg_init);
      [apply (reachable_init 1 Scenarios.w0) | concrete].
  - split; [exact H1 |]. apply H2; concrete.
Defined.

(** C3. When the vote that reaches quorum finalizes a report as [Rejected],
    at least one validator voted [Invalid] (k of them), and the call
    transfers, in the order of the validator list, to each [Invalid] voter
    its voting stake plus the report stake divided by k (rounded down), and
    to each other validator its voting stake only; the submitter gets
    nothing back. *)
Theorem rejected_settlement (m : Msg) (s s' : State) (rid : Z) (b : bool) :
  reachable s ->
  exec (VoteOnReport rid b) m s = Some s' ->
  status (get_report s' rid) = Rejected ->
  let r := get_report s' rid in
  let k := count_votes Invalid r in
  0 < k /\
  transfers s' = transfers s ++
    map (fun v => (v, if bool_decide (vote_of r v = Invalid)
                      then stake_of r v + stakeAmount r / k
                      else stake_of r v))
      (validators r).
Proof.
  intros Hr H Hst.
  assert (Hok : report_ok (get_report s' rid)).
  { apply RegistryInv.reachable_ok. eapply reachable_step; eauto. }
  destruct Hok as ((_ & Hmem & Hv & Hi) & _).
  destruct (vote_finalized _ _ _ _ _ H) as (r1 & Hg & Hlen & Ht);
    [rewrite Hst; discriminate |].
  assert (Hsplit := RegistryInv.count_split (get_report s' rid)
                      (fun v Hin => proj1 (Hmem v) Hin)).
  assert (Hc : (invalidVotes (get_report s' rid) <? validVotes (get_report s' rid)) = false).
  { rewrite Hg in Hst |- *. unfold outcome in Hst |- *. simpl in Hst |- *.
    destruct (_ <? _); [discriminate | reflexivity]. }
  assert (Hl : length (validators (get_report s' rid)) = length (validators r1))
    by (rewrite Hg; reflexivity).
  assert (Hk : 0 < count_votes Invalid (get_report s' rid)).
  { apply Z.ltb_ge in Hc. lia. }
  cbv zeta. split; [exact Hk |].
  rewrite Ht. unfold settlement. rewrite Hc.
  apply Z.ltb_lt in Hk. rewrite Hk. reflexivity.
Qed.

Lemma rejected_settlement_witness :
  let r := get_report Scenarios.sB 1 in
  let k := count_votes Invalid r in
  0 < k /\
  transfers Scenarios.sB = transfers Scenarios.sB_pre ++
    map (fun v => (v, if bool_decide (vote_of r v = Invalid)
                      then stake_of r v + stakeAmount r / k
                      else stake_of r v))
      (validators r).
Proof.
  apply (rejected_settlement (mkMsg 23 VOTING_STAKE 3) Scenarios.sB_pre Scenarios.sB 1 true).
  - apply (RegistryInv.run_reachable (Scenarios.reg_setup ++
           [Scenarios.vote 21 false; Scenarios.vote 22 false]) Scenarios.reg_init);
      [apply (reachable_init 1 Scenarios.w0) | concrete].
  - concrete.
  - concrete.
Defined.

(** C1, as stated: the counterexample. In the registry the accounts'
    balances plus the stakes locked in [Pending] reports (it keeps no reward
    pool) is not invariant without outside deposits. Three [Invalid] votes
    split the report stake three ways, rounded down, and 1 wei stays in the
    contract unaccounted for; and settling one report as [Validated] pays
    its rewards out of another pending report's stake, so that sum grows and
    the contract holds less than the stakes still locked. *)
Lemma conservation_counterexample :
  wallets_total Scenarios.reg_init + locked_total Scenarios.reg_init = 5 * Scenarios.ETHER /\
  balance Scenarios.reg_init = 0 /\
  wallets_total Scenarios.s3 + locked_total Scenarios.s3 = 5 * Scenarios.ETHER - 1 /\
  balance Scenarios.s3 = 1 /\
  wallets_total Scenarios.two_reports + locked_total Scenarios.two_reports
    = 5 * Scenarios.ETHER + 8 * 10 ^ 15 /\
  balance Scenarios.two_reports < locked_total Scenarios.two_reports.
Proof. vm_compute. repeat split. Qed.

(** C1, amended. Value is conserved per ledger, counting what each contract
    holds, not the locked stakes: every registry call only moves ETH between
    the outside accounts and the contract's balance, which also holds the
    rounding remainders and the rewards' funding; and every call of the
    reputation ledger on a reachable state keeps the outside token balances
    plus the active stakes plus the reward pool plus the unclaimed rewards,
    withdrawal penalties and slashed amounts going to the pool. *)
Theorem value_conservation :
  (forall op m s s', exec op m s = Some s' -> eth_total s' = eth_total s) /\
  (forall op m s s', RepSys.reachable s -> RepSys.exec op m s = Some s' ->
   RepSys.value_total s' = RepSys.value_total s).
Proof.
  split.
  - intros op m s s' H. eapply RegistryInv.exec_eth; eauto.
  - intros op m s s' Hr H.
    apply (RepSysFacts.exec_conserves op m s s' (RepSysFacts.reachable_fresh s Hr) H).
Qed.

Lemma value_conservation_witness :
  eth_total Scenarios.s3 = eth_total Scenarios.sB_pre /\
  RepSys.value_total Scenarios.rs_withdrawn = RepSys.value_total Scenarios.rs_staked.
Proof.
  destruct value_conservation as [H1 H2]. split.
  - apply (H1 (Scenarios.vote 23 false).1 (Scenarios.vote 23 false).2). concrete.
  - apply (H2 (RepSys.WithdrawStake 1) (mkMsg 5 0 Scenarios.rs_early)).
    + apply (RepSys.reachable_step Scenarios.rs_rep
               (RepSys.DepositStake (100 * Scenarios.ETHER) RepSys.MIN_STAKE_PERIOD
                  RepSys.Report) (mkMsg 5 0 1000)); [| concrete].
      apply (RepSys.reachable_step Scenarios.rs_init (RepSys.UpdateReputation 5 10 true)
               (mkMsg 1 0 500)); [apply RepSys.reachable_init | concrete].
    + concrete.
Defined.

(** * Further properties of the code *)

(** ** PhishBlockRegistry *)
Module PhishBlockProps.
Import PhishBlock PhishBlockFacts PhishBlockRate.

(** In every reachable registry, each report's [upvotes] and [downvotes]
    are the summed [reputationWeight]s of the votes recorded for it on that
    side (a changed vote moves its weight), its [disputeCount] is the length
    of its [reportDisputes] list, and an id that names no report has no
    details, votes or disputes. *)
Theorem report_counters_match (s : State) : reachable s -> pb_ok s.
Proof.
  induction 1 as [o | s op m s' _ IH Hf Hx].
  - split.
    + intros rid _. repeat split.
    + intros rid. unfold details_of, votes_of, disputes_of; simpl.
      rewrite !lookup_empty. simpl. unfold map_sumZ. rewrite !map_fold_empty.
      repeat split.
  - eapply exec_pb_ok; eauto.
Qed.

Lemma report_counters_match_witness : pb_ok Scenarios.pb_voted.
Proof.
  apply report_counters_match.
  apply (reachable_step Scenarios.pb_sub (Vote_ 1 true) (mkMsg 1 0 200));
    [| exact I | concrete].
  apply (reachable_step Scenarios.pb_init (Scenarios.pb_submit 1 100).1
           (Scenarios.pb_submit 1 100).2);
    [apply reachable_init | vm_compute; reflexivity | concrete].
Defined.

(** The [rateLimited] modifier: from a reachable registry, along any
    sequence of calls that succeeds, any six successful [submitReport]
    calls by one account (the i-th and the (i+5)-th of its submissions)
    are at least [RATE_LIMIT_WINDOW] (one hour) apart. *)
Theorem submission_rate_limit (s : State) (ops : list (Op * Msg)) (s' : State) (u : Z) :
  reachable s -> run ops s = Some s' ->
  forall i a b, submit_times u ops !! i = Some a ->
    submit_times u ops !! (i + 5)%nat = Some b ->
    PBRegistry.RATE_LIMIT_WINDOW <= b - a.
Proof.
  intros Hr Hrun.
  assert (H0 : rate_inv s u []).
  { split; [apply reachable_count_nonneg; exact Hr|].
    split; [intros a Ha; apply elem_of_nil in Ha; contradiction|].
    split; [intros i a Ha; rewrite lookup_nil in Ha; discriminate|].
    intros i a b Ha; rewrite lookup_nil in Ha; discriminate. }
  destruct (run_rate_inv u ops s [] s' Hrun H0) as (_ & _ & _ & Hsp).
  exact Hsp.
Qed.

Lemma submission_rate_limit_witness : PBRegistry.RATE_LIMIT_WINDOW <= 4100 - 100.
Proof.
  refine (submission_rate_limit Scenarios.pb_init Scenarios.pb_six Scenarios.pb_six_end 1
            _ _ 0%nat 100 4100 _ _);
    [apply reachable_init | concrete | concrete | concrete].
Defined.

(** A [vote] that succeeds when its sender has already voted the same way
    on the report changes nothing: the state after the call is the state
    before it (no tally, vote record or reputation moves). *)
Theorem repeated_vote_noop (m : Msg) (s : State) (rid : Z) (b : bool) (s' : State) :
  vote m s rid b = Some s' ->
  hasVoted (vote_of s rid (sender m)) = true ->
  isUpvote (vote_of s rid (sender m)) = b -> s' = s.
Proof.
  intros H Hv Hu. unfold vote in H. takes.
  rewrite Hv, Hu, Bool.eqb_reflx in H. congruence.
Qed.

Lemma repeated_vote_noop_witness : Scenarios.pb_voted = Scenarios.pb_voted.
Proof.
  apply (repeated_vote_noop (mkMsg 1 0 300) Scenarios.pb_voted 1 true); concrete.
Defined.

(** [updateReportStatus] sets the report's status, and moves its reporter's
    reputation: [+ REPUTATION_REWARD_REPORT] (2) for [Verified],
    [- REPUTATION_PENALTY_FALSE_REPORT] (5) floored at 0 for [Disputed],
    unchanged for the other statuses. *)
Theorem report_status_effect (m : Msg) (s : State) (rid : Z) (st : ReportStatus)
    (s' : State) :
  updateReportStatus m s rid st = Some s' ->
  let u := reporter_of s rid in
  (status (details_of s' rid) = st /\
   rep_of s' u = (match st with
                  | Verified => rep_of s u + REPUTATION_REWARD_REPORT
                  | Disputed => Z.max 0 (rep_of s u - REPUTATION_PENALTY_FALSE_REPORT)
                  | _ => rep_of s u
                  end)).
Proof.
  intros H. unfold updateReportStatus in H. takes. cbv zeta.
  destruct st; simpl in H;
    try (injection H as <-;
         unfold details_of; simpl; rewrite lookup_insert_eq; split; reflexivity).
  - unfold _updateReputation, REPUTATION_REWARD_REPORT in H. simpl in H. takes.
    match goal with E : add256 _ _ = Some _ |- _ => unfold add256 in E end. takes.
    unfold rep_of, details_of, reporter_of, PBRegistry.rep_of; simpl.
    rewrite !lookup_insert_eq. split; reflexivity.
  - unfold _updateReputation, REPUTATION_PENALTY_FALSE_REPORT in H. simpl in H.
    injection H as <-.
    unfold rep_of, details_of, reporter_of, PBRegistry.rep_of; simpl.
    rewrite !lookup_insert_eq. split; [reflexivity|].
    unfold REPUTATION_PENALTY_FALSE_REPORT.
    match goal with |- context [if ?c then _ else _] => destruct c eqn:E5 end;
      [apply Z.leb_le in E5 | apply Z.leb_gt in E5]; simpl; lia.
Qed.

Lemma report_status_effect_witness :
  status (details_of Scenarios.pb_verified 1) = Verified /\
  rep_of Scenarios.pb_verified (reporter_of Scenarios.pb_sub 1)
  = rep_of Scenarios.pb_sub (reporter_of Scenarios.pb_sub 1) + REPUTATION_REWARD_REPORT.
Proof.
  exact (report_status_effect (mkMsg 1 0 400) Scenarios.pb_sub 1 Verified
           Scenarios.pb_verified ltac:(concrete)).
Defined.

(** Once [addToBlacklist] has listed a target, every [submitReport] naming
    it (as the URL for a URL target, as the wallet for a wallet target)
    reverts. *)
Theorem blacklist_blocks_submission (m : Msg) (s : State) (x : string) (isUrl : bool)
    (s1 : State) :
  addToBlacklist m s x isUrl = Some s1 ->
  forall m' rid url w d h t,
    (if isUrl then url = x else w = x) ->
    submitReport m' s1 rid url w d h t = None.
Proof.
  intros H m' rid url w d h t Hx. unfold addToBlacklist in H. takes.
  unfold submitReport.
  destruct (PBRegistry.submitReport m' (base (set_listed s x isUrl true)) rid url w d h)
    as [b|] eqn:Hb; [exfalso | reflexivity].
  unfold PBRegistry.submitReport in Hb. takes.
  unfold set_listed in *. destruct isUrl; subst; simpl in *;
    rewrite lookup_insert_eq in *; simpl in *;
    repeat match goal with E : nonempty x = true |- _ => rewrite E in * end;
    simpl in *; discriminate.
Qed.

Lemma blacklist_blocks_submission_witness :
  submitReport (mkMsg 1 0 100) Scenarios.pb_listed 1 "http://phish.example" ""
    "fake login page" "QmReport" URL = None.
Proof.
  apply (blacklist_blocks_submission (mkMsg 1 0 50) Scenarios.pb_init
           "http://phish.example" true Scenarios.pb_listed); [concrete | reflexivity].
Defined.

End PhishBlockProps.

(** ** EvidenceValidator with its administration *)
Module EvidenceAdminProps.
Import EvidenceAdmin EvAdminFacts.

Ltac ea_step s om :=
  apply (reachable_step s om.1 om.2);
  [| first [exact I | vm_compute; reflexivity] | concrete].

(** In every reachable state the [validatorList] array holds each
    authorized validator exactly once and nothing else: [authorizeValidator]
    pushes, [deauthorizeValidator] swaps with the last entry and pops. *)
Theorem validator_list_exact (s : State) : reachable s -> validators_listed s.
Proof.
  induction 1 as [o|s op m s' _ IH _ H].
  - unfold validators_listed, init, Evidence.init, Evidence.authorized; simpl.
    split; [apply NoDup_singleton|]. intros x.
    rewrite list_elem_of_singleton. destruct (decide (x = o)) as [->|Hne].
    + rewrite lookup_singleton_eq. simpl. tauto.
    + rewrite lookup_singleton_ne by congruence. simpl. split; [tauto|discriminate].
  - eapply exec_validators_listed; eassumption.
Qed.

Lemma validator_list_exact_witness : validators_listed Scenarios.ea_deauth.
Proof.
  apply validator_list_exact.
  ea_step Scenarios.ea_sub (DeauthorizeValidator 2, mkMsg 1 0 4).
  ea_step Scenarios.ea_two Scenarios.ea_submit.
  ea_step (Scenarios.ea_run [Scenarios.ea_auth 2]) (Scenarios.ea_auth 3).
  ea_step Scenarios.ea_init (Scenarios.ea_auth 2).
  apply reachable_init.
Defined.

(** In every reachable state each evidence's [validationResults] list is
    consistent with its counters: no validator appears twice, the validators
    in the list are exactly those with [validators[v]] set in the evidence,
    [validationCount] is the list's length, [positiveValidations] the number
    of results with [isValid] true and [negativeValidations] the number with
    [isValid] false. *)
Theorem validation_results_consistent (s : State) : reachable s -> evidence_ok s.
Proof. intros H. apply reachable_core_ok in H. intros e. apply H. Qed.

Lemma validation_results_consistent_witness : evidence_ok Scenarios.ea_fin.
Proof.
  apply validation_results_consistent.
  ea_step (Scenarios.ea_run [Scenarios.ea_auth 2; Scenarios.ea_auth 3; Scenarios.ea_submit;
                             Scenarios.ea_validate 1 true; Scenarios.ea_validate 2 true])
          (Scenarios.ea_validate 3 false).
  ea_step (Scenarios.ea_run [Scenarios.ea_auth 2; Scenarios.ea_auth 3; Scenarios.ea_submit;
                             Scenarios.ea_validate 1 true])
          (Scenarios.ea_validate 2 true).
  ea_step Scenarios.ea_sub (Scenarios.ea_validate 1 true).
  ea_step Scenarios.ea_two Scenarios.ea_submit.
  ea_step (Scenarios.ea_run [Scenarios.ea_auth 2]) (Scenarios.ea_auth 3).
  ea_step Scenarios.ea_init (Scenarios.ea_auth 2).
  apply reachable_init.
Defined.

(** Once [submitEvidence] has accepted an IPFS hash, every later
    [submitEvidence] with that hash reverts, whatever calls come in
    between: [knownIPFSHashes] is never cleared. *)
Theorem known_hash_resubmit_reverts (m : Msg) (s : State) eid h t sz mime url d
    (s1 : State) ops (s2 : State) (m' : Msg) eid' t' sz' mime' url' d' :
  submitEvidence m s eid h t sz mime url d = Some s1 ->
  run ops s1 = Some s2 ->
  submitEvidence m' s2 eid' h t' sz' mime' url' d' = None.
Proof.
  intros H1 Hr.
  assert (Hk : known s1 h = true).
  { unfold submitEvidence, Evidence.submitEvidence in H1. takes.
    unfold known. simpl. by rewrite lookup_insert_eq. }
  apply (proj1 (run_keeps _ _ _ Hr)) in Hk. unfold known in Hk.
  unfold submitEvidence, Evidence.submitEvidence.
  destruct (Evidence.paused (core s2)); [reflexivity|]. simpl.
  destruct (String.length h =? Evidence.IPFS_HASH_LENGTH)%nat; [|reflexivity]. simpl.
  destruct (sz' <=? Evidence.MAX_FILE_SIZE); [|reflexivity]. simpl.
  destruct (0 <? sz'); [|reflexivity]. simpl.
  destruct (nonempty mime'); [|reflexivity]. simpl.
  destruct (nonempty d'); [|reflexivity]. simpl.
  rewrite Hk. reflexivity.
Qed.

Lemma known_hash_resubmit_reverts_witness :
  submitEvidence (mkMsg 9 0 5) Scenarios.ea_fin 8 Scenarios.ev_hash Evidence.Document 2000
    "application/pdf" "http://other.example" "another copy" = None.
Proof.
  apply (known_hash_resubmit_reverts (mkMsg 9 0 2) Scenarios.ea_two 7 Scenarios.ev_hash
           Evidence.Screenshot 1000 "image/png" "http://phish.example" "fake login page"
           Scenarios.ea_sub Scenarios.ea_votes); concrete.
Defined.

(** [getEvidenceIdByIndex] keeps its answers: an index that names an
    evidence id names the same id after any sequence of calls that
    succeeds ([allEvidenceIds] is only appended to). *)
Theorem evidence_index_stable (s : State) ops (s' : State) (i : nat) (x : Z) :
  run ops s = Some s' -> getEvidenceIdByIndex s i = Some x ->
  getEvidenceIdByIndex s' i = Some x.
Proof.
  intros Hr Hg. destruct (proj2 (run_keeps _ _ _ Hr)) as [l Hl].
  unfold getEvidenceIdByIndex in *. rewrite Hl.
  destruct (i <? length (Evidence.allEvidenceIds (core s)))%nat eqn:Ei; [|discriminate].
  simpl in Hg. apply Nat.ltb_lt in Ei.
  rewrite length_app. replace (i <? _)%nat with true
    by (symmetry; apply Nat.ltb_lt; lia). simpl.
  by rewrite lookup_app_l by lia.
Qed.

Lemma evidence_index_stable_witness : getEvidenceIdByIndex Scenarios.ea_fin 0 = Some 7.
Proof.
  apply (evidence_index_stable Scenarios.ea_sub Scenarios.ea_votes Scenarios.ea_fin 0 7);
    concrete.
Defined.

(** A successful [submitEvidence] appends its id to [allEvidenceIds]:
    [getEvidenceIdByIndex] at the old [getTotalEvidence] count returns it. *)
Theorem submitted_evidence_indexed (m : Msg) (s : State) eid h t sz mime url d (s' : State) :
  submitEvidence m s eid h t sz mime url d = Some s' ->
  getEvidenceIdByIndex s' (length (Evidence.allEvidenceIds (core s))) = Some eid.
Proof.
  unfold submitEvidence, Evidence.submitEvidence. intros H. takes.
  unfold getEvidenceIdByIndex. simpl. rewrite length_app. simpl.
  replace (_ <? _)%nat with true by (symmetry; apply Nat.ltb_lt; lia). simpl.
  rewrite lookup_app_r by lia. by rewrite Nat.sub_diag.
Qed.

Lemma submitted_evidence_indexed_witness :
  getEvidenceIdByIndex Scenarios.ea_sub
    (length (Evidence.allEvidenceIds (core Scenarios.ea_two))) = Some 7.
Proof.
  apply (submitted_evidence_indexed (mkMsg 9 0 2) Scenarios.ea_two 7 Scenarios.ev_hash
           Evidence.Screenshot 1000 "image/png" "http://phish.example" "fake login page");
    concrete.
Defined.

(** After [deauthorizeValidator v] succeeds, a [validateEvidence] call sent
    by [v] reverts. *)
Theorem deauthorized_validator_rejected (m : Msg) (s : State) (v : Z) (s' : State)
    (m' : Msg) e (b : bool) why lvl :
  deauthorizeValidator m s v = Some s' -> sender m' = v ->
  validateEvidence m' s' e b why lvl = None.
Proof.
  unfold deauthorizeValidator. intros H <-. takes.
  unfold validateEvidence, Evidence.validateEvidence. simpl.
  destruct (Evidence.paused (core s)); [reflexivity|]. simpl.
  unfold Evidence.authorized. simpl. rewrite lookup_insert_eq. reflexivity.
Qed.

Lemma deauthorized_validator_rejected_witness :
  validateEvidence (mkMsg 2 0 3) Scenarios.ea_deauth 7 true "checked" Evidence.Standard
  = None.
Proof.
  apply (deauthorized_validator_rejected (mkMsg 1 0 4) Scenarios.ea_sub 2 Scenarios.ea_deauth);
    [concrete | reflexivity].
Defined.

(** An evidence whose status is [Validated] or [Rejected] keeps that status
    through every call except [emergencyUpdateEvidenceStatus]: a
    [validateEvidence] on it reverts, and [_finalizeValidation] only runs
    on [Pending] evidence. *)
Theorem finalized_status_stable (op : Op) (m : Msg) (s s' : State) (e : Z) :
  fresh_id op s -> exec op m s = Some s' ->
  (forall e' st, op <> EmergencyUpdateEvidenceStatus e' st) ->
  final (Evidence.status (Evidence.get_evidence (core s) e)) = true ->
  Evidence.status (Evidence.get_evidence (core s') e)
  = Evidence.status (Evidence.get_evidence (core s) e).
Proof.
  intros Hf H Hop Hfin. unfold exec in H. take H.
  destruct op; simpl in H.
  - unfold submitEvidence, Evidence.submitEvidence in H. takes. simpl in Hf.
    unfold Evidence.get_evidence at 1. simpl. destruct (decide (e = eid)) as [->|Hne].
    + unfold Evidence.get_evidence in Hfin. rewrite Hf in Hfin. discriminate.
    + by rewrite lookup_insert_ne by congruence.
  - unfold validateEvidence in H.
    destruct (Evidence.validateEvidence _ _ _ _ _ _) as [c|] eqn:H'; [|discriminate].
    simpl in H. injection H as <-. simpl.
    unfold Evidence.validateEvidence in H'. cbv zeta in H'. takes. rename H' into H.
    destruct (decide (e0 = e)) as [->|Hne].
    + exfalso. apply bool_decide_eq_true in E4.
      destruct E4 as [Hs|Hs]; rewrite Hs in Hfin; discriminate.
    + assert (Hs1 : forall (s1 : Evidence.State) ev1,
        Evidence.evidence s1 = <[e0 := ev1]> (Evidence.evidence (core s)) ->
        Evidence.get_evidence s1 e = Evidence.get_evidence (core s) e).
      { intros s1 ev1 Hs1. unfold Evidence.get_evidence at 1. rewrite Hs1.
        by rewrite lookup_insert_ne by congruence. }
      destruct (_ <=? _) in H; injection H as <-; [|erewrite Hs1; reflexivity].
      unfold Evidence._finalizeValidation. destruct (_ <? _);
        (unfold Evidence.get_evidence at 1; simpl;
         rewrite lookup_insert_ne by congruence; by rewrite lookup_insert_ne by congruence).
  - unfold updateIPFSMetadata in H. takes. reflexivity.
  - unfold updateContentAnalysis in H. takes. reflexivity.
  - unfold authorizeValidator, Evidence.authorizeValidator in H. takes. reflexivity.
  - unfold deauthorizeValidator in H. takes. reflexivity.
  - unfold addMaliciousPattern in H. takes. reflexivity.
  - unfold addSuspiciousDomain in H. takes. reflexivity.
  - unfold pause in H. takes. reflexivity.
  - unfold unpause in H. takes. reflexivity.
  - unfold emergencyUpdateValidatorReputation in H. takes. reflexivity.
  - exfalso. eapply Hop. reflexivity.
Qed.

Lemma finalized_status_stable_witness :
  Evidence.status (Evidence.get_evidence (core Scenarios.ea_meta) 7)
  = Evidence.status (Evidence.get_evidence (core Scenarios.ea_fin) 7).
Proof.
  apply (finalized_status_stable (UpdateIPFSMetadata 7 true) (mkMsg 1 0 5)
           Scenarios.ea_fin Scenarios.ea_meta 7);
    [exact I | concrete | intros e' st; discriminate | concrete].
Defined.

End EvidenceAdminProps.

(** ** ReputationSystem *)
Module RepSysProps.
Import RepSys RepSysFacts RepSysMore.

Ltac rs_staked_reachable :=
  apply (reachable_step Scenarios.rs_rep
           (DepositStake (100 * Scenarios.ETHER) MIN_STAKE_PERIOD Report)
           (mkMsg 5 0 1000)); [| concrete];
  apply (reachable_step Scenarios.rs_init (UpdateReputation 5 10 true) (mkMsg 1 0 500));
  [apply reachable_init | concrete].

(** [claimRewards] reverts in every reachable state: nothing ever credits
    [pendingRewards], so its [require(rewards > 0)] always fails. *)
Theorem claim_rewards_reverts (s : State) (m : Msg) :
  reachable s -> claimRewards m s = None.
Proof.
  intros Hr. destruct (claimRewards m s) as [s'|] eqn:H; [|reflexivity].
  exfalso. destruct (reachable_ledger_ok s Hr) as [Hp _].
  unfold claimRewards, whenNotPaused in H. cbv zeta in H. takes.
  specialize (Hp (sender m)). apply Z.ltb_lt in E1. lia.
Qed.

Lemma claim_rewards_reverts_witness :
  claimRewards (mkMsg 5 0 200000) Scenarios.rs_staked = None.
Proof. apply claim_rewards_reverts. rs_staked_reachable. Defined.

(** In every reachable state each account's [userStakeCount] lies between
    0 and [MAX_STAKES_PER_USER]. *)
Theorem stake_count_bounded (s : State) (u : Z) :
  reachable s -> 0 <= count_of s u <= MAX_STAKES_PER_USER.
Proof. intros Hr. apply (reachable_ledger_ok s Hr). Qed.

Lemma stake_count_bounded_witness :
  0 <= count_of Scenarios.rs_staked 5 <= MAX_STAKES_PER_USER.
Proof. apply stake_count_bounded. rs_staked_reachable. Defined.

(** [_calculateTier] is monotone: a larger total reputation never gives a
    lower tier (BRONZE < SILVER < GOLD < PLATINUM < DIAMOND). *)
Theorem calculateTier_monotone (s : State) (t1 t2 : Z) :
  t1 <= t2 ->
  (RepSysTier.tier_rank (_calculateTier s t1) <= RepSysTier.tier_rank (_calculateTier s t2))%nat.
Proof.
  intros Hle. unfold _calculateTier.
  repeat match goal with
  | |- context [?a <=? ?b] => destruct (Z.leb_spec a b)
  end; simpl; lia.
Qed.

Lemma calculateTier_monotone_witness :
  (RepSysTier.tier_rank (_calculateTier Scenarios.rs_init 60)
   <= RepSysTier.tier_rank (_calculateTier Scenarios.rs_init 300))%nat.
Proof. apply calculateTier_monotone. lia. Defined.

(** [depositStake] stores the new stake under the global id
    [++stakeCounter], but [_updateStakedReputation] sums the user's stakes
    at ids 1..[userStakeCount]: a user's first stake, when [stakeCounter]
    is already positive and the user has no active stake at id 1, leaves
    the user's [stakedReputation] at 0. *)
Theorem first_deposit_uncredited (m : Msg) (s : State) amt lock k (s' : State) :
  depositStake m s amt lock k = Some s' ->
  count_of s (sender m) = 0 -> 1 <= stakeCounter s ->
  active (stake_of s (sender m) 1) = false ->
  stakedReputation (profile_of s' (sender m)) = 0.
Proof.
  intros H Hc Hs Ha. unfold depositStake, whenNotPaused, safeTransferFrom in H. takes.
  match goal with H : _updateStakedReputation _ ?s3 = Some _ |- _ => set (t := s3) in H end.
  assert (Hc3 : count_of t (sender m) = 1).
  { unfold t, count_of in *. simpl. rewrite lookup_insert_eq. simpl. lia. }
  assert (Hl : staked_loop t (sender m) = Some 0).
  { unfold staked_loop. rewrite Hc3. simpl.
    unfold stake_of at 1. unfold t. simpl.
    rewrite lookup_insert_ne by (intros E'; injection E'; lia).
    unfold stake_of in Ha. change (Z.of_nat 1) with 1. rewrite Ha. reflexivity. }
  unfold _updateStakedReputation in H. rewrite Hl in H. simpl in H. takes.
  rewrite profile_of_set. reflexivity.
Qed.

Lemma first_deposit_uncredited_witness :
  stakedReputation (profile_of Scenarios.rs2_b 6) = 0.
Proof.
  apply (first_deposit_uncredited (mkMsg 6 0 1100) Scenarios.rs2_a (100 * Scenarios.ETHER)
           MIN_STAKE_PERIOD Report Scenarios.rs2_b); concrete.
Defined.

(** While the contract is paused, the [whenNotPaused] functions
    [depositStake], [withdrawStake] and [claimRewards], and [pause] (whose
    [_pause] requires an unpaused contract), revert for every caller; and a
    call succeeds only when its sender is the owner (the [onlyOwner]
    functions) or the contract itself ([updateReputation] from
    [address(this)]). *)
Theorem paused_only_admin (op : Op) (m : Msg) (s s' : State) :
  paused s = true ->
  (forall amt lock k, depositStake m s amt lock k = None) /\
  (forall i, withdrawStake m s i = None) /\
  claimRewards m s = None /\
  pause m s = None /\
  (exec op m s = Some s' -> sender m = owner s \/ sender m = self s).
Proof.
  intros Hp. split; [|split; [|split; [|split]]].
  - intros amt lock k. unfold depositStake, whenNotPaused. rewrite Hp. reflexivity.
  - intros i. unfold withdrawStake, whenNotPaused. rewrite Hp. reflexivity.
  - unfold claimRewards, whenNotPaused. rewrite Hp. reflexivity.
  - unfold pause, whenNotPaused. destruct (onlyOwner m s); simpl; [|reflexivity].
    rewrite Hp. reflexivity.
  - intros H.
    destruct op as [amt lock k | i | u c b | u i | | | | | t x | t x | k x];
      simpl in H; unfold depositStake, withdrawStake, updateReputation, slashUser,
      distributeRewards, claimRewards, pause, unpause, updateTierThreshold,
      updateStakeTypeMultiplier, onlyOwner, whenNotPaused in H; rewrite ?Hp in H;
      simpl in H; try discriminate;
      destruct (sender m =? owner s) eqn:Eo; try (left; apply Z.eqb_eq; exact Eo);
      simpl in H; try discriminate.
    destruct (sender m =? self s) eqn:Es; [right; apply Z.eqb_eq; exact Es|discriminate].
Qed.

Lemma paused_only_admin_witness :
  claimRewards (mkMsg 1 0 700) Scenarios.rs_paused = None /\
  (sender (mkMsg 1 0 700) = owner Scenarios.rs_paused \/
   sender (mkMsg 1 0 700) = self Scenarios.rs_paused).
Proof.
  destruct (paused_only_admin Unpause (mkMsg 1 0 700) Scenarios.rs_paused
              (Scenarios.rs_state (exec Unpause (mkMsg 1 0 700) Scenarios.rs_paused))
              ltac:(concrete)) as (_ & _ & H3 & _ & H5).
  split; [exact H3 | apply H5; concrete].
Defined.

End RepSysProps.

(** ** StakeBasedReportRegistry *)
Module RegistryProps.
Import Registry RegistryFacts RegistryRecords.

(** In every reachable registry each validator record is well formed:
    [0 <= correctValidations <= totalValidations], and an active validator
    has reputation at least 1 ([_updateValidatorReputation] floors a
    decrease at 1, [registerValidator] starts it at 100). *)
Theorem validator_record_sane (s : State) (a : Z) :
  reachable s -> val_ok (get_validator s a).
Proof.
  intros Hr. revert a. induction Hr as [o w | s op m s' _ IH Hx]; intros a.
  - unfold get_validator, init. simpl. rewrite lookup_empty. simpl.
    unfold val_ok. simpl. split; [lia|discriminate].
  - destruct (op_cases op) as [->|Hop].
    + unfold exec in Hx. take Hx. apply pay_in_spec in E as (_ & _ & _ & Hv).
      unfold registerValidator in Hx. take Hx. take Hx. injection Hx as <-.
      unfold get_validator at 1, set_validator. simpl.
      destruct (decide (a = sender m)) as [->|Hne].
      * rewrite lookup_insert_eq. unfold val_ok. simpl. split; [lia|intros; lia].
      * rewrite lookup_insert_ne by congruence. rewrite Hv. apply IH.
    + eapply exec_pres; [apply val_ok_bump|exact Hx|exact Hop|apply IH].
Qed.

Lemma validator_record_sane_witness : val_ok (get_validator Scenarios.sA 21).
Proof.
  apply validator_record_sane.
  apply (reachable_step Scenarios.sA_pre (Scenarios.vote 23 false).1
           (Scenarios.vote 23 false).2); [| concrete].
  apply (RegistryInv.run_reachable (Scenarios.reg_setup ++
           [(Receive, mkMsg 1 (Scenarios.ETHER / 10) 2);
            Scenarios.vote 21 true; Scenarios.vote 22 true]) Scenarios.reg_init);
    [apply (reachable_init 1 Scenarios.w0) | concrete].
Defined.

(** Registration is for good: no function clears [isActive], so an active
    validator stays active after any sequence of calls that succeeds, and
    its [registerValidator] keeps reverting ("Already registered"). *)
Theorem registration_permanent (s : State) ops (s' : State) (a : Z) :
  isActive (get_validator s a) = true -> run ops s = Some s' ->
  isActive (get_validator s' a) = true /\
  (forall m, sender m = a -> exec RegisterValidator m s' = None).
Proof.
  revert s. induction ops as [|[op m] ops IH]; intros s Ha H.
  - unfold run in H. simpl in H. injection H as <-. split; [exact Ha|].
    intros m <-. unfold exec. destruct (pay_in m s) as [s0|] eqn:Ep; [|reflexivity].
    simpl. apply pay_in_spec in Ep as (_ & _ & _ & Hv).
    unfold registerValidator. destruct (value m =? 0); [|reflexivity]. simpl.
    unfold get_validator in *. rewrite Hv, Ha. reflexivity.
  - rewrite registry_run_cons in H. simpl in H.
    destruct (exec op m s) as [s1|] eqn:Hx; [|discriminate].
    apply (IH s1); [|exact H].
    destruct (op_cases op) as [->|Hop].
    + unfold exec in Hx. take Hx. apply pay_in_spec in E as (_ & _ & _ & Hv).
      unfold registerValidator in Hx. take Hx. take Hx. injection Hx as <-.
      unfold get_validator in *. rewrite Hv in E0. simpl.
      destruct (decide (a = sender m)) as [->|Hne].
      * rewrite Ha in E0. discriminate.
      * rewrite lookup_insert_ne by congruence. rewrite Hv. exact Ha.
    + eapply (exec_pres (fun v => isActive v = true)); [|exact Hx|exact Hop|exact Ha].
      intros c v Hv. unfold bump_validator. destruct c; exact Hv.
Qed.

Lemma registration_permanent_witness :
  isActive (get_validator Scenarios.sB 21) = true /\
  (forall m, sender m = 21 -> exec RegisterValidator m Scenarios.sB = None).
Proof.
  apply (registration_permanent Scenarios.sB_pre [Scenarios.vote 23 true] Scenarios.sB 21);
    concrete.
Defined.

End RegistryProps.
